(** * Vanity address generator: a shallow embedding of
    [src/utils/services/vanityAddress.tsx]

    The file models the three parts of the source:
    - the configuration check and the constructor of [VanityAddressGenerator];
    - the [VanityWorker] class of [WORKER_CODE] (pattern matcher and search
      loop), run one loop iteration at a time;
    - the coordinator side of [generate()] (message and error handlers,
      [stopWorkers]) together with the pool of web workers it drives.

    Conventions.
    - A JavaScript string is a [string]: a list of code units, here limited to
      8 bits (Latin-1).  Every base58 address and every pattern accepted by
      [validateConfig] is ASCII.
    - A JavaScript [number] that the code uses as a count or a time stamp is a
      [Z]; an optional field is an [option], and JavaScript truthiness is
      written out ([truthyStr] for strings, a test against [0] for numbers).
    - [Date.now()], [navigator.hardwareConcurrency] and the key pairs drawn by
      [Keypair.generate()] come from the environment and are parameters. *)

From Stdlib Require Import ZArith Ascii String Bool Lia.
From stdpp Require Import base list.

Local Open Scope Z_scope.

(** ** JavaScript strings *)

Module Js.

Definition inRange (lo hi c : ascii) : bool :=
  ((N_of_ascii lo <=? N_of_ascii c) && (N_of_ascii c <=? N_of_ascii hi))%N.

(** [String.prototype.toLowerCase] on Latin-1 code units: [A-Z] and the
    accented capitals U+00C0..U+00DE (without the sign U+00D7) move up by 32. *)
Definition lowerChar (c : ascii) : ascii :=
  if inRange "A" "Z" c
     || (inRange (ascii_of_N 192) (ascii_of_N 222) c
         && negb (Ascii.eqb c (ascii_of_N 215)))
  then ascii_of_N (N_of_ascii c + 32)
  else c.

Fixpoint toLowerCase (s : string) : string :=
  match s with
  | EmptyString => EmptyString
  | String c s' => String (lowerChar c) (toLowerCase s')
  end.

(** [s.startsWith(p)]: [p] is no longer than [s] and equals the first
    [p.length] code units of [s]. *)
Definition startsWith (s p : string) : bool :=
  (String.length p <=? String.length s)%nat
  && String.eqb (substring 0 (String.length p) s) p.

(** [s.endsWith(p)]: the same with the last [p.length] code units. *)
Definition endsWith (s p : string) : bool :=
  (String.length p <=? String.length s)%nat
  && String.eqb
       (substring (String.length s - String.length p) (String.length p) s) p.

(** Truthiness of an optional string: [undefined] and [""] are falsy. *)
Definition truthyStr (o : option string) : bool :=
  match o with
  | Some (String _ _) => true
  | _ => false
  end.

(** [a || b] on numbers, with a number as the last operand. *)
Definition orNum (a : option Z) (b : Z) : Z :=
  match a with
  | Some n => if n =? 0 then b else n
  | None => b
  end.

(** [o?.length || 0] *)
Definition lengthOr0 (o : option string) : Z :=
  match o with
  | Some s => Z.of_nat (String.length s)
  | None => 0
  end.

End Js.

(** ** Configuration and its validation *)

Record VanityConfig := {
  prefix : option string;
  suffix : option string;
  caseInsensitive : bool;
  maxAttempts : option Z;
  threads : option Z;
  debug : option bool
}.

(** The character class [[1-9A-HJ-NP-Za-km-z]]. *)
Definition isBase58Char (c : ascii) : bool :=
  Js.inRange "1" "9" c
  || Js.inRange "A" "H" c || Js.inRange "J" "N" c || Js.inRange "P" "Z" c
  || Js.inRange "a" "k" c || Js.inRange "m" "z" c.

Fixpoint allBase58 (s : string) : bool :=
  match s with
  | EmptyString => true
  | String c s' => isBase58Char c && allBase58 s'
  end.

(** [/^[1-9A-HJ-NP-Za-km-z]+$/.test(s)] *)
Definition base58Regex_test (s : string) : bool :=
  match s with
  | EmptyString => false
  | String _ _ => allBase58 s
  end.

(** The four [throw new Error(...)] of [validateConfig]. *)
Inductive ConfigurationError :=
| NoPatternSpecified
| PrefixInvalidBase58
| SuffixInvalidBase58
| ThreadCountOutOfRange (limit : Z).

(** What [validateConfig] does when it does not throw: it may have printed
    the pattern-length warning. *)
Record Validated := { warnedLongPattern : bool }.

(** [regex.test(o)] for an optional string that is known to be truthy. *)
Definition testOpt (o : option string) : bool :=
  match o with
  | Some s => base58Regex_test s
  | None => false
  end.

(** [navigator.hardwareConcurrency || 4] *)
Definition maxThreads (hardwareConcurrency : option Z) : Z :=
  Js.orNum hardwareConcurrency 4.

Definition validateConfig (hardwareConcurrency : option Z) (config : VanityConfig)
  : ConfigurationError + Validated :=
  if negb (Js.truthyStr (prefix config)) && negb (Js.truthyStr (suffix config))
  then inl NoPatternSpecified
  else if Js.truthyStr (prefix config) && negb (testOpt (prefix config))
  then inl PrefixInvalidBase58
  else if Js.truthyStr (suffix config) && negb (testOpt (suffix config))
  then inl SuffixInvalidBase58
  else
    let totalLength := Js.lengthOr0 (prefix config) + Js.lengthOr0 (suffix config) in
    let maxT := maxThreads hardwareConcurrency in
    match threads config with
    | Some t =>
        if negb (t =? 0) && ((t <? 1) || (t >? maxT * 2))
        then inl (ThreadCountOutOfRange (maxT * 2))
        else inr {| warnedLongPattern := totalLength >? 10 |}
    | None => inr {| warnedLongPattern := totalLength >? 10 |}
    end.

(** ** The pattern matcher of the worker *)

(** [caseInsensitive && p ? p.toLowerCase() : p] *)
Definition targetOf (ci : bool) (p : option string) : option string :=
  if ci && Js.truthyStr p then option_map Js.toLowerCase p else p.

(** [!p || target.startsWith(tp)] and its [endsWith] twin; [tp] is only read
    when [p] is truthy. *)
Definition patternCheck (test : string -> string -> bool)
  (p tp : option string) (target : string) : bool :=
  negb (Js.truthyStr p)
  || match tp with
     | Some q => test target q
     | None => false
     end.

Definition matchesPattern (config : VanityConfig) (address : string) : bool :=
  let targetAddress :=
    if caseInsensitive config then Js.toLowerCase address else address in
  let targetPrefix := targetOf (caseInsensitive config) (prefix config) in
  let targetSuffix := targetOf (caseInsensitive config) (suffix config) in
  let prefixMatch := patternCheck Js.startsWith (prefix config) targetPrefix targetAddress in
  let suffixMatch := patternCheck Js.endsWith (suffix config) targetSuffix targetAddress in
  prefixMatch && suffixMatch.

(** ** Messages from a worker to the coordinator *)

(** What [solanaWeb3.Keypair.generate()] returns, as far as the code reads it:
    [publicKey.toBase58()] and [secretKey]. *)
Record Keypair := { publicKey_toBase58 : string; secretKey : list Z }.

Module Msg.

Inductive MessageType := progress | success.

(** The [data] object of the interface [WorkerMessage]; all fields optional. *)
Record Data := {
  attempts : option Z;
  address : option string;
  privateKey : option (list Z);
  rate : option Z
}.

Record WorkerMessage := { type : MessageType; data : Data }.

(** [{ type: 'progress', data: { attempts: n } }] *)
Definition progressOf (n : Z) : WorkerMessage :=
  {| type := progress;
     data := {| attempts := Some n; address := None; privateKey := None; rate := None |} |}.

(** [{ type: 'success', data: { address, privateKey, attempts } }] *)
Definition successOf (a : string) (k : list Z) (n : Z) : WorkerMessage :=
  {| type := success;
     data := {| attempts := Some n; address := Some a; privateKey := Some k; rate := None |} |}.

Definition isProgress (m : WorkerMessage) : bool :=
  match type m with progress => true | success => false end.

(** [e.data.data.attempts || 0] *)
Definition attemptsOr0 (m : WorkerMessage) : Z := Js.orNum (attempts (data m)) 0.

End Msg.

(** ** The worker: class [VanityWorker] of [WORKER_CODE] *)

Module VanityWorker.

(** Where [search()] stands: still looping, returned after posting a success,
    or left by the [throw] of the attempt ceiling (the [catch] of
    [self.onmessage] then logs the error and calls [self.close()]). *)
Inductive Status := Searching | Succeeded | Exhausted.

(** The fields of the class, the loop variable [i] of the [for], the position
    of the control ([status]) and a ghost counter of the key pairs drawn so
    far, which indexes the worker's random source. *)
Record t := {
  config : VanityConfig;
  workerId : Z;
  attempts : Z;
  reportInterval : Z;
  i : Z;
  generated : nat;
  status : Status
}.

Definition new (config : VanityConfig) (workerId : Z) : t :=
  {| config := config; workerId := workerId; attempts := 0;
     reportInterval := 10000; i := 0; generated := 0; status := Searching |}.

(** [this.config.maxAttempts && this.attempts >= this.config.maxAttempts] *)
Definition ceilingReached (c : VanityConfig) (attempts : Z) : bool :=
  match maxAttempts c with
  | Some m => negb (m =? 0) && (attempts >=? m)
  | None => false
  end.

(** One iteration of [search()], from the test of the [for] loop:
    - [i < reportInterval]: draw a key pair and match its address; on a match
      post the success message and return, otherwise [i++];
    - otherwise the batch is over: add it to [attempts], post the progress
      message, then throw if the ceiling is reached or start the next batch. *)
Definition step (gen : nat -> Keypair) (w : t) : t * list Msg.WorkerMessage :=
  match status w with
  | Searching =>
      if i w <? reportInterval w then
        let keypair := gen (generated w) in
        let address := publicKey_toBase58 keypair in
        if matchesPattern (config w) address then
          ({| config := config w; workerId := workerId w; attempts := attempts w;
              reportInterval := reportInterval w; i := i w;
              generated := S (generated w); status := Succeeded |},
           [Msg.successOf address (secretKey keypair) (attempts w + i w + 1)])
        else
          ({| config := config w; workerId := workerId w; attempts := attempts w;
              reportInterval := reportInterval w; i := i w + 1;
              generated := S (generated w); status := Searching |},
           [])
      else
        let attempts' := attempts w + reportInterval w in
        ({| config := config w; workerId := workerId w; attempts := attempts';
            reportInterval := reportInterval w;
            i := if ceilingReached (config w) attempts' then i w else 0;
            generated := generated w;
            status := if ceilingReached (config w) attempts' then Exhausted else Searching |},
         [Msg.progressOf (reportInterval w)])
  | _ => (w, [])
  end.

(** [n] iterations, with the messages posted on the way. *)
Fixpoint run (gen : nat -> Keypair) (n : nat) (w : t) : t * list Msg.WorkerMessage :=
  match n with
  | O => (w, [])
  | S n' =>
      let '(w1, out1) := step gen w in
      let '(w2, out2) := run gen n' w1 in
      (w2, out1 ++ out2)
  end.

End VanityWorker.

(** ** The coordinator: class [VanityAddressGenerator] *)

Module Generator.

(** The value [generate()] resolves with; [privateKey] stands for
    [Keypair.fromSecretKey(e.data.data.privateKey)]. *)
Record SearchResult := {
  publicKey : option string;
  privateKey : option (list Z);
  attempts : Z;
  duration : Z
}.

(** The argument of the progress callback, as far as it is a whole number:
    [attempts] and [elapsed].  Its [rate],
    [Math.floor(totalAttempts / (elapsed / 1000))], is a quotient of
    floating-point numbers and is left out. *)
Record ProgressInfo := { p_attempts : Z; p_elapsed : Z }.

(** How the promise of [generate()] was settled: [resolve(result)], or
    [reject(error)] with the error event of the worker of that index. *)
Inductive Settlement :=
| Resolved (r : SearchResult)
| Rejected (workerIndex : nat).

(** The fields of the class, the variables captured by the closures of one
    [generate()] call ([lastProgressUpdate], the promise) and two logs: the
    calls of the progress callback, latest first, and the number of calls of
    [resolve].  [workers] holds the handles, as indices into the worker pool. *)
Record t := {
  config : VanityConfig;
  totalAttempts : Z;
  startTime : Z;
  workers : list nat;
  isRunning : bool;
  onProgress : bool;
  lastProgressUpdate : Z;
  promise : option Settlement;
  progressCalls : list ProgressInfo;
  resolveCalls : nat
}.

(** A promise settles once: later [resolve] and [reject] calls do nothing. *)
Definition settle (p : option Settlement) (v : Settlement) : option Settlement :=
  match p with
  | None => Some v
  | Some _ => p
  end.

(** The object built by the constructor once [validateConfig] has returned:
    [threads: config.threads || navigator.hardwareConcurrency || 4]. *)
Definition construct (hardwareConcurrency : option Z) (c : VanityConfig) : t :=
  {| config := {| prefix := prefix c; suffix := suffix c;
                  caseInsensitive := caseInsensitive c;
                  maxAttempts := maxAttempts c;
                  threads := Some (Js.orNum (threads c) (maxThreads hardwareConcurrency));
                  debug := debug c |};
     totalAttempts := 0; startTime := 0; workers := []; isRunning := false;
     onProgress := false; lastProgressUpdate := 0; promise := None;
     progressCalls := []; resolveCalls := 0 |}.

(** [new VanityAddressGenerator(config)] *)
Definition new (hardwareConcurrency : option Z) (c : VanityConfig)
  : ConfigurationError + t :=
  match validateConfig hardwareConcurrency c with
  | inl e => inl e
  | inr _ => inr (construct hardwareConcurrency c)
  end.

Definition setProgressCallback (g : t) : t :=
  {| config := config g; totalAttempts := totalAttempts g; startTime := startTime g;
     workers := workers g; isRunning := isRunning g; onProgress := true;
     lastProgressUpdate := lastProgressUpdate g; promise := promise g;
     progressCalls := progressCalls g; resolveCalls := resolveCalls g |}.

(** The closure [onProgress] of [generate()], at time [now].  The progress
    callback is taken to return normally: one that throws leaves the closure
    before [lastProgressUpdate = now]. *)
Definition onProgressDelta (now : Z) (delta : Z) (g : t) : t :=
  if negb (isRunning g) then g
  else
    let total := totalAttempts g + delta in
    if now - lastProgressUpdate g >=? 1000 then
      let elapsed := now - startTime g in
      {| config := config g; totalAttempts := total; startTime := startTime g;
         workers := workers g; isRunning := isRunning g; onProgress := onProgress g;
         lastProgressUpdate := now; promise := promise g;
         progressCalls :=
           if onProgress g
           then {| p_attempts := total; p_elapsed := elapsed |}
                :: progressCalls g
           else progressCalls g;
         resolveCalls := resolveCalls g |}
    else
      {| config := config g; totalAttempts := total; startTime := startTime g;
         workers := workers g; isRunning := isRunning g; onProgress := onProgress g;
         lastProgressUpdate := lastProgressUpdate g; promise := promise g;
         progressCalls := progressCalls g; resolveCalls := resolveCalls g |}.

End Generator.

(** ** The session: the coordinator and its pool of web workers *)

(** One web worker as the host sees it: the state of its script, whether
    [terminate()] was called on it, the messages it has posted that the main
    thread has not handled yet, oldest first, and (a ghost log) those the main
    thread has handled. *)
Record WorkerProc := {
  script : VanityWorker.t;
  terminated : bool;
  outbox : list Msg.WorkerMessage;
  delivered : list Msg.WorkerMessage
}.

Record System := {
  coordinator : Generator.t;
  pool : list WorkerProc
}.

(** [worker.terminate()] *)
Definition terminate (p : WorkerProc) : WorkerProc :=
  {| script := script p; terminated := true;
     outbox := outbox p; delivered := delivered p |}.

(** [stopWorkers()]: clears [isRunning], terminates every worker whose handle
    is in [this.workers], and empties that list. *)
Definition stopWorkers (s : System) : System :=
  let g := coordinator s in
  {| coordinator :=
       {| Generator.config := Generator.config g;
          Generator.totalAttempts := Generator.totalAttempts g;
          Generator.startTime := Generator.startTime g;
          Generator.workers := [];
          Generator.isRunning := false;
          Generator.onProgress := Generator.onProgress g;
          Generator.lastProgressUpdate := Generator.lastProgressUpdate g;
          Generator.promise := Generator.promise g;
          Generator.progressCalls := Generator.progressCalls g;
          Generator.resolveCalls := Generator.resolveCalls g |};
     pool := foldl (fun pl h => alter terminate h pl) (pool s) (Generator.workers g) |}.

Definition withCoordinator (s : System) (g : Generator.t) : System :=
  {| coordinator := g; pool := pool s |}.

(** [resolve(result)] *)
Definition resolveWith (r : Generator.SearchResult) (g : Generator.t) : Generator.t :=
  {| Generator.config := Generator.config g;
     Generator.totalAttempts := Generator.totalAttempts g;
     Generator.startTime := Generator.startTime g;
     Generator.workers := Generator.workers g;
     Generator.isRunning := Generator.isRunning g;
     Generator.onProgress := Generator.onProgress g;
     Generator.lastProgressUpdate := Generator.lastProgressUpdate g;
     Generator.promise := Generator.settle (Generator.promise g) (Generator.Resolved r);
     Generator.progressCalls := Generator.progressCalls g;
     Generator.resolveCalls := S (Generator.resolveCalls g) |}.

(** [reject(error)] *)
Definition rejectWith (w : nat) (g : Generator.t) : Generator.t :=
  {| Generator.config := Generator.config g;
     Generator.totalAttempts := Generator.totalAttempts g;
     Generator.startTime := Generator.startTime g;
     Generator.workers := Generator.workers g;
     Generator.isRunning := Generator.isRunning g;
     Generator.onProgress := Generator.onProgress g;
     Generator.lastProgressUpdate := Generator.lastProgressUpdate g;
     Generator.promise := Generator.settle (Generator.promise g) (Generator.Rejected w);
     Generator.progressCalls := Generator.progressCalls g;
     Generator.resolveCalls := Generator.resolveCalls g |}.

(** [worker.onmessage], the same closure for every worker, at time [now]. *)
Definition onmessage (now : Z) (e : Msg.WorkerMessage) (s : System) : System :=
  if negb (Generator.isRunning (coordinator s)) then s
  else
    match Msg.type e with
    | Msg.progress =>
        withCoordinator s
          (Generator.onProgressDelta now (Msg.attemptsOr0 e) (coordinator s))
    | Msg.success =>
        let s1 := stopWorkers s in
        let g1 := coordinator s1 in
        let duration := now - Generator.startTime g1 in
        withCoordinator s1
          (resolveWith
             {| Generator.publicKey := Msg.address (Msg.data e);
                Generator.privateKey := Msg.privateKey (Msg.data e);
                Generator.attempts := Generator.totalAttempts g1;
                Generator.duration := duration |}
             g1)
    end.

(** [worker.onerror] of the worker of index [w]. *)
Definition onerror (w : nat) (s : System) : System :=
  let s1 := stopWorkers s in
  withCoordinator s1 (rejectWith w (coordinator s1)).

(** [generate()] on a generator [g] without live workers, as the constructor
    leaves it, with the two readings [t0] and [t1] of [Date.now()]: one
    worker per [i < this.config.threads], each sent [{ config, workerId: i }],
    which starts its [search()]. *)
Definition generate (g : Generator.t) (t0 t1 : Z) : System :=
  let n := match threads (Generator.config g) with
           | Some t => Z.to_nat t
           | None => O
           end in
  {| coordinator :=
       {| Generator.config := Generator.config g;
          Generator.totalAttempts := 0;
          Generator.startTime := t0;
          Generator.workers := Generator.workers g ++ seq 0 n;
          Generator.isRunning := true;
          Generator.onProgress := Generator.onProgress g;
          Generator.lastProgressUpdate := t1;
          Generator.promise := None;
          Generator.progressCalls := Generator.progressCalls g;
          Generator.resolveCalls := 0 |};
     pool := (fun i => {| script := VanityWorker.new (Generator.config g) (Z.of_nat i);
                          terminated := false; outbox := []; delivered := [] |})
             <$> seq 0 n |}.

(** What can happen next in a session: a live worker runs one iteration of
    its loop; the main thread handles the oldest pending message of a worker;
    the host reports an error of a worker. *)
Inductive Action :=
| WorkerStep (w : nat)
| Deliver (w : nat) (now : Z)
| WorkerError (w : nat).

Definition workerStep (gen : nat -> Keypair) (p : WorkerProc) : WorkerProc :=
  if terminated p then p
  else
    let '(w', out) := VanityWorker.step gen (script p) in
    {| script := w'; terminated := false;
       outbox := outbox p ++ out; delivered := delivered p |}.

Definition sysStep (gens : nat -> nat -> Keypair) (a : Action) (s : System) : System :=
  match a with
  | WorkerStep w =>
      {| coordinator := coordinator s; pool := alter (workerStep (gens w)) w (pool s) |}
  | Deliver w now =>
      match pool s !! w with
      | Some p =>
          match outbox p with
          | e :: rest =>
              onmessage now e
                {| coordinator := coordinator s;
                   pool := <[w := {| script := script p; terminated := terminated p;
                                     outbox := rest;
                                     delivered := delivered p ++ [e] |}]> (pool s) |}
          | [] => s
          end
      | None => s
      end
  | WorkerError w =>
      match pool s !! w with
      | Some _ => onerror w s
      | None => s
      end
  end.

Definition runSys (gens : nat -> nat -> Keypair) (acts : list Action) (s : System) : System :=
  foldl (fun s a => sysStep gens a s) s acts.

(** A whole use of the class, as in its usage comment: construct, optionally
    register a progress callback, call [generate()]. *)
Definition startSearch (hardwareConcurrency : option Z) (c : VanityConfig)
  (callback : bool) (t0 t1 : Z) : ConfigurationError + System :=
  match Generator.new hardwareConcurrency c with
  | inl e => inl e
  | inr g =>
      inr (generate (if callback then Generator.setProgressCallback g else g) t0 t1)
  end.

(** The session started from a configuration that the constructor accepts or
    not: what [generate()] builds from the constructed object. *)
Definition session (hardwareConcurrency : option Z) (c : VanityConfig)
  (callback : bool) (t0 t1 : Z) : System :=
  let g := Generator.construct hardwareConcurrency c in
  generate (if callback then Generator.setProgressCallback g else g) t0 t1.

(** ** Predicates used in the statements *)

(** [s] starts with [p]; [s] ends with [p]. *)
Definition StartsWith (s p : string) : Prop := exists t, s = (p ++ t)%string.
Definition EndsWith (s p : string) : Prop := exists t, s = (t ++ p)%string.

(** The case rule of a configuration, applied to the address and to the
    patterns alike. *)
Definition caseFold (c : VanityConfig) (s : string) : string :=
  if caseInsensitive c then Js.toLowerCase s else s.

(** The 58 characters of the restricted alphabet. *)
Definition base58Alphabet : string :=
  "123456789ABCDEFGHJKLMNPQRSTUVWXYZabcdefghijkmnopqrstuvwxyz".

(** An optional pattern that holds a character outside the alphabet. *)
Definition hasInvalidChar (o : option string) : Prop :=
  exists s c, o = Some s /\ In c (list_ascii_of_string s) /\ isBase58Char c = false.

Definition withThreads (c : VanityConfig) (t : option Z) : VanityConfig :=
  {| prefix := prefix c; suffix := suffix c; caseInsensitive := caseInsensitive c;
     maxAttempts := maxAttempts c; threads := t; debug := debug c |}.

(** A worker of configuration [c] with the given counters; the batch size is
    the one the constructor sets. *)
Definition workerAt (c : VanityConfig) (wid a ii : Z) (g : nat)
  (st : VanityWorker.Status) : VanityWorker.t :=
  {| VanityWorker.config := c; VanityWorker.workerId := wid;
     VanityWorker.attempts := a; VanityWorker.reportInterval := 10000;
     VanityWorker.i := ii; VanityWorker.generated := g;
     VanityWorker.status := st |}.

(** No key pair of the source [gen] with an index in [[g, g + n)] matches. *)
Definition noMatchIn (c : VanityConfig) (gen : nat -> Keypair) (g n : nat) : Prop :=
  forall k, (g <= k < g + n)%nat ->
    matchesPattern c (publicKey_toBase58 (gen k)) = false.

(** ** Measures and invariants of a session *)

(** The sum of the progress deltas of a list of messages. *)
Definition sumDeltas (l : list Msg.WorkerMessage) : Z :=
  foldr (fun m acc => (if Msg.isProgress m then Msg.attemptsOr0 m else 0) + acc) 0 l.

(** The sum of the progress deltas that the main thread has handled. *)
Definition received (pl : list WorkerProc) : Z :=
  foldr (fun p acc => sumDeltas (delivered p) + acc) 0 pl.

(** The [attempts] field of a progress message, as the worker wrote it
    ([0] for a message that is no progress delta or carries no such field). *)
Definition batchAttempts (m : Msg.WorkerMessage) : Z :=
  match Msg.type m, Msg.attempts (Msg.data m) with
  | Msg.progress, Some n => n
  | _, _ => 0
  end.

(** The sum of the [attempts] fields of the progress messages that the main
    thread has handled, and the number of these messages. *)
Definition handledAttempts (pl : list WorkerProc) : Z :=
  foldr (fun p acc => foldr (fun m acc' => batchAttempts m + acc') 0 (delivered p) + acc)
    0 pl.

Definition handledDeltas (pl : list WorkerProc) : nat :=
  foldr (fun p acc => (length (List.filter Msg.isProgress (delivered p)) + acc)%nat)
    O pl.

(** The number of key pairs that the workers have drawn. *)
Definition drawn (pl : list WorkerProc) : Z :=
  foldr (fun p acc => Z.of_nat (VanityWorker.generated (script p)) + acc) 0 pl.

(** Every message a worker has posted, oldest first. *)
Definition history (p : WorkerProc) : list Msg.WorkerMessage :=
  delivered p ++ outbox p.

(** The host reports no worker error in these actions. *)
Definition noHostError (acts : list Action) : Prop :=
  Forall (fun a => match a with WorkerError _ => False | _ => True end) acts.

(** What holds of a worker at any time: it has posted one progress message
    of 10000 per finished batch, then at most one success message, which
    carries the number of key pairs it has drawn. *)
Definition procInv (p : WorkerProc) : Prop :=
  let w := script p in
  VanityWorker.reportInterval w = 10000
  /\ exists k : nat,
       VanityWorker.attempts w = 10000 * Z.of_nat k
       /\ match VanityWorker.status w with
          | VanityWorker.Searching =>
              history p = repeat (Msg.progressOf 10000) k
              /\ 0 <= VanityWorker.i w <= 10000
              /\ Z.of_nat (VanityWorker.generated w)
                 = VanityWorker.attempts w + VanityWorker.i w
          | VanityWorker.Exhausted =>
              history p = repeat (Msg.progressOf 10000) k
              /\ Z.of_nat (VanityWorker.generated w) = VanityWorker.attempts w
          | VanityWorker.Succeeded =>
              (exists a key,
                 history p = repeat (Msg.progressOf 10000) k
                             ++ [Msg.successOf a key
                                   (Z.of_nat (VanityWorker.generated w))])
              /\ VanityWorker.attempts w < Z.of_nat (VanityWorker.generated w)
                 <= VanityWorker.attempts w + 10000
          end.

(** What holds of the coordinator: while it runs the promise is pending,
    every worker's handle is in [workers] and [totalAttempts] is the sum of
    the deltas handled; once stopped every worker is terminated. *)
Definition coordInv (s : System) : Prop :=
  let g := coordinator s in
  if Generator.isRunning g then
    Generator.promise g = None
    /\ Generator.resolveCalls g = O
    /\ Generator.workers g = seq 0 (length (pool s))
    /\ Generator.totalAttempts g = received (pool s)
  else
    Generator.workers g = []
    /\ Forall (fun p => terminated p = true) (pool s)
    /\ (Generator.resolveCalls g <= 1)%nat.

Definition sessionInv (s : System) : Prop :=
  Forall procInv (pool s) /\ coordInv s.

(** The coordinator has stopped: [isRunning] is cleared, no handle is left
    and every worker is terminated. *)
Definition stopped (s : System) : Prop :=
  Generator.isRunning (coordinator s) = false
  /\ Generator.workers (coordinator s) = []
  /\ Forall (fun p => terminated p = true) (pool s).

(** From [s] to [s'] no worker has drawn a key pair or posted a message. *)
Definition workersFrozen (s s' : System) : Prop :=
  forall w p, pool s !! w = Some p ->
    exists p', pool s' !! w = Some p'
               /\ script p' = script p /\ history p' = history p.


(** A configuration and a random source for the examples: the prefix [ab],
    and key pairs whose address is always [abc]. *)
Definition abConfig : VanityConfig :=
  {| prefix := Some "ab"%string; suffix := None; caseInsensitive := false;
     maxAttempts := None; threads := Some 2; debug := None |}.

Definition alwaysAbc : nat -> Keypair :=
  fun _ => {| publicKey_toBase58 := "abc"%string; secretKey := [7] |}.

(** No worker is searching and no message is pending. *)
Definition quiescent (s : System) : Prop :=
  Forall (fun p => VanityWorker.status (script p) <> VanityWorker.Searching
                   /\ outbox p = []) (pool s).

(** The exhaustion scenario: two workers, a ceiling of 1000 attempts and a
    random source that never matches the prefix; each worker runs its batch
    to the end, then the two progress messages are handled. *)
Definition exhaustionConfig : VanityConfig :=
  {| prefix := Some "zzzzzzzz"%string; suffix := None; caseInsensitive := false;
     maxAttempts := Some 1000; threads := Some 2; debug := None |}.

Definition neverMatching : nat -> nat -> Keypair :=
  fun _ _ => {| publicKey_toBase58 := "1111"%string; secretKey := [] |}.

Definition exhaustionSchedule : list Action :=
  repeat (WorkerStep 0) (Z.to_nat 10001)
  ++ repeat (WorkerStep 1) (Z.to_nat 10001)
  ++ [Deliver 0 100; Deliver 1 200].

(** A race: worker 1 draws 9999 key pairs without a match and has reported
    nothing yet when worker 0 matches at its second draw. *)
Definition secondMatches : nat -> nat -> Keypair :=
  fun w k =>
    if ((w =? 0) && (k =? 1))%nat
    then {| publicKey_toBase58 := "abc"%string; secretKey := [7] |}
    else {| publicKey_toBase58 := "1111"%string; secretKey := [] |}.

Definition raceSchedule : list Action :=
  repeat (WorkerStep 1) (Z.to_nat 9999) ++ [WorkerStep 0; WorkerStep 0; Deliver 0 50].

(** ** Further predicates: validation *)

(** Every character of an optional pattern is in the base58 alphabet (an
    absent or empty pattern has none). *)
Definition patternOk (o : option string) : Prop :=
  forall s, o = Some s ->
    forall ch, In ch (list_ascii_of_string s) -> isBase58Char ch = true.

(** A thread count that the range test lets through: unset, [0], or within
    [1, 2 * maxThreads]. *)
Definition threadsOk (hardwareConcurrency : option Z) (o : option Z) : Prop :=
  match o with
  | None => True
  | Some t => t = 0 \/ 1 <= t <= 2 * maxThreads hardwareConcurrency
  end.

(** A reading of [navigator.hardwareConcurrency]: absent, or not negative. *)
Definition hwSane (hardwareConcurrency : option Z) : Prop :=
  forall h, hardwareConcurrency = Some h -> 0 <= h.

(** The pattern as a string, [""] when absent. *)
Definition patternText (o : option string) : string :=
  match o with
  | Some s => s
  | None => EmptyString
  end.

Definition withCase (c : VanityConfig) (ci : bool) : VanityConfig :=
  {| prefix := prefix c; suffix := suffix c; caseInsensitive := ci;
     maxAttempts := maxAttempts c; threads := threads c; debug := debug c |}.

(** ** Further predicates: the worker *)

(** No attempt ceiling: [maxAttempts] is unset or [0]. *)
Definition noCeiling (c : VanityConfig) : Prop :=
  maxAttempts c = None \/ maxAttempts c = Some 0.

(** The draw of index [k] comes before the ceiling stops the worker: the
    attempts counted at the last batch boundary before it are below the
    ceiling. *)
Definition beforeCeiling (c : VanityConfig) (k : nat) : Prop :=
  match maxAttempts c with
  | Some m => m = 0 \/ 10000 * (Z.of_nat k / 10000) < m
  | None => True
  end.

(** Where the messages of a worker come from: a worker of configuration [c]
    drawing from [gen] has met no match before its last draw, and has
    succeeded exactly when that last draw matches, in which case its success
    message carries the address and the key of that draw and its rank. *)
Definition procOrigin (c : VanityConfig) (gen : nat -> Keypair) (p : WorkerProc) : Prop :=
  let w := script p in
  VanityWorker.config w = c
  /\ match VanityWorker.status w with
     | VanityWorker.Succeeded =>
         exists j,
           VanityWorker.generated w = S j
           /\ noMatchIn c gen 0 j
           /\ matchesPattern c (publicKey_toBase58 (gen j)) = true
           /\ forall e, In e (history p) -> Msg.type e = Msg.success ->
                e = Msg.successOf (publicKey_toBase58 (gen j)) (secretKey (gen j))
                      (Z.of_nat (S j))
     | VanityWorker.Searching => noMatchIn c gen 0 (VanityWorker.generated w)
     | VanityWorker.Exhausted =>
         noMatchIn c gen 0 (VanityWorker.generated w)
         /\ VanityWorker.ceilingReached c (VanityWorker.attempts w) = true
     end.

(** A worker as a process that has posted [out] and of which nothing has
    been handled. *)
Definition procOf (w : VanityWorker.t) (out : list Msg.WorkerMessage) : WorkerProc :=
  {| script := w; terminated := false; outbox := out; delivered := [] |}.

Definition withWorkerId (w : VanityWorker.t) (wid : Z) : VanityWorker.t :=
  {| VanityWorker.config := VanityWorker.config w; VanityWorker.workerId := wid;
     VanityWorker.attempts := VanityWorker.attempts w;
     VanityWorker.reportInterval := VanityWorker.reportInterval w;
     VanityWorker.i := VanityWorker.i w;
     VanityWorker.generated := VanityWorker.generated w;
     VanityWorker.status := VanityWorker.status w |}.

(** ** Further predicates: the session *)

(** Every worker of the pool draws from its own random source, under the
    coordinator's configuration. *)
Definition originInv (gens : nat -> nat -> Keypair) (s : System) : Prop :=
  forall w p, pool s !! w = Some p ->
    procOrigin (Generator.config (coordinator s)) (gens w) p.

(** A resolved promise holds the address and the key of the first matching
    draw of one of the workers. *)
Definition resolvedFrom (gens : nat -> nat -> Keypair) (s : System) : Prop :=
  forall r, Generator.promise (coordinator s) = Some (Generator.Resolved r) ->
    exists w j,
      (w < length (pool s))%nat
      /\ Generator.publicKey r = Some (publicKey_toBase58 (gens w j))
      /\ Generator.privateKey r = Some (secretKey (gens w j))
      /\ matchesPattern (Generator.config (coordinator s))
           (publicKey_toBase58 (gens w j)) = true
      /\ noMatchIn (Generator.config (coordinator s)) (gens w) 0 j.

(** A stopped coordinator has settled its promise, and [resolve] has been
    called once when the promise is resolved, never otherwise. *)
Definition settledInv (s : System) : Prop :=
  let g := coordinator s in
  (Generator.isRunning g = false -> Generator.promise g <> None)
  /\ match Generator.promise g with
     | Some (Generator.Resolved _) => Generator.resolveCalls g = 1%nat
     | _ => Generator.resolveCalls g = 0%nat
     end.

(** [totalAttempts] is a whole number of batches and at most the sum of the
    deltas handled. *)
Definition totalsInv (s : System) : Prop :=
  (exists k : nat, Generator.totalAttempts (coordinator s) = 10000 * Z.of_nat k)
  /\ Generator.totalAttempts (coordinator s) <= received (pool s).

(** A log of notifications, latest first: each comes at least 1000 ms after
    the one before (after [since] for the first) and reports no fewer
    attempts than the one before. *)
Fixpoint throttled (since : Z) (l : list Generator.ProgressInfo) : Prop :=
  match l with
  | [] => True
  | n :: older =>
      match older with
      | m :: _ =>
          Generator.p_elapsed m + 1000 <= Generator.p_elapsed n
          /\ Generator.p_attempts m <= Generator.p_attempts n
      | [] => since + 1000 <= Generator.p_elapsed n
      end
      /\ throttled since older
  end.

(** The elapsed time of the latest notification, [since] when there is none. *)
Definition lastElapsed (since : Z) (l : list Generator.ProgressInfo) : Z :=
  match l with
  | n :: _ => Generator.p_elapsed n
  | [] => since
  end.

(** The notifications of a session started at [t0], with [t1] the second
    clock reading of [generate()] and [cb] telling whether a callback is
    registered. *)
Definition notifyInv (t0 t1 : Z) (cb : bool) (g : Generator.t) : Prop :=
  Generator.startTime g = t0
  /\ Generator.onProgress g = cb
  /\ 0 <= Generator.totalAttempts g
  /\ if cb then
       throttled (t1 - t0) (Generator.progressCalls g)
       /\ Generator.lastProgressUpdate g - t0
          = lastElapsed (t1 - t0) (Generator.progressCalls g)
       /\ Forall (fun n => 10000 <= Generator.p_attempts n
                          /\ Generator.p_attempts n <= Generator.totalAttempts g)
            (Generator.progressCalls g)
     else Generator.progressCalls g = [].

(** * The other sources *)

(** ** [withCreateMint] ([src/unnamed/part_000]) *)

Module Mint.

(** A public key, by its base58 text. *)
Definition PublicKey := string.

(** The instructions the function builds, by the arguments it hands to the
    SDK ([SystemProgram.createAccountWithSeed], [SystemProgram.createAccount],
    [Token.createInitMintInstruction]); [Other] stands for what the caller's
    array holds already. *)
Inductive TransactionInstruction :=
| CreateAccountWithSeed (fromPubkey newAccountPubkey basePubkey : PublicKey)
    (seed : string) (lamports space : Z) (programId : PublicKey)
| CreateAccount (fromPubkey newAccountPubkey : PublicKey)
    (lamports space : Z) (programId : PublicKey)
| InitMint (programId mint : PublicKey) (decimals : Z)
    (mintAuthority : PublicKey) (freezeAuthority : option PublicKey)
| Other (tag : nat).





Definition initialisedMint (ix : TransactionInstruction) : option PublicKey :=
  match ix with
  | InitMint _ k _ _ _ => Some k
  | _ => None
  end.

End Mint.

(** ** [InstructionDataWithHoldUpTime] and the plan of [createProposal]
    ([src/actions/createProposal.ts]) *)

(** The fields of [UiInstruction] that the constructor reads. *)
Module Ui.

Record UiInstruction (TransactionInstruction : Type) := {
  serializedInstruction : string;
  customHoldUpTime : option Z;
  prerequisiteInstructions : option (list TransactionInstruction);
  chunkBy : option Z;
  prerequisiteInstructionsSigners : option (list (option Keypair))
}.

Arguments serializedInstruction {_} _.
Arguments customHoldUpTime {_} _.
Arguments prerequisiteInstructions {_} _.
Arguments chunkBy {_} _.
Arguments prerequisiteInstructionsSigners {_} _.

End Ui.

Module Proposal.

Section WithSdk.

(** The instruction types of the SDK, its base64 decoder, and the helper
    [chunks] of [@utils/helpers], which are not part of these sources. *)
Variables InstructionData TransactionInstruction : Type.
Variable getInstructionDataFromBase64 : string -> InstructionData.
Variable chunks : forall A : Type, list A -> Z -> list (list A).

Record InstructionDataWithHoldUpTime := {
  data : option InstructionData;
  holdUpTime : option Z;
  prerequisiteInstructions : list TransactionInstruction;
  chunkBy : option Z;
  signers : option (list Keypair);
  prerequisiteInstructionsSigners : option (list (option Keypair))
}.

(** The constructor; [minInstructionHoldUpTime] is
    [governance?.account?.config.minInstructionHoldUpTime]. *)
Definition construct (instruction : Ui.UiInstruction TransactionInstruction)
  (minInstructionHoldUpTime : option Z) : InstructionDataWithHoldUpTime :=
  {| data :=
       match Ui.serializedInstruction instruction with
       | EmptyString => None
       | s => Some (getInstructionDataFromBase64 s)
       end;
     holdUpTime :=
       match Ui.customHoldUpTime instruction with
       | Some t => Some t
       | None => minInstructionHoldUpTime
       end;
     prerequisiteInstructions :=
       match Ui.prerequisiteInstructions instruction with
       | Some l => l
       | None => []
       end;
     chunkBy := Some (Js.orNum (Ui.chunkBy instruction) 2);
     signers := None;
     prerequisiteInstructionsSigners :=
       Some match Ui.prerequisiteInstructionsSigners instruction with
            | Some l => l
            | None => []
            end |}.

(** [instructionsData.flatMap((x) => x.signers ?? [])] *)
Definition allSigners (ds : list InstructionDataWithHoldUpTime) : list Keypair :=
  flat_map (fun x => match signers x with Some l => l | None => [] end) ds.

(** [instructionsData.filter((x) => x.chunkBy).map((x) => x.chunkBy!)] *)
Definition chunkBys (ds : list InstructionDataWithHoldUpTime) : list Z :=
  flat_map (fun x => match chunkBy x with
                     | Some n => if n =? 0 then [] else [n]
                     | None => []
                     end) ds.

(** [chunkBys.length ? Math.min(...chunkBys) : 2] *)
Definition lowestChunkBy (ds : list InstructionDataWithHoldUpTime) : Z :=
  match chunkBys ds with
  | [] => 2
  | n :: rest => foldl Z.min n rest
  end.

Definition hasData (x : InstructionDataWithHoldUpTime) : bool :=
  match data x with Some _ => true | None => false end.

(** [array.entries()] *)
Definition entries {A : Type} (l : list A) : list (nat * A) :=
  zip (seq 0 (length l)) l.

(** One call [withInsertTransaction(insertInstructions, ..., index, 0,
    holdUpTime || 0, [data], payer)], by the arguments that vary. *)
Record InsertCall := {
  index : nat;
  holdUp : Z;
  insertData : InstructionData
}.

(** What the loop over the instructions with data accumulates. *)
Record LoopState := {
  prerequisites : list TransactionInstruction;
  prerequisiteSigners : list (option Keypair);
  insertCalls : list InsertCall
}.

Definition loopBody (st : LoopState) (entry : nat * InstructionDataWithHoldUpTime)
  : LoopState :=
  let '(idx, instruction) := entry in
  match data instruction with
  | Some d =>
      {| prerequisites := prerequisites st ++ prerequisiteInstructions instruction;
         prerequisiteSigners :=
           prerequisiteSigners st
           ++ match prerequisiteInstructionsSigners instruction with
              | Some l => l
              | None => []
              end;
         insertCalls :=
           insertCalls st
           ++ [{| index := idx; holdUp := Js.orNum (holdUpTime instruction) 0;
                  insertData := d |}] |}
  | None => st
  end.

Definition insertLoop (ds : list InstructionDataWithHoldUpTime) : LoopState :=
  foldl loopBody
    {| prerequisites := []; prerequisiteSigners := []; insertCalls := [] |}
    (entries (List.filter hasData ds)).

(** [signerChunks]: [Array(insertChunks.length)], then the chunks of the
    signers pushed behind the holes, then [fill([])] over the whole array. *)
Definition signerChunks (insertInstructions : list TransactionInstruction)
  (ds : list InstructionDataWithHoldUpTime) : list (list Keypair) :=
  let insertChunks := chunks _ insertInstructions (lowestChunkBy ds) in
  let pushed : list (option (list Keypair)) :=
    repeat None (length insertChunks)
    ++ (Some <$> chunks _ (allSigners ds) (lowestChunkBy ds)) in
  (fun _ => []) <$> pushed.

(** [signersSet], given the chunks of the prerequisite signers. *)
Definition signersSet (prerequisiteSignersChunks : list (list (option Keypair)))
  (insertInstructions : list TransactionInstruction)
  (ds : list InstructionDataWithHoldUpTime) : list (list (option Keypair)) :=
  prerequisiteSignersChunks ++ [[]]
  ++ map (map Some) (signerChunks insertInstructions ds).

End WithSdk.

Arguments data {_ _} _.
Arguments holdUpTime {_ _} _.
Arguments prerequisiteInstructions {_ _} _.
Arguments chunkBy {_ _} _.
Arguments signers {_ _} _.
Arguments prerequisiteInstructionsSigners {_ _} _.
Arguments construct {_ _} _ _ _.
Arguments allSigners {_ _} _.
Arguments chunkBys {_ _} _.
Arguments lowestChunkBy {_ _} _.
Arguments hasData {_ _} _.
Arguments index {_} _.
Arguments holdUp {_} _.
Arguments insertData {_} _.
Arguments prerequisites {_ _} _.
Arguments prerequisiteSigners {_ _} _.
Arguments insertCalls {_ _} _.
Arguments loopBody {_ _} _ _.
Arguments insertLoop {_ _} _.
Arguments signerChunks {_ _} _ _ _.
Arguments signersSet {_ _} _ _ _ _.

End Proposal.

(** ** [TokenPriceService.getTokenInfoAsync] ([src/utils/services/tokenPrice.tsx]) *)

Module TokenPrice.

(** The white space that [String.prototype.trim] removes, among the 8-bit
    code units: tab, line feed, vertical tab, form feed, carriage return,
    space and no-break space. *)
Definition isWhiteSpace (c : ascii) : bool :=
  let n := N_of_ascii c in
  ((9 <=? n) && (n <=? 13) || (n =? 32) || (n =? 160))%N.

Fixpoint allWhiteSpace (s : string) : bool :=
  match s with
  | EmptyString => true
  | String c s' => isWhiteSpace c && allWhiteSpace s'
  end.

(** [!mintAddress || mintAddress.trim() === ''] *)
Definition blank (mintAddress : string) : bool := allWhiteSpace mintAddress.

Section Service.

(** The records of the token list ([TokenInfo] of [./types], which is not
    part of these sources) with their [address]; the data of a response of
    the token endpoint; and the record built from it,
    [{ ...tokenInfoWithoutDecimals, chainId: 101 }]. *)
Variable TokenInfo : Type.
Variable address : TokenInfo -> string.
Variable Response : Type.
Variable withoutDecimals : Response -> TokenInfo.

(** An object used as a map from mint addresses, latest binding first.  The
    names that every object inherits ([constructor], [toString] and the
    like) are not mint addresses and are left out of the model. *)
Definition Cache := list (string * TokenInfo).

Fixpoint lookup (k : string) (c : Cache) : option TokenInfo :=
  match c with
  | [] => None
  | (k', v) :: c' => if String.eqb k' k then Some v else lookup k c'
  end.

(** The two fields of the service that the method uses. *)
Record Service := {
  _tokenList : list TokenInfo;
  _unverifiedTokenCache : Cache
}.

(** What a call does: the value the promise resolves with, the service
    afterwards and the addresses requested from the token endpoint. *)
Record Result := {
  value : option TokenInfo;
  service : Service;
  requests : list string
}.

(** [_tokenList?.find((x) => x.address === mintAddress)] *)
Definition findToken (sv : Service) (mintAddress : string) : option TokenInfo :=
  List.find (fun x => String.eqb (address x) mintAddress) (_tokenList sv).

(** [fetch a] is [response.data] of the request for [a] when the request
    succeeds with truthy data, [None] when it throws or brings nothing. *)
Definition getTokenInfoAsync (fetch : string -> option Response)
  (sv : Service) (mintAddress : string) : Result :=
  match lookup mintAddress (_unverifiedTokenCache sv) with
  | Some tokenInfo => {| value := Some tokenInfo; service := sv; requests := [] |}
  | None =>
      if blank mintAddress
      then {| value := None; service := sv; requests := [] |}
      else
        match findToken sv mintAddress with
        | Some tokenListRecord =>
            {| value := Some tokenListRecord; service := sv; requests := [] |}
        | None =>
            match lookup mintAddress (_unverifiedTokenCache sv) with
            | Some cached => {| value := Some cached; service := sv; requests := [] |}
            | None =>
                match fetch mintAddress with
                | Some responseData =>
                    let finalTokenInfo := withoutDecimals responseData in
                    {| value := Some finalTokenInfo;
                       service :=
                         {| _tokenList := _tokenList sv;
                            _unverifiedTokenCache :=
                              (mintAddress, finalTokenInfo)
                              :: _unverifiedTokenCache sv |};
                       requests := [mintAddress] |}
                | None =>
                    {| value := None; service := sv; requests := [mintAddress] |}
                end
            end
        end
  end.

End Service.

Arguments lookup {_} _ _.
Arguments _tokenList {_} _.
Arguments _unverifiedTokenCache {_} _.
Arguments value {_} _.
Arguments service {_} _.
Arguments requests {_} _.
Arguments findToken {_} _ _ _.
Arguments getTokenInfoAsync {_} _ {_} _ _ _ _.

End TokenPrice.

(** * Facts *)

(** ** Strings *)

Lemma substring_0_app (p t : string) :
  substring 0 (String.length p) (p ++ t) = p.
Proof.
  induction p as [|c p IH]; simpl.
  - destruct t; reflexivity.
  - now rewrite IH.
Qed.

Lemma length_app (p t : string) :
  String.length (p ++ t) = (String.length p + String.length t)%nat.
Proof. induction p as [|c p IH]; simpl; [reflexivity | now rewrite IH]. Qed.

Lemma startsWith_spec (s p : string) :
  Js.startsWith s p = true <-> StartsWith s p.
Proof.
  unfold Js.startsWith, StartsWith. split.
  - revert s. induction p as [|c p IH]; intros s H.
    + now exists s.
    + destruct s as [|d s]; simpl in H; [discriminate|].
      apply andb_true_iff in H as [Hlen Heq].
      destruct (Ascii.eqb_spec d c) as [->|]; [|discriminate].
      destruct (IH s) as [t ->].
      * apply andb_true_iff. split; [exact Hlen | exact Heq].
      * now exists t.
  - intros [t ->]. apply andb_true_iff. split.
    + apply Nat.leb_le. rewrite length_app. lia.
    + apply String.eqb_eq, substring_0_app.
Qed.

Lemma substring_skip_app (t p : string) :
  substring (String.length t) (String.length p) (t ++ p) = p.
Proof.
  induction t as [|c t IH]; simpl; [|exact IH].
  rewrite <- (substring_0_app p "") at 2.
  f_equal. induction p; simpl; congruence.
Qed.

Lemma substring_split (s : string) (n m : nat) :
  (n + m)%nat = String.length s ->
  s = (substring 0 n s ++ substring n m s)%string.
Proof.
  revert n m. induction s as [|c s IH]; intros n m H; simpl in *.
  - destruct n, m; try discriminate. reflexivity.
  - destruct n as [|n]; simpl.
    + destruct m as [|m]; [discriminate|]. f_equal.
      injection H as ->. clear. induction s; simpl; congruence.
    + f_equal. apply IH. lia.
Qed.

Lemma endsWith_spec (s p : string) :
  Js.endsWith s p = true <-> EndsWith s p.
Proof.
  unfold Js.endsWith, EndsWith. split.
  - intros H. apply andb_true_iff in H as [Hlen Heq].
    apply Nat.leb_le in Hlen. apply String.eqb_eq in Heq.
    exists (substring 0 (String.length s - String.length p) s).
    etransitivity;
      [apply (substring_split s (String.length s - String.length p) (String.length p)); lia|].
    f_equal. exact Heq.
  - intros [t ->]. rewrite length_app. apply andb_true_iff. split.
    + apply Nat.leb_le. lia.
    + apply String.eqb_eq.
      replace (String.length t + String.length p - String.length p)%nat
        with (String.length t) by lia.
      apply substring_skip_app.
Qed.

(** ** The alphabet and the validation *)

(** The character class of the regular expression is the base58 alphabet. *)
Lemma isBase58Char_alphabet (c : ascii) :
  isBase58Char c = existsb (Ascii.eqb c) (list_ascii_of_string base58Alphabet).
Proof.
  destruct c as [[] [] [] [] [] [] [] []]; reflexivity.
Qed.

Lemma allBase58_forall (s : string) :
  allBase58 s = true <->
  forall c, In c (list_ascii_of_string s) -> isBase58Char c = true.
Proof.
  induction s as [|d s IH]; simpl.
  - split; [intros _ c [] | reflexivity].
  - rewrite andb_true_iff, IH. split.
    + intros [Hd Hs] c [<-|Hc]; auto.
    + intros H. split; [apply H; now left | intros c Hc; apply H; now right].
Qed.

Lemma hasInvalidChar_test (o : option string) :
  hasInvalidChar o -> Js.truthyStr o = true /\ testOpt o = false.
Proof.
  intros (s & c & -> & Hin & Hc). destruct s as [|d s]; [destruct Hin|].
  split; [reflexivity|]. simpl testOpt. unfold base58Regex_test.
  destruct (allBase58 (String d s)) eqn:E; [|exact E].
  rewrite (proj1 (allBase58_forall _) E c Hin) in Hc. discriminate.
Qed.

Lemma startSearch_error hw c cb t0 t1 e :
  Generator.new hw c = inl e -> startSearch hw c cb t0 t1 = inl e.
Proof. unfold startSearch. now intros ->. Qed.

(** C6: a configuration whose prefix or suffix holds a character outside the
    base58 alphabet, or that sets neither prefix nor suffix, is refused by the
    constructor with a configuration error, so that no [generate()] call and
    no worker can follow; [0], [O], [I] and [l] are outside the alphabet. *)
Theorem invalid_pattern_rejected
  (hw : option Z) (c : VanityConfig) (cb : bool) (t0 t1 : Z) :
  (hasInvalidChar (prefix c) \/ hasInvalidChar (suffix c)
   \/ (Js.truthyStr (prefix c) = false /\ Js.truthyStr (suffix c) = false)) ->
  (exists e, validateConfig hw c = inl e
             /\ Generator.new hw c = inl e
             /\ startSearch hw c cb t0 t1 = inl e)
  /\ Forall (fun ch => isBase58Char ch = false) ["0"; "O"; "I"; "l"]%char.
Proof.
  intros H. split; [|repeat constructor].
  assert (exists e, validateConfig hw c = inl e) as [e He].
  { unfold validateConfig.
    destruct H as [H | [H | [Hp Hs]]].
    - apply hasInvalidChar_test in H as [-> ->]. simpl. eauto.
    - apply hasInvalidChar_test in H as [Ht Hr]. rewrite Ht, Hr. simpl.
      rewrite andb_false_r.
      destruct (Js.truthyStr (prefix c) && negb (testOpt (prefix c))); eauto.
    - rewrite Hp, Hs. simpl. eauto. }
  exists e. split; [exact He|].
  assert (Generator.new hw c = inl e) as Hn
    by (unfold Generator.new; now rewrite He).
  split; [exact Hn | now apply startSearch_error].
Qed.

Lemma invalid_pattern_rejected_witness :
  exists e,
    startSearch (Some 8)
      {| prefix := Some "0abc"%string; suffix := None; caseInsensitive := false;
         maxAttempts := None; threads := None; debug := None |}
      false 0 0 = inl e.
Proof.
  destruct (invalid_pattern_rejected (Some 8)
      {| prefix := Some "0abc"%string; suffix := None; caseInsensitive := false;
         maxAttempts := None; threads := None; debug := None |} false 0 0)
    as [(e & _ & _ & He) _].
  - left. exists "0abc"%string, "0"%char. simpl. auto.
  - exists e. exact He.
Defined.

(** The range test as the code has it: a non-zero thread count outside
    [1, 2 * maxThreads] is refused by the constructor with a configuration
    error, before any worker exists; a thread count of [0] does not reach
    the test and the constructor answers as it does without the field. *)
Theorem thread_count_out_of_range_rejected
  (hw : option Z) (c : VanityConfig) (t : Z) (cb : bool) (t0 t1 : Z) :
  threads c = Some t ->
  (t <> 0 -> t < 1 \/ t > 2 * maxThreads hw ->
   exists e, Generator.new hw c = inl e /\ startSearch hw c cb t0 t1 = inl e)
  /\ (t = 0 -> Generator.new hw c = Generator.new hw (withThreads c None)).
Proof.
  intros Ht. split.
  - intros Hnz Hout.
    assert (exists e, Generator.new hw c = inl e) as [e He].
    { unfold Generator.new, validateConfig. rewrite Ht.
      destruct (negb (Js.truthyStr (prefix c)) && negb (Js.truthyStr (suffix c)));
        [eauto|].
      destruct (Js.truthyStr (prefix c) && negb (testOpt (prefix c))); [eauto|].
      destruct (Js.truthyStr (suffix c) && negb (testOpt (suffix c))); [eauto|].
      replace (negb (t =? 0) && ((t <? 1) || (t >? maxThreads hw * 2))) with true;
        [eauto|].
      symmetry. apply andb_true_iff. split.
      - apply negb_true_iff, Z.eqb_neq, Hnz.
      - apply orb_true_iff. destruct Hout; [left; lia | right; lia]. }
    exists e. split; [exact He | now apply startSearch_error].
  - intros ->. unfold Generator.new, validateConfig, Generator.construct.
    rewrite Ht. simpl.
    destruct (negb (Js.truthyStr (prefix c)) && negb (Js.truthyStr (suffix c)));
      [reflexivity|].
    destruct (Js.truthyStr (prefix c) && negb (testOpt (prefix c))); [reflexivity|].
    destruct (Js.truthyStr (suffix c) && negb (testOpt (suffix c))); reflexivity.
Qed.

Lemma thread_count_out_of_range_rejected_witness :
  exists e,
    startSearch (Some 4)
      {| prefix := Some "abc"%string; suffix := None; caseInsensitive := false;
         maxAttempts := None; threads := Some 9; debug := None |}
      false 0 0 = inl e.
Proof.
  destruct (thread_count_out_of_range_rejected (Some 4)
      {| prefix := Some "abc"%string; suffix := None; caseInsensitive := false;
         maxAttempts := None; threads := Some 9; debug := None |} 9 false 0 0
      eq_refl) as [H _].
  destruct H as (e & _ & He).
  - lia.
  - right. vm_compute. reflexivity.
  - exists e. exact He.
Defined.

(** C4: the code misses the claim at [threads = 0].  With
    [hardwareConcurrency = 4] the constructor accepts the configuration and
    [generate()] starts four workers, although the range test [threads < 1]
    and its message ("between 1 and 8") refuse every count below 1: at the
    same configuration [-1] is refused.  The guard [config.threads &&],
    there for the absent field, lets [0] through. *)
Lemma zero_thread_count_accepted :
  (exists s,
     startSearch (Some 4)
       {| prefix := Some "abc"%string; suffix := None; caseInsensitive := false;
          maxAttempts := None; threads := Some 0; debug := None |}
       false 0 0 = inr s
     /\ length (pool s) = 4%nat
     /\ Generator.isRunning (coordinator s) = true)
  /\ startSearch (Some 4)
       {| prefix := Some "abc"%string; suffix := None; caseInsensitive := false;
          maxAttempts := None; threads := Some (-1); debug := None |}
       false 0 0 = inl (ThreadCountOutOfRange 8).
Proof.
  split; [|reflexivity]. eexists. split; [reflexivity|]. split; reflexivity.
Qed.

(** ** The pattern matcher *)

Lemma patternCheck_spec (c : VanityConfig) (test : string -> string -> bool)
  (R : string -> string -> Prop) (p : option string) (target : string) :
  (forall s q, test s q = true <-> R s q) ->
  (forall s, R s ""%string) ->
  patternCheck test p (targetOf (caseInsensitive c) p) target = true <->
  (forall q, p = Some q -> R target (caseFold c q)).
Proof.
  intros Htest Hnil. unfold patternCheck, targetOf, caseFold.
  destruct p as [[|a q]|]; simpl.
  - split; [|reflexivity]. intros _ q [= <-].
    destruct (caseInsensitive c); apply Hnil.
  - destruct (caseInsensitive c); simpl; rewrite Htest;
      (split; [intros H q' [= <-]; exact H | intros H; exact (H _ eq_refl)]).
  - split; [intros _ q [=] | reflexivity].
Qed.

Lemma matchesPattern_iff (c : VanityConfig) (address : string) :
  matchesPattern c address = true <->
  (forall p, prefix c = Some p -> StartsWith (caseFold c address) (caseFold c p))
  /\ (forall q, suffix c = Some q -> EndsWith (caseFold c address) (caseFold c q)).
Proof.
  unfold matchesPattern. rewrite andb_true_iff.
  rewrite (patternCheck_spec c Js.startsWith StartsWith);
    [|apply startsWith_spec | intros s; now exists s].
  rewrite (patternCheck_spec c Js.endsWith EndsWith);
    [|apply endsWith_spec|].
  - reflexivity.
  - intros s. exists s. clear. induction s; simpl; congruence.
Qed.

(** A success message is posted for the address as it was drawn, and only
    for an address that matches. *)
Lemma step_success (gen : nat -> Keypair) (w w' : VanityWorker.t)
  (out : list Msg.WorkerMessage) (m : Msg.WorkerMessage) :
  VanityWorker.step gen w = (w', out) -> In m out -> Msg.type m = Msg.success ->
  let kp := gen (VanityWorker.generated w) in
  m = Msg.successOf (publicKey_toBase58 kp) (secretKey kp)
        (VanityWorker.attempts w + VanityWorker.i w + 1)
  /\ matchesPattern (VanityWorker.config w) (publicKey_toBase58 kp) = true
  /\ VanityWorker.status w = VanityWorker.Searching
  /\ VanityWorker.i w < VanityWorker.reportInterval w
  /\ VanityWorker.status w' = VanityWorker.Succeeded
  /\ VanityWorker.generated w' = S (VanityWorker.generated w)
  /\ out = [m].
Proof.
  unfold VanityWorker.step. intros Hs Hin Hty.
  destruct (VanityWorker.status w); try (injection Hs as <- <-; destruct Hin).
  destruct (VanityWorker.i w <? VanityWorker.reportInterval w) eqn:Hi.
  - destruct (matchesPattern _ _) eqn:Hm; injection Hs as <- <-.
    + destruct Hin as [<-|[]]. repeat split; auto. lia.
    + destruct Hin.
  - injection Hs as <- <-. destruct Hin as [<-|[]]. discriminate.
Qed.

(** On a success message a running coordinator resolves with the address of
    the message, unchanged. *)
Lemma onmessage_success (now : Z) (e : Msg.WorkerMessage) (s : System) :
  Generator.isRunning (coordinator s) = true ->
  Msg.type e = Msg.success ->
  let g' := coordinator (onmessage now e s) in
  Generator.promise g' =
    Generator.settle (Generator.promise (coordinator s))
      (Generator.Resolved
         {| Generator.publicKey := Msg.address (Msg.data e);
            Generator.privateKey := Msg.privateKey (Msg.data e);
            Generator.attempts := Generator.totalAttempts (coordinator s);
            Generator.duration := now - Generator.startTime (coordinator s) |})
  /\ Generator.isRunning g' = false
  /\ Generator.workers g' = []
  /\ Generator.resolveCalls g' = S (Generator.resolveCalls (coordinator s))
  /\ Generator.totalAttempts g' = Generator.totalAttempts (coordinator s)
  /\ Generator.progressCalls g' = Generator.progressCalls (coordinator s).
Proof.
  intros Hrun Hty. unfold onmessage. rewrite Hrun, Hty. simpl. auto 10.
Qed.

(** C5: the matcher answers [true] exactly when the address, case-folded
    when [caseInsensitive] is set, starts with the prefix and ends with the
    suffix under the same folding, an absent pattern imposing nothing; a
    success message carries the address as drawn, which matches, and the
    coordinator resolves with that same address; with prefix [Ab] and
    [caseInsensitive] the first two characters of a matching address,
    lower-cased, are [ab]. *)
Theorem matchesPattern_spec (c : VanityConfig) (address : string) :
  (matchesPattern c address = true <->
   (forall p, prefix c = Some p -> StartsWith (caseFold c address) (caseFold c p))
   /\ (forall q, suffix c = Some q -> EndsWith (caseFold c address) (caseFold c q)))
  /\ (forall gen w w' out m,
        VanityWorker.step gen w = (w', out) -> In m out ->
        Msg.type m = Msg.success ->
        Msg.address (Msg.data m)
          = Some (publicKey_toBase58 (gen (VanityWorker.generated w)))
        /\ matchesPattern (VanityWorker.config w)
             (publicKey_toBase58 (gen (VanityWorker.generated w))) = true)
  /\ (forall now e s,
        Generator.isRunning (coordinator s) = true ->
        Generator.promise (coordinator s) = None ->
        Msg.type e = Msg.success ->
        exists r,
          Generator.promise (coordinator (onmessage now e s))
            = Some (Generator.Resolved r)
          /\ Generator.publicKey r = Msg.address (Msg.data e))
  /\ (prefix c = Some "Ab"%string -> caseInsensitive c = true ->
      matchesPattern c address = true ->
      Js.toLowerCase (substring 0 2 address) = "ab"%string).
Proof.
  split; [apply matchesPattern_iff|]. split; [|split].
  - intros gen w w' out m Hs Hin Hty.
    destruct (step_success gen w w' out m Hs Hin Hty) as (-> & Hm & _).
    split; [reflexivity | exact Hm].
  - intros now e s Hrun Hp Hty.
    destruct (onmessage_success now e s Hrun Hty) as (Hpr & _).
    rewrite Hp in Hpr. eexists. split; [exact Hpr | reflexivity].
  - intros Hp Hci Hm. apply matchesPattern_iff in Hm as [Hm _].
    destruct (Hm _ Hp) as [t Ht]. unfold caseFold in Ht. rewrite Hci in Ht.
    destruct address as [|a [|b rest]]; simpl in Ht; try discriminate.
    injection Ht as Ha Hb _. simpl. rewrite Ha, Hb.
    destruct rest; reflexivity.
Qed.

(** ** The search loop of one worker *)

Lemma run_add (gen : nat -> Keypair) (n m : nat) (w : VanityWorker.t) :
  VanityWorker.run gen (n + m) w =
  let '(w1, o1) := VanityWorker.run gen n w in
  let '(w2, o2) := VanityWorker.run gen m w1 in
  (w2, o1 ++ o2).
Proof.
  revert w. induction n as [|n IH]; intros w; simpl.
  - now destruct (VanityWorker.run gen m w).
  - destruct (VanityWorker.step gen w) as [w1 o1].
    rewrite IH. destruct (VanityWorker.run gen n w1) as [w2 o2].
    destruct (VanityWorker.run gen m w2) as [w3 o3].
    now rewrite app_assoc.
Qed.

(** Once [search()] has returned or thrown, nothing more happens. *)
Lemma run_stopped (gen : nat -> Keypair) (n : nat) (w : VanityWorker.t) :
  VanityWorker.status w <> VanityWorker.Searching ->
  VanityWorker.run gen n w = (w, []).
Proof.
  intros H. induction n as [|n IH]; simpl; [reflexivity|].
  unfold VanityWorker.step.
  destruct (VanityWorker.status w) eqn:E; try congruence; now rewrite IH.
Qed.

Lemma run_searching_before (gen : nat -> Keypair) (n k : nat) (w : VanityWorker.t) :
  VanityWorker.status (fst (VanityWorker.run gen n w)) = VanityWorker.Searching ->
  (k <= n)%nat ->
  VanityWorker.status (fst (VanityWorker.run gen k w)) = VanityWorker.Searching.
Proof.
  intros Hn Hk. replace n with (k + (n - k))%nat in Hn by lia.
  rewrite run_add in Hn.
  destruct (VanityWorker.run gen k w) as [w1 o1] eqn:E1. simpl.
  destruct (VanityWorker.status w1) eqn:Es; [reflexivity| |];
    rewrite run_stopped in Hn by congruence; simpl in Hn; congruence.
Qed.

(** Inside a batch: [n] misses move [i] and the ghost counter by [n] and post
    nothing. *)
Lemma run_misses (c : VanityConfig) (wid a : Z) (gen : nat -> Keypair) (n : nat) :
  forall (ii : Z) (g : nat),
    0 <= ii -> ii + Z.of_nat n <= 10000 -> noMatchIn c gen g n ->
    VanityWorker.run gen n (workerAt c wid a ii g VanityWorker.Searching)
    = (workerAt c wid a (ii + Z.of_nat n) (g + n) VanityWorker.Searching, []).
Proof.
  induction n as [|n IH]; intros ii g H0 Hle Hno.
  - cbn [VanityWorker.run]. change (Z.of_nat 0) with 0.
    rewrite Z.add_0_r, Nat.add_0_r. reflexivity.
  - cbn [VanityWorker.run]. unfold VanityWorker.step at 1. cbn -[Z.add Z.ltb].
    replace (ii <? 10000) with true by (symmetry; apply Z.ltb_lt; lia).
    rewrite (Hno g) by lia.
    change {| VanityWorker.config := c; VanityWorker.workerId := wid;
              VanityWorker.attempts := a; VanityWorker.reportInterval := 10000;
              VanityWorker.i := ii + 1; VanityWorker.generated := S g;
              VanityWorker.status := VanityWorker.Searching |}
      with (workerAt c wid a (ii + 1) (S g) VanityWorker.Searching).
    rewrite IH; [|lia|lia|intros k Hk; apply Hno; lia].
    replace (ii + 1 + Z.of_nat n) with (ii + Z.of_nat (S n)) by lia.
    replace (S g + n)%nat with (g + S n)%nat by lia.
    reflexivity.
Qed.

(** The end of a batch: the progress message, then the ceiling test. *)
Lemma step_boundary (c : VanityConfig) (wid a : Z) (gen : nat -> Keypair) (g : nat) :
  VanityWorker.step gen (workerAt c wid a 10000 g VanityWorker.Searching)
  = (workerAt c wid (a + 10000)
       (if VanityWorker.ceilingReached c (a + 10000) then 10000 else 0) g
       (if VanityWorker.ceilingReached c (a + 10000)
        then VanityWorker.Exhausted else VanityWorker.Searching),
     [Msg.progressOf 10000]).
Proof. reflexivity. Qed.

(** A whole batch without a match: 10000 draws and the boundary. *)
Lemma run_batch (c : VanityConfig) (wid a : Z) (gen : nat -> Keypair) (g : nat) :
  noMatchIn c gen g (Z.to_nat 10000) ->
  VanityWorker.run gen (Z.to_nat 10000 + 1)
    (workerAt c wid a 0 g VanityWorker.Searching)
  = (workerAt c wid (a + 10000)
       (if VanityWorker.ceilingReached c (a + 10000) then 10000 else 0)
       (g + Z.to_nat 10000)
       (if VanityWorker.ceilingReached c (a + 10000)
        then VanityWorker.Exhausted else VanityWorker.Searching),
     [Msg.progressOf 10000]).
Proof.
  intros Hno. rewrite run_add, run_misses; [|lia|lia|exact Hno].
  replace (0 + Z.of_nat (Z.to_nat 10000)) with 10000 by lia.
  cbn [VanityWorker.run]. rewrite step_boundary. reflexivity.
Qed.

(** [q] batches below the ceiling. *)
Lemma run_batches (c : VanityConfig) (wid : Z) (gen : nat -> Keypair) (q : nat) :
  noMatchIn c gen 0 (q * Z.to_nat 10000) ->
  (forall j, (1 <= j <= q)%nat ->
     VanityWorker.ceilingReached c (Z.of_nat j * 10000) = false) ->
  VanityWorker.run gen (q * (Z.to_nat 10000 + 1)) (VanityWorker.new c wid)
  = (workerAt c wid (Z.of_nat q * 10000) 0 (q * Z.to_nat 10000)
       VanityWorker.Searching,
     repeat (Msg.progressOf 10000) q).
Proof.
  induction q as [|q IH]; intros Hno Hc; [reflexivity|].
  replace (S q * (Z.to_nat 10000 + 1))%nat
    with (q * (Z.to_nat 10000 + 1) + (Z.to_nat 10000 + 1))%nat by lia.
  rewrite run_add, IH; [|intros k Hk; apply Hno; lia|intros j Hj; apply Hc; lia].
  rewrite run_batch; [|intros k Hk; apply Hno; lia].
  replace (Z.of_nat q * 10000 + 10000) with (Z.of_nat (S q) * 10000) by lia.
  rewrite Hc by lia.
  replace (q * Z.to_nat 10000 + Z.to_nat 10000)%nat with (S q * Z.to_nat 10000)%nat by lia.
  f_equal. rewrite <- repeat_cons. reflexivity.
Qed.

(** C9: with a positive ceiling [m] that is not a multiple of the batch size
    and no matching key pair on the way, the worker stops (throws) after
    exactly [n] draws, [n] the least multiple of 10000 that is at least [m];
    it is still searching at every earlier iteration, so the ceiling is only
    tested at the end of a batch, and [n] exceeds [m] by at most 9999. *)
Theorem ceiling_checked_at_batch_boundary
  (c : VanityConfig) (wid m : Z) (gen : nat -> Keypair) :
  maxAttempts c = Some m -> 0 < m -> m mod 10000 <> 0 ->
  let n := 10000 * (m / 10000 + 1) in
  noMatchIn c gen 0 (Z.to_nat n) ->
  (n mod 10000 = 0 /\ m <= n
   /\ forall n', n' mod 10000 = 0 -> m <= n' -> n <= n')
  /\ 0 < n - m <= 9999
  /\ exists steps,
       let w := fst (VanityWorker.run gen steps (VanityWorker.new c wid)) in
       VanityWorker.status w = VanityWorker.Exhausted
       /\ Z.of_nat (VanityWorker.generated w) = n
       /\ VanityWorker.attempts w = n
       /\ snd (VanityWorker.run gen steps (VanityWorker.new c wid))
          = repeat (Msg.progressOf 10000) (Z.to_nat (n / 10000))
       /\ forall k, (k < steps)%nat ->
            VanityWorker.status
              (fst (VanityWorker.run gen k (VanityWorker.new c wid)))
            = VanityWorker.Searching.
Proof.
  intros Hmax Hpos Hmod n Hno.
  assert (Hdiv : m = 10000 * (m / 10000) + m mod 10000) by (apply Z.div_mod; lia).
  assert (Hrem : 0 <= m mod 10000 < 10000) by (apply Z.mod_pos_bound; lia).
  assert (Hq : 0 <= m / 10000) by (apply Z.div_pos; lia).
  split; [|split].
  - split; [|split].
    + unfold n. rewrite Z.mul_comm. apply Z.mod_mul. lia.
    + unfold n. lia.
    + intros n' Hn' Hle.
      assert (n' = 10000 * (n' / 10000)) as Hn'd
        by (rewrite (Z.div_mod n' 10000) at 1; lia).
      assert (m / 10000 < n' / 10000); [|unfold n; lia].
      apply Z.lt_nge. intros Hge. lia.
  - unfold n. lia.
  - set (q := Z.to_nat (m / 10000)).
    assert (HqZ : Z.of_nat q = m / 10000) by (unfold q; lia).
    assert (Hn : Z.to_nat n = (q * Z.to_nat 10000 + Z.to_nat 10000)%nat)
      by (unfold n; lia).
    assert (Hbelow : forall j, (1 <= j <= q)%nat ->
              VanityWorker.ceilingReached c (Z.of_nat j * 10000) = false).
    { intros j Hj. unfold VanityWorker.ceilingReached. rewrite Hmax.
      apply andb_false_iff. right. rewrite Z.geb_leb. apply Z.leb_gt.
      assert (Z.of_nat j <= m / 10000) by lia. lia. }
    assert (Habove : VanityWorker.ceilingReached c (Z.of_nat q * 10000 + 10000) = true).
    { unfold VanityWorker.ceilingReached. rewrite Hmax.
      apply andb_true_iff. split.
      - apply negb_true_iff, Z.eqb_neq. lia.
      - rewrite Z.geb_leb. apply Z.leb_le. lia. }
    assert (Hno1 : noMatchIn c gen 0 (q * Z.to_nat 10000))
      by (intros k Hk; apply Hno; lia).
    assert (Hno2 : noMatchIn c gen (q * Z.to_nat 10000) (Z.to_nat 10000))
      by (intros k Hk; apply Hno; lia).
    exists (q * (Z.to_nat 10000 + 1) + (Z.to_nat 10000 + 1))%nat.
    rewrite run_add, (run_batches c wid gen q Hno1 Hbelow).
    rewrite (run_batch c wid _ gen _ Hno2), Habove.
    cbn [fst snd workerAt VanityWorker.status VanityWorker.generated
         VanityWorker.attempts].
    split; [reflexivity|]. split; [unfold n; lia|]. split; [unfold n; lia|].
    split.
    + replace (Z.to_nat (n / 10000)) with (q + 1)%nat.
      * now rewrite repeat_app.
      * unfold n. rewrite Z.mul_comm, Z.div_mul by lia. lia.
    + intros k Hk.
      apply (run_searching_before gen
               (q * (Z.to_nat 10000 + 1) + Z.to_nat 10000)); [|lia].
      rewrite run_add, (run_batches c wid gen q Hno1 Hbelow).
      rewrite run_misses; [reflexivity|lia|lia|exact Hno2].
Qed.

Lemma ceiling_checked_at_batch_boundary_witness :
  exists steps,
    let c := {| prefix := Some "zz"%string; suffix := None; caseInsensitive := false;
                maxAttempts := Some 15000; threads := Some 1; debug := None |} in
    let w := fst (VanityWorker.run (fun _ => {| publicKey_toBase58 := "1111"%string;
                                                secretKey := [] |})
                    steps (VanityWorker.new c 0)) in
    VanityWorker.status w = VanityWorker.Exhausted
    /\ Z.of_nat (VanityWorker.generated w) = 20000.
Proof.
  destruct (ceiling_checked_at_batch_boundary
      {| prefix := Some "zz"%string; suffix := None; caseInsensitive := false;
         maxAttempts := Some 15000; threads := Some 1; debug := None |}
      0 15000
      (fun _ => {| publicKey_toBase58 := "1111"%string; secretKey := [] |})
      eq_refl) as (_ & _ & steps & Hst & Hgen & _).
  - lia.
  - vm_compute. discriminate.
  - intros k _. reflexivity.
  - exists steps. split; [exact Hst | exact Hgen].
Defined.

(** ** The session: bookkeeping *)

Lemma sumDeltas_app (l1 l2 : list Msg.WorkerMessage) :
  sumDeltas (l1 ++ l2) = sumDeltas l1 + sumDeltas l2.
Proof. induction l1 as [|m l1 IH]; simpl; [reflexivity | rewrite IH; lia]. Qed.

Lemma sumDeltas_repeat (k : nat) :
  sumDeltas (repeat (Msg.progressOf 10000) k) = 10000 * Z.of_nat k.
Proof.
  induction k as [|k IH]; [reflexivity|].
  cbn [repeat sumDeltas foldr]. fold (sumDeltas (repeat (Msg.progressOf 10000) k)).
  rewrite IH. change (Msg.isProgress (Msg.progressOf 10000)) with true.
  change (Msg.attemptsOr0 (Msg.progressOf 10000)) with 10000. lia.
Qed.

Lemma received_insert (pl : list WorkerProc) (w : nat) (p p' : WorkerProc) :
  pl !! w = Some p ->
  received (<[w := p']> pl)
  = received pl - sumDeltas (delivered p) + sumDeltas (delivered p').
Proof.
  revert w. induction pl as [|x pl IH]; intros [|w] H; simpl in *; try discriminate.
  - injection H as ->. lia.
  - rewrite (IH w H). lia.
Qed.

Lemma received_alter (f : WorkerProc -> WorkerProc) (pl : list WorkerProc) (w : nat) :
  (forall p, delivered (f p) = delivered p) ->
  received (alter f w pl) = received pl.
Proof.
  intros Hf. revert w. induction pl as [|x pl IH]; intros [|w]; simpl in *; auto.
  - now rewrite Hf.
  - f_equal. apply IH.
Qed.

(** Terminating the workers of a list of handles without repetition. *)
Lemma lookup_foldl_terminate (hs : list nat) (pl : list WorkerProc) (j : nat) :
  foldl (fun pl h => alter terminate h pl) pl hs !! j
  = if decide (j ∈ hs) then terminate <$> pl !! j else pl !! j.
Proof.
  revert pl. induction hs as [|h hs IH]; intros pl; simpl.
  - reflexivity.
  - rewrite IH. destruct (decide (h = j)) as [->|Hne].
    + rewrite list_lookup_alter_eq.
      rewrite (decide_True (P := j ∈ j :: hs)) by (left).
      destruct (decide (j ∈ hs)); [|reflexivity].
      destruct (pl !! j); reflexivity.
    + rewrite list_lookup_alter_ne by exact Hne.
      destruct (decide (j ∈ hs)) as [Hin|Hnin].
      * rewrite decide_True by (now right). reflexivity.
      * rewrite decide_False; [reflexivity|].
        intros Hin. apply elem_of_cons in Hin as [->|Hin]; auto.
Qed.

Lemma stopWorkers_all (s : System) :
  Generator.workers (coordinator s) = seq 0 (length (pool s)) ->
  pool (stopWorkers s) = terminate <$> pool s.
Proof.
  intros Hw. unfold stopWorkers. cbn [pool]. rewrite Hw.
  apply list_eq. intros j. rewrite lookup_foldl_terminate, list_lookup_fmap.
  destruct (decide (j ∈ seq 0 (length (pool s)))) as [Hin|Hnin]; [reflexivity|].
  rewrite elem_of_seq in Hnin.
  rewrite (lookup_ge_None_2 (pool s) j) by lia. reflexivity.
Qed.

Lemma stopWorkers_none (s : System) :
  Generator.workers (coordinator s) = [] -> pool (stopWorkers s) = pool s.
Proof. intros Hw. unfold stopWorkers. cbn [pool]. now rewrite Hw. Qed.

(** [stopWorkers] twice is [stopWorkers] once. *)
Lemma stopWorkers_idempotent (s : System) :
  stopWorkers (stopWorkers s) = stopWorkers s.
Proof. reflexivity. Qed.

(** ** The session: invariants *)

Lemma procInv_workerStep (gen : nat -> Keypair) (p : WorkerProc) :
  procInv p -> procInv (workerStep gen p).
Proof.
  destruct p as [[c wid a ri ii g st] tm ob dl].
  unfold workerStep, procInv, history, VanityWorker.step. cbn -[Z.mul Z.add Z.ltb].
  intros (-> & k & -> & H).
  destruct tm; [cbn -[Z.mul Z.add]; split; [reflexivity|]; exists k; split;
                [reflexivity|exact H]|].
  destruct st; cbn -[Z.mul Z.add Z.ltb];
    [|rewrite app_nil_r; split; [reflexivity|]; exists k; split;
      [reflexivity|exact H]..].
  destruct H as (Hh & Hi & Hg).
  destruct (ii <? 10000) eqn:Hlt.
  - apply Z.ltb_lt in Hlt.
    destruct (matchesPattern c _); cbn -[Z.mul Z.add].
    + split; [reflexivity|]. exists k. split; [reflexivity|]. split.
      * eexists _, _. rewrite app_assoc, Hh. do 3 f_equal. lia.
      * lia.
    + split; [reflexivity|]. exists k. split; [reflexivity|].
      rewrite app_nil_r. split; [exact Hh|]. lia.
  - apply Z.ltb_ge in Hlt.
    assert (dl ++ ob ++ [Msg.progressOf 10000] = repeat (Msg.progressOf 10000) (S k)) as Hh'.
    { rewrite app_assoc, Hh. symmetry. apply repeat_cons. }
    destruct (VanityWorker.ceilingReached c (10000 * Z.of_nat k + 10000));
      cbn -[Z.mul Z.add Z.of_nat repeat];
      (split; [reflexivity|]); exists (S k);
      (split; [lia|]); (split; [exact Hh'|]); lia.
Qed.

(** A message that a worker has posted is a progress message of 10000 or a
    success message. *)
Lemma procInv_message (p : WorkerProc) (e : Msg.WorkerMessage) :
  procInv p -> In e (history p) ->
  e = Msg.progressOf 10000
  \/ (Msg.type e = Msg.success
      /\ VanityWorker.status (script p) = VanityWorker.Succeeded
      /\ exists a key,
           e = Msg.successOf a key (Z.of_nat (VanityWorker.generated (script p)))).
Proof.
  intros (_ & k & _ & H) Hin.
  destruct (VanityWorker.status (script p)).
  - destruct H as (Hh & _). rewrite Hh in Hin. left.
    now apply repeat_spec in Hin.
  - destruct H as ((a & key & Hh) & _). rewrite Hh in Hin.
    apply in_app_or in Hin as [Hin|[<-|[]]].
    + left. now apply repeat_spec in Hin.
    + right. split; [reflexivity|]. split; [reflexivity|]. eauto.
  - destruct H as (Hh & _). rewrite Hh in Hin. left.
    now apply repeat_spec in Hin.
Qed.

(** Handling the oldest pending message of a worker keeps its history. *)
Lemma procInv_deliver (p : WorkerProc) (e : Msg.WorkerMessage)
  (rest : list Msg.WorkerMessage) :
  outbox p = e :: rest -> procInv p ->
  procInv {| script := script p; terminated := terminated p;
             outbox := rest; delivered := delivered p ++ [e] |}.
Proof.
  intros Ho H. unfold procInv, history in *. cbn [script outbox delivered].
  rewrite Ho in H. rewrite <- app_assoc. exact H.
Qed.

Lemma workerStep_delivered (gen : nat -> Keypair) (p : WorkerProc) :
  delivered (workerStep gen p) = delivered p.
Proof.
  unfold workerStep. destruct (terminated p); [reflexivity|].
  now destruct (VanityWorker.step gen (script p)).
Qed.

Lemma workerStep_terminated (gen : nat -> Keypair) (p : WorkerProc) :
  terminated (workerStep gen p) = terminated p.
Proof.
  unfold workerStep. destruct (terminated p) eqn:E; [exact E|].
  now destruct (VanityWorker.step gen (script p)).
Qed.

(** The progress closure, while the coordinator runs: the delta is added
    whatever the clock says; the clock only decides on the notification. *)
Lemma onProgressDelta_running (now delta : Z) (g : Generator.t) :
  Generator.isRunning g = true ->
  let g' := Generator.onProgressDelta now delta g in
  Generator.totalAttempts g' = Generator.totalAttempts g + delta
  /\ Generator.isRunning g' = true
  /\ Generator.promise g' = Generator.promise g
  /\ Generator.workers g' = Generator.workers g
  /\ Generator.resolveCalls g' = Generator.resolveCalls g
  /\ Generator.startTime g' = Generator.startTime g.
Proof.
  intros Hrun. unfold Generator.onProgressDelta. rewrite Hrun. simpl.
  destruct (now - Generator.lastProgressUpdate g >=? 1000); simpl; auto 10.
Qed.

Lemma sessionInv_workerStep (gens : nat -> nat -> Keypair) (w : nat) (s : System) :
  sessionInv s -> sessionInv (sysStep gens (WorkerStep w) s).
Proof.
  intros [Hp Hc]. split; cbn [sysStep pool coordinator].
  - apply Forall_alter; [exact Hp|].
    intros p _ Hpi. now apply procInv_workerStep.
  - unfold coordInv in *. cbn [coordinator pool].
    destruct (Generator.isRunning (coordinator s)).
    + destruct Hc as (H1 & H2 & H3 & H4). rewrite length_alter.
      rewrite received_alter by apply workerStep_delivered. auto.
    + destruct Hc as (H1 & H2 & H3). split; [exact H1|]. split; [|exact H3].
      apply Forall_alter; [exact H2|].
      intros p _ Ht. now rewrite workerStep_terminated.
Qed.

Lemma sessionInv_onerror (w : nat) (s : System) :
  sessionInv s -> sessionInv (onerror w s).
Proof.
  intros [Hp Hc]. unfold coordInv in Hc.
  destruct (Generator.isRunning (coordinator s)) eqn:Hrun.
  - destruct Hc as (H1 & H2 & H3 & H4).
    split; unfold onerror, withCoordinator; cbn [pool coordinator].
    + rewrite stopWorkers_all by exact H3. apply Forall_fmap.
      eapply Forall_impl; [exact Hp|]. intros p Hpi. exact Hpi.
    + unfold coordInv. cbn. split; [reflexivity|].
      split; [|rewrite H2; lia].
      change (foldl _ _ _) with (pool (stopWorkers s)).
      rewrite stopWorkers_all by exact H3. apply Forall_fmap.
      apply Forall_forall. reflexivity.
  - destruct Hc as (H1 & H2 & H3).
    split; unfold onerror, withCoordinator; cbn [pool coordinator].
    + rewrite stopWorkers_none by exact H1. exact Hp.
    + unfold coordInv. cbn. split; [reflexivity|]. split; [|exact H3].
      change (foldl _ _ _) with (pool (stopWorkers s)).
      rewrite stopWorkers_none by exact H1. exact H2.
Qed.

Lemma sessionInv_deliver (gens : nat -> nat -> Keypair) (w : nat) (now : Z) (s : System) :
  sessionInv s -> sessionInv (sysStep gens (Deliver w now) s).
Proof.
  intros [Hp Hc]. cbn [sysStep].
  destruct (pool s !! w) as [p|] eqn:Hw; [|now split].
  destruct (outbox p) as [|e rest] eqn:Ho; [now split|].
  set (p' := {| script := script p; terminated := terminated p;
                outbox := rest; delivered := delivered p ++ [e] |}).
  assert (Hpi : procInv p) by (eapply Forall_lookup_1; eauto).
  assert (Hp' : Forall procInv (<[w := p']> (pool s)))
    by (apply Forall_insert; [exact Hp | now apply procInv_deliver]).
  assert (He : In e (history p))
    by (unfold history; rewrite Ho; apply in_or_app; right; now left).
  unfold onmessage. cbn [coordinator pool]. unfold coordInv in Hc.
  destruct (Generator.isRunning (coordinator s)) eqn:Hrun; cbn [negb].
  - destruct Hc as (H1 & H2 & H3 & H4).
    destruct (procInv_message p e Hpi He) as [->|(Hty & _)].
    + (* a progress delta *)
      change (Msg.type (Msg.progressOf 10000)) with Msg.progress. cbv iota.
      destruct (onProgressDelta_running now (Msg.attemptsOr0 (Msg.progressOf 10000))
                  (coordinator s) Hrun) as (G1 & G2 & G3 & G4 & G5 & _).
      split; [exact Hp'|]. unfold coordInv, withCoordinator. cbn [coordinator pool].
      rewrite G2, G3, G4, G5, G1, length_insert.
      rewrite (received_insert _ _ p p' Hw). unfold p' at 1. cbn [delivered].
      rewrite sumDeltas_app, H4. repeat split; auto.
      change (sumDeltas [Msg.progressOf 10000]) with 10000.
      change (Msg.attemptsOr0 (Msg.progressOf 10000)) with 10000. lia.
    + (* the success message *)
      rewrite Hty.
      set (s1 := {| coordinator := coordinator s; pool := <[w := p']> (pool s) |}).
      assert (Hall : pool (stopWorkers s1) = terminate <$> pool s1).
      { apply stopWorkers_all. unfold s1. cbn [coordinator pool].
        now rewrite length_insert. }
      split.
      * unfold withCoordinator. cbn [pool]. rewrite Hall. apply Forall_fmap.
        eapply Forall_impl; [exact Hp'|]. intros q Hq. exact Hq.
      * unfold coordInv, withCoordinator, resolveWith. cbn [coordinator pool].
        cbn [Generator.isRunning stopWorkers coordinator Generator.workers
             Generator.resolveCalls].
        split; [reflexivity|]. split; [|unfold s1; cbn; rewrite H2; lia].
        change (foldl _ _ _) with (pool (stopWorkers s1)).
        rewrite Hall. apply Forall_fmap, Forall_forall. reflexivity.
  - destruct Hc as (H1 & H2 & H3). split; [exact Hp'|].
    unfold coordInv. cbn [coordinator pool]. rewrite Hrun.
    split; [exact H1|]. split; [|exact H3].
    apply Forall_insert; [exact H2|]. unfold p'. cbn.
    eapply (Forall_lookup_1 _ _ _ _ H2 Hw).
Qed.

Lemma sessionInv_step (gens : nat -> nat -> Keypair) (a : Action) (s : System) :
  sessionInv s -> sessionInv (sysStep gens a s).
Proof.
  destruct a as [w|w now|w].
  - apply sessionInv_workerStep.
  - apply sessionInv_deliver.
  - intros H. cbn [sysStep]. destruct (pool s !! w); [|exact H].
    now apply sessionInv_onerror.
Qed.

Lemma sessionInv_run (gens : nat -> nat -> Keypair) (acts : list Action) (s : System) :
  sessionInv s -> sessionInv (runSys gens acts s).
Proof.
  revert s. induction acts as [|a acts IH]; intros s H; [exact H|].
  apply IH, sessionInv_step, H.
Qed.

(** The state that [generate()] builds satisfies the invariants. *)
Lemma sessionInv_session (hw : option Z) (c : VanityConfig) (cb : bool) (t0 t1 : Z) :
  sessionInv (session hw c cb t0 t1).
Proof.
  unfold session, generate.
  assert (Hcfg : forall b : bool,
            Generator.config (if b then Generator.setProgressCallback
                                           (Generator.construct hw c)
                              else Generator.construct hw c)
            = Generator.config (Generator.construct hw c)) by (now intros []).
  assert (Hwk : forall b : bool,
            Generator.workers (if b then Generator.setProgressCallback
                                            (Generator.construct hw c)
                               else Generator.construct hw c) = [])
    by (now intros []).
  rewrite Hcfg, Hwk. cbn [Generator.construct Generator.config threads].
  set (n := Z.to_nat (Js.orNum (threads c) (maxThreads hw))).
  split; cbn [pool coordinator].
  - apply Forall_fmap, Forall_forall. intros i _.
    split; [reflexivity|]. exists O. cbn. split; [reflexivity|].
    split; [reflexivity|]. lia.
  - unfold coordInv. cbn [coordinator pool Generator.isRunning Generator.promise
      Generator.resolveCalls Generator.workers Generator.totalAttempts].
    rewrite length_fmap, length_seq. repeat split.
    generalize (seq 0 n). intros l. induction l as [|x l IH]; [reflexivity|].
    cbn in *. exact IH.
Qed.

(** ** The coordinator's aggregate *)

Lemma onmessage_stopped (now : Z) (e : Msg.WorkerMessage) (s : System) :
  Generator.isRunning (coordinator s) = false -> onmessage now e s = s.
Proof. intros H. unfold onmessage. now rewrite H. Qed.

(** The notification log grows by at most one entry per delta, and only when
    a second has passed since [lastProgressUpdate], which then moves to [now]. *)
Lemma onProgressDelta_throttle (now delta : Z) (g : Generator.t) :
  let g' := Generator.onProgressDelta now delta g in
  Generator.progressCalls g' = Generator.progressCalls g
  \/ (exists info, Generator.progressCalls g' = info :: Generator.progressCalls g
                   /\ Generator.p_attempts info = Generator.totalAttempts g'
                   /\ 1000 <= now - Generator.lastProgressUpdate g
                   /\ Generator.lastProgressUpdate g' = now).
Proof.
  unfold Generator.onProgressDelta.
  destruct (Generator.isRunning g); simpl; [|now left].
  destruct (now - Generator.lastProgressUpdate g >=? 1000) eqn:E; simpl; [|now left].
  destruct (Generator.onProgress g); [|now left].
  right. eexists. split; [reflexivity|]. simpl.
  rewrite Z.geb_leb in E. apply Z.leb_le in E. auto.
Qed.

(** One action never lowers [totalAttempts]. *)
Lemma totalAttempts_step (gens : nat -> nat -> Keypair) (a : Action) (s : System) :
  sessionInv s ->
  Generator.totalAttempts (coordinator s)
  <= Generator.totalAttempts (coordinator (sysStep gens a s)).
Proof.
  intros [Hp Hc]. destruct a as [w|w now|w]; cbn [sysStep coordinator].
  - lia.
  - destruct (pool s !! w) as [p|] eqn:Hw; [|lia].
    destruct (outbox p) as [|e rest] eqn:Ho; [lia|].
    unfold onmessage. cbn [coordinator].
    destruct (Generator.isRunning (coordinator s)) eqn:Hrun; cbn [negb]; [|simpl; lia].
    assert (He : In e (history p))
      by (unfold history; rewrite Ho; apply in_or_app; right; now left).
    destruct (procInv_message p e (Forall_lookup_1 _ _ _ _ Hp Hw) He)
      as [->|(Hty & _)].
    + change (Msg.type (Msg.progressOf 10000)) with Msg.progress. cbv iota.
      cbn [withCoordinator coordinator].
      destruct (onProgressDelta_running now (Msg.attemptsOr0 (Msg.progressOf 10000))
                  (coordinator s) Hrun) as (G1 & _).
      rewrite G1. change (Msg.attemptsOr0 (Msg.progressOf 10000)) with 10000. lia.
    + rewrite Hty. simpl. lia.
  - destruct (pool s !! w); simpl; lia.
Qed.

(** The deltas handled, read from the messages themselves: each is a batch
    of 10000. *)
Lemma delivered_batches (p : WorkerProc) :
  procInv p ->
  sumDeltas (delivered p)
  = foldr (fun m acc' => batchAttempts m + acc') 0 (delivered p)
  /\ sumDeltas (delivered p)
     = 10000 * Z.of_nat (length (List.filter Msg.isProgress (delivered p))).
Proof.
  intros Hp.
  assert (H : forall e, In e (delivered p) ->
                e = Msg.progressOf 10000 \/ Msg.type e = Msg.success).
  { intros e He.
    destruct (procInv_message p e Hp) as [->|(Hty & _)]; [|now left|now right].
    unfold history. apply in_or_app. now left. }
  revert H. generalize (delivered p). clear Hp.
  induction l as [|e l IH]; intros H; [split; reflexivity|].
  destruct IH as [I1 I2]; [intros e' He'; apply H; now right|].
  change (sumDeltas (e :: l))
    with ((if Msg.isProgress e then Msg.attemptsOr0 e else 0) + sumDeltas l).
  cbn [foldr List.filter]. rewrite <- I1.
  destruct (H e (or_introl eq_refl)) as [->|Hty].
  - change (Msg.isProgress (Msg.progressOf 10000)) with true. cbv iota.
    change (Msg.attemptsOr0 (Msg.progressOf 10000)) with 10000.
    change (batchAttempts (Msg.progressOf 10000)) with 10000.
    split; [reflexivity|]. cbn [length]. lia.
  - assert (Hn : Msg.isProgress e = false) by (unfold Msg.isProgress; now rewrite Hty).
    assert (Hb : batchAttempts e = 0) by (unfold batchAttempts; now rewrite Hty).
    rewrite Hn, Hb. split; [reflexivity|]. lia.
Qed.

Lemma received_batches (pl : list WorkerProc) :
  Forall procInv pl ->
  received pl = handledAttempts pl
  /\ received pl = 10000 * Z.of_nat (handledDeltas pl).
Proof.
  induction 1 as [|p pl Hp _ [I1 I2]]; [split; reflexivity|].
  destruct (delivered_batches p Hp) as [D1 D2].
  cbn [received handledAttempts handledDeltas foldr].
  fold (received pl) (handledAttempts pl) (handledDeltas pl).
  split; [rewrite <- D1; lia | lia].
Qed.

(** C7: in a session [totalAttempts] starts at 0 and no action ever lowers
    it; every progress delta handled while the session runs carries the
    10000 attempts of one batch in its [attempts] field and is added to
    [totalAttempts] in full, whatever the clock reads, so that the throttle
    of one notification per second (the log grows only when a second has
    passed) drops nothing: while the session runs [totalAttempts] is the sum
    of the [attempts] fields of the deltas handled, 10000 for each. *)
Theorem totalAttempts_monotone
  (gens : nat -> nat -> Keypair) (hw : option Z) (c : VanityConfig) (cb : bool)
  (t0 t1 : Z) (acts : list Action) (a : Action) :
  let s0 := session hw c cb t0 t1 in
  let s := runSys gens acts s0 in
  let s' := sysStep gens a s in
  Generator.totalAttempts (coordinator s0) = 0
  /\ Generator.totalAttempts (coordinator s) <= Generator.totalAttempts (coordinator s')
  /\ (forall w now p e rest,
        a = Deliver w now -> pool s !! w = Some p -> outbox p = e :: rest ->
        Msg.type e = Msg.progress ->
        Generator.isRunning (coordinator s) = true ->
        Msg.attempts (Msg.data e) = Some 10000
        /\ Generator.totalAttempts (coordinator s')
           = Generator.totalAttempts (coordinator s) + 10000
        /\ Generator.totalAttempts (coordinator s')
           = Generator.totalAttempts (coordinator s) + Msg.attemptsOr0 e
        /\ (Generator.progressCalls (coordinator s')
            = Generator.progressCalls (coordinator s)
            \/ 1000 <= now - Generator.lastProgressUpdate (coordinator s)))
  /\ (Generator.isRunning (coordinator s) = true ->
      Generator.totalAttempts (coordinator s) = received (pool s)
      /\ Generator.totalAttempts (coordinator s) = handledAttempts (pool s)
      /\ Generator.totalAttempts (coordinator s)
         = 10000 * Z.of_nat (handledDeltas (pool s))).
Proof.
  intros s0 s s'.
  assert (Hinv : sessionInv s) by apply sessionInv_run, sessionInv_session.
  split; [reflexivity|]. split; [now apply totalAttempts_step|]. split.
  - intros w now p e rest -> Hw Ho Hty Hrun.
    assert (He : e = Msg.progressOf 10000).
    { destruct Hinv as [Hp _].
      destruct (procInv_message p e (Forall_lookup_1 _ _ _ _ Hp Hw))
        as [->|(Hs & _)]; [|reflexivity|congruence].
      unfold history. rewrite Ho. apply in_or_app. right. now left. }
    assert (Hstep : Generator.totalAttempts (coordinator s')
                    = Generator.totalAttempts (coordinator s) + Msg.attemptsOr0 e).
    { unfold s'. cbn [sysStep]. rewrite Hw, Ho. unfold onmessage.
      cbn [coordinator]. rewrite Hrun, Hty. cbn [negb withCoordinator coordinator].
      now destruct (onProgressDelta_running now (Msg.attemptsOr0 e) (coordinator s) Hrun)
        as (G1 & _). }
    split; [now rewrite He|]. split; [rewrite Hstep, He; reflexivity|].
    split; [exact Hstep|].
    unfold s'. cbn [sysStep]. rewrite Hw, Ho. unfold onmessage.
    cbn [coordinator]. rewrite Hrun, Hty. cbn [negb withCoordinator coordinator].
    destruct (onProgressDelta_throttle now (Msg.attemptsOr0 e) (coordinator s))
      as [H|(info & _ & _ & H & _)]; [now left | now right].
  - intros Hrun. destruct Hinv as [Hp Hc]. unfold coordInv in Hc.
    rewrite Hrun in Hc. destruct Hc as (_ & _ & _ & Hrec).
    destruct (received_batches (pool s) Hp) as [R1 R2].
    split; [exact Hrec|]. split; congruence.
Qed.

(** ** After the coordinator has stopped *)

Lemma stopWorkers_coordinator (s : System) :
  Generator.isRunning (coordinator s) = false ->
  Generator.workers (coordinator s) = [] ->
  stopWorkers s = s.
Proof.
  destruct s as [g pl]. destruct g. unfold stopWorkers. simpl.
  intros -> ->. reflexivity.
Qed.

Lemma workerStep_terminated_id (gen : nat -> Keypair) (p : WorkerProc) :
  terminated p = true -> workerStep gen p = p.
Proof. intros H. unfold workerStep. now rewrite H. Qed.

Lemma stopped_step (gens : nat -> nat -> Keypair) (a : Action) (s : System) :
  stopped s ->
  let s' := sysStep gens a s in
  stopped s'
  /\ workersFrozen s s'
  /\ Generator.totalAttempts (coordinator s') = Generator.totalAttempts (coordinator s)
  /\ Generator.progressCalls (coordinator s') = Generator.progressCalls (coordinator s)
  /\ Generator.resolveCalls (coordinator s') = Generator.resolveCalls (coordinator s)
  /\ (Generator.promise (coordinator s) <> None
      \/ match a with WorkerError _ => False | _ => True end ->
      coordinator s' = coordinator s).
Proof.
  intros (Hrun & Hwk & Hterm). destruct a as [w|w now|w]; cbn [sysStep].
  - (* a terminated worker does not run *)
    split; [|split]; [| |auto].
    + repeat split; auto. cbn [pool]. apply Forall_alter; [exact Hterm|].
      intros p _ Ht. now rewrite workerStep_terminated.
    + intros j p Hj. cbn [pool]. rewrite list_lookup_alter.
      destruct (decide (w = j)) as [->|]; [|eauto].
      rewrite Hj. cbn. exists (workerStep (gens j) p). split; [reflexivity|].
      rewrite workerStep_terminated_id; [auto|].
      exact (Forall_lookup_1 _ _ _ _ Hterm Hj).
  - (* a message handled after the stop is dropped *)
    destruct (pool s !! w) as [q|] eqn:Hw;
      [|split; [repeat split; auto|split; [intros j p Hj; eauto|auto]]].
    destruct (outbox q) as [|e rest] eqn:Ho;
      [split; [repeat split; auto|split; [intros j p Hj; eauto|auto]]|].
    rewrite onmessage_stopped by exact Hrun. cbn [coordinator pool].
    split; [|split]; [| |auto].
    + repeat split; auto. cbn [pool]. apply Forall_insert; [exact Hterm|].
      exact (Forall_lookup_1 _ _ _ _ Hterm Hw).
    + intros j p Hj. cbn [pool]. destruct (decide (w = j)) as [->|Hne].
      * rewrite list_lookup_insert_eq by (eapply lookup_lt_Some; eauto).
        eexists. split; [reflexivity|]. cbn [script].
        assert (q = p) as -> by congruence.
        split; [reflexivity|]. unfold history. cbn [delivered outbox].
        now rewrite Ho, <- app_assoc.
      * rewrite list_lookup_insert_ne by exact Hne. eauto.
  - (* an error handled after the stop: [reject] on a settled promise *)
    destruct (pool s !! w) as [q|] eqn:Hw;
      [|split; [repeat split; auto|split; [intros j p Hj; eauto|auto]]].
    unfold onerror. rewrite (stopWorkers_coordinator s Hrun Hwk).
    cbn [withCoordinator coordinator pool].
    split; [repeat split; auto|]. split; [intros j p Hj; eauto|].
    split; [reflexivity|]. split; [reflexivity|]. split; [reflexivity|].
    intros [Hp|[]]. unfold rejectWith. destruct (coordinator s). simpl in *.
    destruct promise; [reflexivity|congruence].
Qed.

Lemma workersFrozen_trans (s1 s2 s3 : System) :
  workersFrozen s1 s2 -> workersFrozen s2 s3 -> workersFrozen s1 s3.
Proof.
  intros H12 H23 w p Hw.
  destruct (H12 w p Hw) as (p2 & Hw2 & Hs2 & Hh2).
  destruct (H23 w p2 Hw2) as (p3 & Hw3 & Hs3 & Hh3).
  exists p3. split; [exact Hw3|]. split; congruence.
Qed.

Lemma stopped_run (gens : nat -> nat -> Keypair) (acts : list Action) (s : System) :
  stopped s ->
  let s' := runSys gens acts s in
  stopped s'
  /\ workersFrozen s s'
  /\ Generator.totalAttempts (coordinator s') = Generator.totalAttempts (coordinator s)
  /\ Generator.progressCalls (coordinator s') = Generator.progressCalls (coordinator s)
  /\ Generator.resolveCalls (coordinator s') = Generator.resolveCalls (coordinator s)
  /\ (Generator.promise (coordinator s) <> None \/ noHostError acts ->
      coordinator s' = coordinator s).
Proof.
  revert s. induction acts as [|a acts IH]; intros s Hs.
  - cbn. split; [exact Hs|]. split; [intros w p Hw; eauto|]. auto.
  - pose proof (stopped_step gens a s Hs) as H. cbv zeta in H.
    destruct H as (H1 & H2 & H3 & H4 & H5 & H6).
    pose proof (IH _ H1) as I. cbv zeta in I.
    destruct I as (I1 & I2 & I3 & I4 & I5 & I6).
    change (runSys gens (a :: acts) s) with (runSys gens acts (sysStep gens a s)).
    cbv zeta. split; [exact I1|].
    split; [eapply workersFrozen_trans; eauto|].
    split; [congruence|]. split; [congruence|]. split; [congruence|].
    intros Hq.
    assert (coordinator (sysStep gens a s) = coordinator s) as E.
    { apply H6. destruct Hq as [Hq|Hq]; [now left|right].
      now apply Forall_cons in Hq as [Hq _]. }
    rewrite I6; [exact E|]. rewrite E.
    destruct Hq as [Hq|Hq]; [now left|right].
    now apply Forall_cons in Hq as [_ Hq].
Qed.

(** [stopWorkers] at any point of a session leaves it stopped. *)
Lemma stopWorkers_stopped (s : System) :
  sessionInv s -> stopped (stopWorkers s).
Proof.
  intros [_ Hc]. unfold coordInv in Hc.
  split; [reflexivity|]. split; [reflexivity|].
  destruct (Generator.isRunning (coordinator s)).
  - destruct Hc as (_ & _ & Hw & _). rewrite stopWorkers_all by exact Hw.
    apply Forall_fmap, Forall_forall. reflexivity.
  - destruct Hc as (Hw & Ht & _). now rewrite stopWorkers_none.
Qed.

(** ** Race resolution and cancellation *)

(** Handling a success message while the session runs. *)
Lemma deliver_success_running
  (gens : nat -> nat -> Keypair) (s : System) (w : nat) (now : Z)
  (p : WorkerProc) (e : Msg.WorkerMessage) (rest : list Msg.WorkerMessage) :
  sessionInv s ->
  pool s !! w = Some p -> outbox p = e :: rest ->
  Msg.type e = Msg.success ->
  Generator.isRunning (coordinator s) = true ->
  let s' := sysStep gens (Deliver w now) s in
  Generator.promise (coordinator s')
  = Some (Generator.Resolved
            {| Generator.publicKey := Msg.address (Msg.data e);
               Generator.privateKey := Msg.privateKey (Msg.data e);
               Generator.attempts := Generator.totalAttempts (coordinator s);
               Generator.duration := now - Generator.startTime (coordinator s) |})
  /\ Generator.resolveCalls (coordinator s') = 1%nat
  /\ stopped s'.
Proof.
  intros Hinv Hw Ho Hty Hrun s'.
  assert (Hinv' : sessionInv s') by now apply sessionInv_step.
  destruct Hinv as [_ Hc]. unfold coordInv in Hc. rewrite Hrun in Hc.
  destruct Hc as (Hprom & Hres & _).
  assert (Hs' : s' = onmessage now e
            {| coordinator := coordinator s;
               pool := <[w := {| script := script p; terminated := terminated p;
                                 outbox := rest; delivered := delivered p ++ [e] |}]>
                         (pool s) |})
    by (unfold s'; cbn [sysStep]; now rewrite Hw, Ho).
  pose proof (onmessage_success now e
                {| coordinator := coordinator s;
                   pool := <[w := {| script := script p; terminated := terminated p;
                                     outbox := rest; delivered := delivered p ++ [e] |}]>
                             (pool s) |} Hrun Hty) as H.
  cbv zeta in H. rewrite <- Hs' in H. cbn [coordinator] in H.
  destruct H as (G1 & G2 & G3 & G4 & _). rewrite Hprom in G1.
  split; [exact G1|]. split; [now rewrite G4, Hres|].
  destruct Hinv' as [_ Hc']. unfold coordInv in Hc'. rewrite G2 in Hc'.
  split; [exact G2|]. tauto.
Qed.

(** C8: in a session [resolve] is called at most once; a success message
    handled while the session runs resolves [generate()] with its address and
    key, stops the coordinator and terminates every worker, and from then on
    no action changes the coordinator: later messages, success reports
    included, are dropped without any rejection. *)
Theorem first_success_wins
  (gens : nat -> nat -> Keypair) (hw : option Z) (c : VanityConfig) (cb : bool)
  (t0 t1 : Z) (acts : list Action) :
  let s := runSys gens acts (session hw c cb t0 t1) in
  (Generator.resolveCalls (coordinator s) <= 1)%nat
  /\ (forall w now p e rest,
        pool s !! w = Some p -> outbox p = e :: rest ->
        Msg.type e = Msg.success ->
        Generator.isRunning (coordinator s) = true ->
        let s' := sysStep gens (Deliver w now) s in
        Generator.promise (coordinator s')
        = Some (Generator.Resolved
                  {| Generator.publicKey := Msg.address (Msg.data e);
                     Generator.privateKey := Msg.privateKey (Msg.data e);
                     Generator.attempts := Generator.totalAttempts (coordinator s);
                     Generator.duration := now - Generator.startTime (coordinator s) |})
        /\ Generator.resolveCalls (coordinator s') = 1%nat
        /\ stopped s'
        /\ forall acts', coordinator (runSys gens acts' s') = coordinator s')
  /\ (Generator.isRunning (coordinator s) = false ->
      forall w now, coordinator (sysStep gens (Deliver w now) s) = coordinator s).
Proof.
  intros s.
  assert (Hinv : sessionInv s) by apply sessionInv_run, sessionInv_session.
  split; [|split].
  - destruct Hinv as [_ Hc]. unfold coordInv in Hc.
    destruct (Generator.isRunning (coordinator s)); [|tauto].
    destruct Hc as (_ & -> & _). lia.
  - intros w now p e rest Hw Ho Hty Hrun s'.
    pose proof (deliver_success_running gens s w now p e rest Hinv Hw Ho Hty Hrun) as H.
    cbv zeta in H. destruct H as (G1 & G2 & Hst).
    split; [exact G1|]. split; [exact G2|]. split; [exact Hst|].
    intros acts'. apply (stopped_run gens acts' s' Hst). left.
    unfold s'. now rewrite G1.
  - intros Hrun w now.
    assert (Hst : stopped s).
    { destruct Hinv as [_ Hc]. unfold coordInv in Hc. rewrite Hrun in Hc.
      split; [exact Hrun|]. tauto. }
    apply (stopped_step gens (Deliver w now) s Hst). now right.
Qed.



(** C2, what the code does: the class has no [stop()]; its one cancellation
    routine, the private [stopWorkers], leaves [generate()] pending: after it
    in a running session the promise is not settled, and no message handled
    later settles it; every worker is terminated and a second [stopWorkers]
    changes nothing. *)
Theorem stopWorkers_leaves_generate_pending
  (gens : nat -> nat -> Keypair) (hw : option Z) (c : VanityConfig) (cb : bool)
  (t0 t1 : Z) (acts acts' : list Action) :
  let s := runSys gens acts (session hw c cb t0 t1) in
  Generator.isRunning (coordinator s) = true ->
  noHostError acts' ->
  let s' := stopWorkers s in
  Generator.promise (coordinator s') = None
  /\ Generator.promise (coordinator (runSys gens acts' s')) = None
  /\ stopped s'
  /\ stopWorkers s' = s'.
Proof.
  intros s Hrun Hq s'.
  assert (Hinv : sessionInv s) by apply sessionInv_run, sessionInv_session.
  assert (Hst : stopped s') by now apply stopWorkers_stopped.
  assert (Hp : Generator.promise (coordinator s') = None).
  { destruct Hinv as [_ Hc]. unfold coordInv in Hc. rewrite Hrun in Hc.
    unfold s', stopWorkers. cbn. tauto. }
  split; [exact Hp|]. split; [|split; [exact Hst|reflexivity]].
  pose proof (stopped_run gens acts' s' Hst) as H. cbv zeta in H.
  destruct H as (_ & _ & _ & _ & _ & H). rewrite H; [exact Hp | now right].
Qed.

Lemma stopWorkers_leaves_generate_pending_witness :
  Generator.promise
    (coordinator
       (runSys (fun _ => alwaysAbc) [Deliver 0 5; WorkerStep 1]
          (stopWorkers
             (runSys (fun _ => alwaysAbc) [WorkerStep 0]
                (session (Some 4) abConfig false 0 0))))) = None.
Proof.
  refine (proj1 (proj2 (stopWorkers_leaves_generate_pending
            (fun _ => alwaysAbc) (Some 4) abConfig false 0 0
            [WorkerStep 0] [Deliver 0 5; WorkerStep 1] _ _))).
  - reflexivity.
  - repeat constructor.
Defined.

(** ** Exhaustion *)

Lemma workerStep_stopped_id (gen : nat -> Keypair) (p : WorkerProc) :
  VanityWorker.status (script p) <> VanityWorker.Searching ->
  workerStep gen p = p.
Proof.
  destruct p as [w tm ob dl]. unfold workerStep, VanityWorker.step. cbn.
  intros H. destruct tm; [reflexivity|].
  destruct (VanityWorker.status w); try congruence; now rewrite app_nil_r.
Qed.

(** In a quiescent session only an error reported by the host changes
    anything. *)
Lemma quiescent_run (gens : nat -> nat -> Keypair) (acts : list Action) (s : System) :
  quiescent s -> noHostError acts -> runSys gens acts s = s.
Proof.
  intros Hq Hacts. induction Hacts as [|a acts Ha _ IH]; [reflexivity|].
  cbn [runSys foldl]. fold (runSys gens acts (sysStep gens a s)).
  assert (sysStep gens a s = s) as ->; [|exact IH].
  destruct a as [w|w now|w]; [| |destruct Ha]; cbn [sysStep].
  - destruct s as [g pl]. cbn [coordinator pool]. f_equal.
    apply list_eq. intros j. rewrite list_lookup_alter.
    destruct (decide (w = j)) as [->|]; [|reflexivity].
    destruct (pl !! j) as [p|] eqn:Hj; [|reflexivity]. cbn. f_equal.
    apply workerStep_stopped_id.
    exact (proj1 (Forall_lookup_1 _ _ _ _ Hq Hj)).
  - destruct (pool s !! w) as [p|] eqn:Hw; [|reflexivity].
    now rewrite (proj2 (Forall_lookup_1 _ _ _ _ Hq Hw)).
Qed.

(** C1, what the code does in the exhaustion scenario: both workers end
    exhausted with nothing left to deliver, the coordinator still runs
    and the promise of [generate()] is pending; short of an error reported by
    the host, nothing can happen any more, so the promise is never settled. *)
Theorem exhaustion_leaves_generate_pending (acts : list Action) :
  noHostError acts ->
  let s := runSys neverMatching exhaustionSchedule
             (session (Some 2) exhaustionConfig false 0 0) in
  Forall (fun p => VanityWorker.status (script p) = VanityWorker.Exhausted
                   /\ outbox p = [] /\ terminated p = false) (pool s)
  /\ length (pool s) = 2%nat
  /\ Generator.isRunning (coordinator s) = true
  /\ Generator.totalAttempts (coordinator s) = 20000
  /\ Generator.promise (coordinator s) = None
  /\ runSys neverMatching acts s = s.
Proof.
  intros Hacts s.
  assert (Hpool : Forall (fun p => VanityWorker.status (script p) = VanityWorker.Exhausted
                            /\ outbox p = [] /\ terminated p = false) (pool s)).
  { unfold s. vm_compute. repeat constructor. }
  split; [exact Hpool|]. split; [now vm_compute|]. split; [now vm_compute|].
  split; [now vm_compute|]. split; [now vm_compute|].
  apply quiescent_run; [|exact Hacts].
  eapply Forall_impl; [exact Hpool|]. intros p (Hs & Ho & _).
  split; [congruence | exact Ho].
Qed.

Lemma exhaustion_leaves_generate_pending_witness :
  Generator.promise
    (coordinator
       (runSys neverMatching [WorkerStep 0; Deliver 1 300]
          (runSys neverMatching exhaustionSchedule
             (session (Some 2) exhaustionConfig false 0 0)))) = None.
Proof.
  pose proof (exhaustion_leaves_generate_pending [WorkerStep 0; Deliver 1 300]) as H.
  cbv zeta in H.
  destruct H as (_ & _ & _ & _ & Hp & Hfix); [repeat constructor|].
  rewrite Hfix. exact Hp.
Defined.

(** ** The attempt count of the result *)

Lemma split_history {A : Type} (l1 rest : list A) (e x y : A) (k : nat) :
  l1 ++ e :: rest = repeat x k ++ [y] -> e <> x ->
  l1 = repeat x k /\ e = y /\ rest = [].
Proof.
  revert k. induction l1 as [|z l1 IH]; intros k H Hne.
  - destruct k as [|k]; cbn in H.
    + injection H as -> ->. auto.
    + injection H as -> _. congruence.
  - destruct k as [|k]; cbn in H.
    + injection H as _ H. destruct l1; discriminate.
    + injection H as -> H. destruct (IH k H Hne) as (-> & -> & ->). auto.
Qed.

Lemma sumDeltas_nonneg (l : list Msg.WorkerMessage) :
  (forall e, In e l -> e = Msg.progressOf 10000 \/ Msg.type e = Msg.success) ->
  0 <= sumDeltas l.
Proof.
  induction l as [|m l IH]; intros H; [cbn; lia|].
  cbn [sumDeltas foldr]. fold (sumDeltas l).
  assert (0 <= sumDeltas l) by (apply IH; intros e He; apply H; now right).
  destruct (H m (or_introl eq_refl)) as [->|Hty].
  - change (Msg.isProgress (Msg.progressOf 10000)) with true.
    change (Msg.attemptsOr0 (Msg.progressOf 10000)) with 10000. lia.
  - unfold Msg.isProgress. rewrite Hty. lia.
Qed.

(** A worker has drawn at least as many key pairs as the deltas handled from
    it add up to. *)
Lemma procInv_reported (p : WorkerProc) :
  procInv p -> sumDeltas (delivered p) <= Z.of_nat (VanityWorker.generated (script p)).
Proof.
  intros Hp.
  assert (0 <= sumDeltas (outbox p)) as Hout.
  { apply sumDeltas_nonneg. intros e He.
    destruct (procInv_message p e Hp) as [->|(Hty & _)]; auto.
    unfold history. apply in_or_app. now right. }
  assert (sumDeltas (history p) <= Z.of_nat (VanityWorker.generated (script p))).
  { destruct Hp as (_ & k & Ha & H).
    destruct (VanityWorker.status (script p)).
    - destruct H as (-> & Hi & Hg). rewrite sumDeltas_repeat. lia.
    - destruct H as ((a & key & ->) & Hg).
      rewrite sumDeltas_app, sumDeltas_repeat. cbn. lia.
    - destruct H as (-> & Hg). rewrite sumDeltas_repeat. lia. }
  unfold history in *. rewrite sumDeltas_app in *. lia.
Qed.

Lemma drawn_received_gap (pl : list WorkerProc) (w : nat) (p : WorkerProc) :
  Forall procInv pl -> pl !! w = Some p ->
  received pl + (Z.of_nat (VanityWorker.generated (script p)) - sumDeltas (delivered p))
  <= drawn pl.
Proof.
  intros Hpl. revert w. induction Hpl as [|q pl Hq Hpl IH]; intros w Hw.
  - discriminate.
  - cbn [received drawn foldr]. fold (received pl). fold (drawn pl).
    destruct w as [|w]; cbn in Hw.
    + injection Hw as ->.
      assert (received pl <= drawn pl); [|lia].
      clear -Hpl. induction Hpl as [|q pl Hq _ IH]; cbn; [lia|].
      fold (received pl). fold (drawn pl).
      pose proof (procInv_reported q Hq). lia.
    + pose proof (IH w Hw). pose proof (procInv_reported q Hq). lia.
Qed.

(** C10, as the code has it: the attempt count that [generate()] resolves
    with is the sum of the progress deltas handled before the success
    message; the count carried by that message, which is the number of key
    pairs the winner has drawn, is not used; the winner has drawn between 1
    and 10000 key pairs more than its handled deltas add up to, and the
    resolved count is short of the number of key pairs drawn by all workers
    by at least that much, by exactly that much when there is one worker. *)
Theorem resolved_attempts_are_received_deltas
  (gens : nat -> nat -> Keypair) (hw : option Z) (c : VanityConfig) (cb : bool)
  (t0 t1 : Z) (acts : list Action) (w : nat) (now : Z) (p : WorkerProc)
  (e : Msg.WorkerMessage) (rest : list Msg.WorkerMessage) :
  let s := runSys gens acts (session hw c cb t0 t1) in
  pool s !! w = Some p -> outbox p = e :: rest -> Msg.type e = Msg.success ->
  Generator.isRunning (coordinator s) = true ->
  let winnerGap :=
    Z.of_nat (VanityWorker.generated (script p)) - sumDeltas (delivered p) in
  exists r,
    Generator.promise (coordinator (sysStep gens (Deliver w now) s))
    = Some (Generator.Resolved r)
    /\ Generator.attempts r = received (pool s)
    /\ Msg.attempts (Msg.data e) = Some (Z.of_nat (VanityWorker.generated (script p)))
    /\ 1 <= winnerGap <= 10000
    /\ Generator.attempts r + winnerGap <= drawn (pool s)
    /\ (length (pool s) = 1%nat -> drawn (pool s) - Generator.attempts r = winnerGap).
Proof.
  intros s Hw Ho Hty Hrun winnerGap.
  assert (Hinv : sessionInv s) by apply sessionInv_run, sessionInv_session.
  pose proof (deliver_success_running gens s w now p e rest Hinv Hw Ho Hty Hrun) as H.
  cbv zeta in H. destruct H as (Hprom & _).
  eexists. split; [exact Hprom|]. cbn [Generator.attempts].
  destruct Hinv as [Hpl Hc]. unfold coordInv in Hc. rewrite Hrun in Hc.
  destruct Hc as (_ & _ & _ & Htot).
  assert (Hpi : procInv p) by exact (Forall_lookup_1 _ _ _ _ Hpl Hw).
  assert (He : In e (history p))
    by (unfold history; rewrite Ho; apply in_or_app; right; now left).
  destruct (procInv_message p e Hpi He) as [->|(_ & Hst & a & key & ->)];
    [discriminate|].
  destruct Hpi as (_ & k & Ha & Hs). rewrite Hst in Hs.
  destruct Hs as ((a' & key' & Hh) & Hg). unfold history in Hh. rewrite Ho in Hh.
  apply split_history in Hh as (Hd & _ & _); [|discriminate].
  assert (Hgap : winnerGap = Z.of_nat (VanityWorker.generated (script p))
                             - VanityWorker.attempts (script p))
    by (unfold winnerGap; now rewrite Hd, sumDeltas_repeat, Ha).
  split; [exact Htot|]. split; [reflexivity|]. split; [lia|]. split.
  - rewrite Htot. now apply (drawn_received_gap (pool s) w p).
  - intros Hlen. rewrite Htot.
    destruct (pool s) as [|q [|q' pl]] eqn:Hpool; try discriminate.
    destruct w as [|w]; [|discriminate]. injection Hw as ->.
    cbn. unfold winnerGap. lia.
Qed.

Lemma resolved_attempts_are_received_deltas_witness :
  exists r,
    Generator.promise
      (coordinator
         (sysStep secondMatches (Deliver 0 50)
            (runSys secondMatches [WorkerStep 0; WorkerStep 0]
               (session (Some 2) abConfig false 0 0))))
    = Some (Generator.Resolved r)
    /\ Generator.attempts r = 0.
Proof.
  destruct (resolved_attempts_are_received_deltas secondMatches (Some 2) abConfig
              false 0 0 [WorkerStep 0; WorkerStep 0] 0%nat 50
              {| script := workerAt abConfig 0 0 1 2 VanityWorker.Succeeded;
                 terminated := false;
                 outbox := [Msg.successOf "abc" [7] 2];
                 delivered := [] |}
              (Msg.successOf "abc" [7] 2) [])
    as (r & Hp & Ha & _); try reflexivity.
  exists r. split; [exact Hp | exact Ha].
Defined.

(** C10 as stated fails with two workers: in the race scenario the promise
    resolves with 0 attempts while the workers have drawn 10001 key pairs,
    more than 10000 above the resolved count. *)
Lemma resolved_count_misses_other_workers :
  let s := runSys secondMatches raceSchedule (session (Some 2) abConfig false 0 0) in
  exists r,
    Generator.promise (coordinator s) = Some (Generator.Resolved r)
    /\ Generator.attempts r = 0
    /\ drawn (pool s) = 10001.
Proof.
  eexists. split; [vm_compute; reflexivity|]. split; [reflexivity|].
  vm_compute. reflexivity.
Qed.

(** * Further properties *)

(** ** Validation and construction *)

Lemma patternOk_falsy (o : option string) :
  Js.truthyStr o = false -> patternOk o.
Proof.
  destruct o as [[|a s]|]; intros T s' E; try discriminate.
  injection E as <-. intros ch [].
Qed.

Lemma patternOk_test (o : option string) :
  Js.truthyStr o = true -> (testOpt o = true <-> patternOk o).
Proof.
  destruct o as [[|a s]|]; try discriminate. intros _.
  unfold testOpt, base58Regex_test, patternOk. rewrite allBase58_forall. split.
  - intros H s' [= <-]. exact H.
  - intros H. now apply H.
Qed.

Lemma test_false_invalid (o : option string) :
  Js.truthyStr o = true -> testOpt o = false -> hasInvalidChar o.
Proof.
  destruct o as [s|]; [|discriminate]. intros T. unfold testOpt.
  assert (allBase58 s = false -> hasInvalidChar (Some s)) as H.
  { clear T. induction s as [|a s IH]; [discriminate|]. cbn [allBase58].
    intros E. apply andb_false_iff in E as [E|E].
    - exists (String a s), a. split; [reflexivity|]. split; [now left | exact E].
    - destruct (IH E) as (s' & ch & [= <-] & Hin & Hch).
      exists (String a s), ch. split; [reflexivity|]. split; [now right | exact Hch]. }
  destruct s; [discriminate T|exact H].
Qed.

(** What an accepted configuration satisfies. *)
Lemma validateConfig_inr (hw : option Z) (c : VanityConfig) (v : Validated) :
  validateConfig hw c = inr v ->
  (Js.truthyStr (prefix c) = true \/ Js.truthyStr (suffix c) = true)
  /\ patternOk (prefix c) /\ patternOk (suffix c)
  /\ threadsOk hw (threads c).
Proof.
  unfold validateConfig, threadsOk.
  destruct (Js.truthyStr (prefix c)) eqn:Tp; destruct (Js.truthyStr (suffix c)) eqn:Ts;
    cbn [negb andb]; [| | |discriminate].
  all: try (destruct (testOpt (prefix c)) eqn:Rp; cbn [negb andb];
            [apply (patternOk_test _ Tp) in Rp|discriminate]).
  all: try (destruct (testOpt (suffix c)) eqn:Rs; cbn [negb andb];
            [apply (patternOk_test _ Ts) in Rs|discriminate]).
  all: try (assert (Rs : patternOk (suffix c)) by now apply patternOk_falsy).
  all: try (assert (Rp : patternOk (prefix c)) by now apply patternOk_falsy).
  all: destruct (threads c) as [t|];
    [destruct (negb (t =? 0) && ((t <? 1) || (t >? maxThreads hw * 2))) eqn:Et;
     [discriminate|]
    |].
  all: intros _; repeat split; auto.
  all: apply andb_false_iff in Et as [E1|E2];
    [left; apply negb_false_iff, Z.eqb_eq in E1; exact E1
    |right; apply orb_false_iff in E2 as [E2 E3]; lia].
Qed.

(** X1: [validateConfig] returns exactly when at least one pattern is set,
    every character of the patterns is base58 and the thread count is unset,
    zero or in range; the length of the patterns only decides the warning. *)
Theorem validateConfig_accepts_iff
  (hw : option Z) (c : VanityConfig) (v : Validated) :
  validateConfig hw c = inr v <->
  (Js.truthyStr (prefix c) = true \/ Js.truthyStr (suffix c) = true)
  /\ patternOk (prefix c) /\ patternOk (suffix c)
  /\ threadsOk hw (threads c)
  /\ warnedLongPattern v
     = (Js.lengthOr0 (prefix c) + Js.lengthOr0 (suffix c) >? 10).
Proof.
  unfold validateConfig, threadsOk.
  destruct (Js.truthyStr (prefix c)) eqn:Tp; destruct (Js.truthyStr (suffix c)) eqn:Ts;
    cbn [negb andb].
  4: { split; [discriminate|]. intros ([|] & _); discriminate. }
  all: try (destruct (testOpt (prefix c)) eqn:Rp; cbn [negb andb];
            [apply (patternOk_test _ Tp) in Rp
            |split; [discriminate|]; intros (_ & Hp & _);
             apply (patternOk_test _ Tp) in Hp; congruence]).
  all: try (destruct (testOpt (suffix c)) eqn:Rs; cbn [negb andb];
            [apply (patternOk_test _ Ts) in Rs
            |split; [discriminate|]; intros (_ & _ & Hs & _);
             apply (patternOk_test _ Ts) in Hs; congruence]).
  all: try (assert (Rs : patternOk (suffix c)) by now apply patternOk_falsy).
  all: try (assert (Rp : patternOk (prefix c)) by now apply patternOk_falsy).
  all: destruct (threads c) as [t|];
    [destruct (negb (t =? 0) && ((t <? 1) || (t >? maxThreads hw * 2))) eqn:Et
    |].
  all: try (split; [discriminate|]; intros (_ & _ & _ & Ht & _);
            apply andb_true_iff in Et as [E1 E2];
            apply negb_true_iff, Z.eqb_neq in E1;
            apply orb_true_iff in E2; destruct Ht as [Ht|Ht]; [congruence|];
            destruct E2 as [E2|E2]; lia).
  all: split;
    [intros [= <-]; cbn [warnedLongPattern]; repeat split; auto
    |intros (_ & _ & _ & _ & Hw); destruct v as [b]; cbn in Hw; now subst b].
  all: apply andb_false_iff in Et as [E1|E2];
    [left; apply negb_false_iff, Z.eqb_eq in E1; exact E1
    |right; apply orb_false_iff in E2 as [E2 E3]; lia].
Qed.

(** X2: an error of [validateConfig] names the first check that fails, in
    the order missing pattern, prefix, suffix, thread count; the thread-count
    error carries the limit [2 * maxThreads]. *)
Theorem validateConfig_first_failure
  (hw : option Z) (c : VanityConfig) (e : ConfigurationError) :
  validateConfig hw c = inl e ->
  match e with
  | NoPatternSpecified =>
      Js.truthyStr (prefix c) = false /\ Js.truthyStr (suffix c) = false
  | PrefixInvalidBase58 => hasInvalidChar (prefix c)
  | SuffixInvalidBase58 => patternOk (prefix c) /\ hasInvalidChar (suffix c)
  | ThreadCountOutOfRange limit =>
      limit = 2 * maxThreads hw
      /\ (Js.truthyStr (prefix c) = true \/ Js.truthyStr (suffix c) = true)
      /\ patternOk (prefix c) /\ patternOk (suffix c)
      /\ exists t, threads c = Some t /\ t <> 0 /\ (t < 1 \/ limit < t)
  end.
Proof.
  unfold validateConfig.
  destruct (Js.truthyStr (prefix c)) eqn:Tp; destruct (Js.truthyStr (suffix c)) eqn:Ts;
    cbn [negb andb].
  4: { intros [= <-]. auto. }
  all: try (destruct (testOpt (prefix c)) eqn:Rp; cbn [negb andb];
            [apply (patternOk_test _ Tp) in Rp
            |intros [= <-]; now apply test_false_invalid]).
  all: try (destruct (testOpt (suffix c)) eqn:Rs; cbn [negb andb];
            [apply (patternOk_test _ Ts) in Rs
            |intros [= <-]; split;
             [first [exact Rp | now apply patternOk_falsy]
             |now apply test_false_invalid]]).
  all: try (assert (Rs : patternOk (suffix c)) by now apply patternOk_falsy).
  all: try (assert (Rp : patternOk (prefix c)) by now apply patternOk_falsy).
  all: destruct (threads c) as [t|]; [|discriminate].
  all: destruct (negb (t =? 0) && ((t <? 1) || (t >? maxThreads hw * 2))) eqn:Et;
    [|discriminate].
  all: intros [= <-]; apply andb_true_iff in Et as [E1 E2];
    apply negb_true_iff, Z.eqb_neq in E1; apply orb_true_iff in E2.
  all: split; [lia|]; split; [auto|]; split; [exact Rp|]; split; [exact Rs|];
    exists t; split; [reflexivity|]; split; [exact E1|];
    destruct E2 as [E2|E2]; [left|right]; lia.
Qed.

Lemma validateConfig_first_failure_witness :
  hasInvalidChar (Some "0abc"%string).
Proof.
  exact (validateConfig_first_failure (Some 8)
           {| prefix := Some "0abc"%string; suffix := Some "O"%string;
              caseInsensitive := false; maxAttempts := None;
              threads := Some 99; debug := None |}
           PrefixInvalidBase58 eq_refl).
Defined.

Lemma maxThreads_pos (hw : option Z) : hwSane hw -> 1 <= maxThreads hw.
Proof.
  intros H. unfold maxThreads, Js.orNum. destruct hw as [h|]; [|lia].
  specialize (H h eq_refl). destruct (Z.eqb_spec h 0); lia.
Qed.

(** An accepted generator is the constructed one, and its thread count is
    in range. *)
Lemma new_thread_count (hw : option Z) (c : VanityConfig) (g : Generator.t) :
  Generator.new hw c = inr g -> hwSane hw ->
  g = Generator.construct hw c
  /\ 1 <= Js.orNum (threads c) (maxThreads hw) <= 2 * maxThreads hw.
Proof.
  unfold Generator.new. destruct (validateConfig hw c) as [e|v] eqn:Hv; [discriminate|].
  intros [= <-] Hhw. apply validateConfig_inr in Hv as (_ & _ & _ & Ht).
  pose proof (maxThreads_pos hw Hhw) as Hm. split; [reflexivity|].
  unfold threadsOk in Ht. unfold Js.orNum. destruct (threads c) as [t|]; [|lia].
  destruct (Z.eqb_spec t 0); lia.
Qed.

(** X3: a constructed generator holds a thread count between 1 and
    [2 * maxThreads]: the caller's when it is set and not zero, [maxThreads]
    otherwise; the other fields of the configuration are the caller's. *)
Theorem constructed_thread_count
  (hw : option Z) (c : VanityConfig) (g : Generator.t) :
  Generator.new hw c = inr g -> hwSane hw ->
  exists t,
    threads (Generator.config g) = Some t
    /\ 1 <= t <= 2 * maxThreads hw
    /\ (forall t', threads c = Some t' -> t' <> 0 -> t = t')
    /\ (threads c = None \/ threads c = Some 0 -> t = maxThreads hw)
    /\ withThreads (Generator.config g) (threads c) = c.
Proof.
  intros Hg Hhw. destruct (new_thread_count hw c g Hg Hhw) as [-> Hr].
  assert (Hw : withThreads (Generator.config (Generator.construct hw c)) (threads c) = c)
    by now destruct c.
  exists (Js.orNum (threads c) (maxThreads hw)). split; [reflexivity|].
  split; [exact Hr|]. split; [|split; [|exact Hw]]; clear Hw Hr Hg;
    unfold Js.orNum; destruct (threads c) as [t|].
  - intros t' [= <-] Hne. destruct (Z.eqb_spec t 0); congruence.
  - discriminate.
  - intros [|[= ->]]; [discriminate|reflexivity].
  - reflexivity.
Qed.

Lemma constructed_thread_count_witness :
  exists g t,
    Generator.new None abConfig = inr g
    /\ threads (Generator.config g) = Some t /\ 1 <= t <= 8.
Proof.
  destruct (constructed_thread_count None abConfig
              (Generator.construct None abConfig) eq_refl)
    as (t & Ht & Hr & _).
  - intros h [=].
  - exists (Generator.construct None abConfig), t. split; [reflexivity|].
    split; [exact Ht | exact Hr].
Defined.

(** X4: an accepted search starts exactly as many workers as the thread
    count, at least one; worker [i] is fresh, is handed the generator's
    configuration and the identity [i], and its handle is kept; the
    coordinator runs with a pending promise and no attempt counted. *)
Theorem generate_spawns_thread_count
  (hw : option Z) (c : VanityConfig) (cb : bool) (t0 t1 : Z) (s : System) :
  startSearch hw c cb t0 t1 = inr s -> hwSane hw ->
  exists n,
    (1 <= n)%nat
    /\ threads (Generator.config (coordinator s)) = Some (Z.of_nat n)
    /\ withThreads (Generator.config (coordinator s)) (threads c) = c
    /\ length (pool s) = n
    /\ Generator.workers (coordinator s) = seq 0 n
    /\ (forall i, (i < n)%nat ->
          pool s !! i
          = Some {| script := VanityWorker.new (Generator.config (coordinator s))
                                (Z.of_nat i);
                    terminated := false; outbox := []; delivered := [] |})
    /\ Generator.isRunning (coordinator s) = true
    /\ Generator.promise (coordinator s) = None
    /\ Generator.totalAttempts (coordinator s) = 0
    /\ Generator.startTime (coordinator s) = t0
    /\ Generator.onProgress (coordinator s) = cb.
Proof.
  unfold startSearch. destruct (Generator.new hw c) as [e|g] eqn:Hg; [discriminate|].
  intros [= <-] Hhw.
  destruct (new_thread_count hw c g Hg Hhw) as [Hgc Hr].
  set (t := Js.orNum (threads c) (maxThreads hw)) in *.
  assert (Ht : threads (Generator.config g) = Some t) by now rewrite Hgc.
  assert (Hc : withThreads (Generator.config g) (threads c) = c)
    by (rewrite Hgc; now destruct c).
  assert (Hcfg : Generator.config (if cb then Generator.setProgressCallback g else g)
                 = Generator.config g) by now destruct cb.
  assert (Hwk : Generator.workers (if cb then Generator.setProgressCallback g else g)
                = []).
  { unfold Generator.new in Hg. destruct (validateConfig hw c); [discriminate|].
    injection Hg as <-. now destruct cb. }
  assert (Hcb : Generator.onProgress (if cb then Generator.setProgressCallback g else g)
                = cb).
  { unfold Generator.new in Hg. destruct (validateConfig hw c); [discriminate|].
    injection Hg as <-. now destruct cb. }
  exists (Z.to_nat t). unfold generate. rewrite Hcfg, Hwk, Hcb, Ht.
  cbn [coordinator pool Generator.config Generator.workers Generator.isRunning
       Generator.promise Generator.totalAttempts Generator.startTime
       Generator.onProgress].
  rewrite ?Ht.
  split; [lia|]. split; [f_equal; lia|]. split; [exact Hc|].
  split; [now rewrite length_fmap, length_seq|]. split; [reflexivity|].
  split; [|auto 10].
  intros i Hi. rewrite list_lookup_fmap, lookup_seq_lt by exact Hi. reflexivity.
Qed.

Lemma generate_spawns_thread_count_witness :
  exists s n,
    startSearch (Some 4) abConfig true 10 11 = inr s
    /\ length (pool s) = n /\ (1 <= n)%nat.
Proof.
  destruct (generate_spawns_thread_count (Some 4) abConfig true 10 11
              (session (Some 4) abConfig true 10 11) eq_refl)
    as (n & Hn & _ & _ & Hl & _).
  - intros h E. inversion E. lia.
  - exists (session (Some 4) abConfig true 10 11), n.
    split; [reflexivity|]. split; [exact Hl | exact Hn].
Defined.

(** ** The worker, in full *)

Lemma procOrigin_workerStep (c : VanityConfig) (gen : nat -> Keypair) (p : WorkerProc) :
  procInv p -> procOrigin c gen p -> procOrigin c gen (workerStep gen p).
Proof.
  destruct p as [[c' wid a ri ii g st] tm ob dl].
  unfold workerStep, procInv, procOrigin, history, VanityWorker.step.
  cbn -[Z.mul Z.add Z.ltb Z.of_nat].
  intros (-> & k & -> & H) (-> & Ho).
  destruct tm; [cbn -[Z.mul Z.add Z.of_nat]; auto|].
  destruct st; cbn -[Z.mul Z.add Z.ltb Z.of_nat].
  - destruct H as (Hh & Hi & Hg).
    destruct (ii <? 10000) eqn:Hlt.
    + destruct (matchesPattern c (publicKey_toBase58 (gen g))) eqn:Hm;
        cbn -[Z.mul Z.add Z.of_nat].
      * split; [reflexivity|]. exists g. split; [reflexivity|].
        split; [exact Ho|]. split; [exact Hm|].
        intros e He Hty. rewrite app_assoc, Hh in He.
        apply in_app_or in He as [He|[<-|[]]].
        -- apply repeat_spec in He. subst e. discriminate.
        -- f_equal. lia.
      * split; [reflexivity|]. intros j Hj.
        destruct (Nat.eq_dec j g) as [->|]; [exact Hm | apply Ho; lia].
    + destruct (VanityWorker.ceilingReached c (10000 * Z.of_nat k + 10000)) eqn:Hc;
        cbn -[Z.mul Z.add Z.of_nat]; auto.
  - split; [reflexivity|]. destruct Ho as (j & H1 & H2 & H3 & H4).
    exists j. rewrite app_nil_r. auto.
  - auto.
Qed.

Lemma procOf_run (gen : nat -> Keypair) (n : nat) :
  forall (w : VanityWorker.t) (acc : list Msg.WorkerMessage),
    Nat.iter n (workerStep gen) (procOf w acc)
    = procOf (fst (VanityWorker.run gen n w)) (acc ++ snd (VanityWorker.run gen n w)).
Proof.
  induction n as [|n IH]; intros w acc.
  - cbn. now rewrite app_nil_r.
  - rewrite Nat.iter_succ_r. cbn [VanityWorker.run].
    unfold workerStep at 2. cbn [terminated procOf script outbox delivered].
    destruct (VanityWorker.step gen w) as [w1 o1].
    change {| script := w1; terminated := false; outbox := acc ++ o1; delivered := [] |}
      with (procOf w1 (acc ++ o1)).
    rewrite IH. destruct (VanityWorker.run gen n w1) as [w2 o2]. cbn [fst snd].
    now rewrite app_assoc.
Qed.

Lemma run_invariants (c : VanityConfig) (wid : Z) (gen : nat -> Keypair) (n : nat) :
  let r := VanityWorker.run gen n (VanityWorker.new c wid) in
  procInv (procOf (fst r) (snd r)) /\ procOrigin c gen (procOf (fst r) (snd r)).
Proof.
  cbv zeta.
  pose proof (procOf_run gen n (VanityWorker.new c wid) []) as E. cbn [app] in E.
  rewrite <- E. clear E. induction n as [|n IH].
  - cbn [Nat.iter]. split.
    + split; [reflexivity|]. exists O. cbn. split; [reflexivity|].
      split; [reflexivity|]. lia.
    + split; [reflexivity|]. cbn. intros k Hk. lia.
  - cbn [Nat.iter]. destruct IH as [I1 I2]. split.
    + now apply procInv_workerStep.
    + now apply procOrigin_workerStep.
Qed.

(** X5: what a worker has done after any number of iterations, whatever its
    random source: it has posted one progress message of 10000 per finished
    batch and nothing else while it searches or once it is exhausted; when it
    has succeeded, one success message follows, for the first draw that
    matches, with the address and key of that draw and its rank as the
    attempt count; no earlier draw matched. *)
Theorem worker_run_shape
  (c : VanityConfig) (wid : Z) (gen : nat -> Keypair) (n : nat) :
  let w := fst (VanityWorker.run gen n (VanityWorker.new c wid)) in
  let out := snd (VanityWorker.run gen n (VanityWorker.new c wid)) in
  exists k : nat,
    VanityWorker.attempts w = 10000 * Z.of_nat k
    /\ match VanityWorker.status w with
       | VanityWorker.Searching =>
           out = repeat (Msg.progressOf 10000) k
           /\ noMatchIn c gen 0 (VanityWorker.generated w)
           /\ 0 <= VanityWorker.i w <= 10000
           /\ Z.of_nat (VanityWorker.generated w)
              = VanityWorker.attempts w + VanityWorker.i w
       | VanityWorker.Succeeded =>
           exists j,
             VanityWorker.generated w = S j
             /\ noMatchIn c gen 0 j
             /\ matchesPattern c (publicKey_toBase58 (gen j)) = true
             /\ out = repeat (Msg.progressOf 10000) k
                      ++ [Msg.successOf (publicKey_toBase58 (gen j)) (secretKey (gen j))
                            (Z.of_nat j + 1)]
             /\ 10000 * Z.of_nat k <= Z.of_nat j < 10000 * Z.of_nat k + 10000
       | VanityWorker.Exhausted =>
           out = repeat (Msg.progressOf 10000) k
           /\ noMatchIn c gen 0 (VanityWorker.generated w)
           /\ Z.of_nat (VanityWorker.generated w) = VanityWorker.attempts w
           /\ VanityWorker.ceilingReached c (VanityWorker.attempts w) = true
       end.
Proof.
  intros w out.
  destruct (run_invariants c wid gen n) as [(_ & k & Ha & H) (_ & Ho)].
  fold w out in H, Ho, Ha. unfold history in *.
  cbn [script procOf delivered outbox app] in *.
  exists k. split; [exact Ha|].
  destruct (VanityWorker.status w).
  - destruct H as (H1 & H2 & H3). auto.
  - destruct H as ((a & key & Hh) & Hg). destruct Ho as (j & Hj & Hno & Hm & He).
    exists j. split; [exact Hj|]. split; [exact Hno|]. split; [exact Hm|].
    rewrite Hj in *. split; [|lia].
    rewrite Hh. f_equal. f_equal.
    rewrite (He (Msg.successOf a key (Z.of_nat (S j)))); [f_equal; lia| |reflexivity].
    rewrite Hh. apply in_or_app. right. now left.
  - destruct H as (H1 & H2). destruct Ho as (H3 & H4). auto.
Qed.

Lemma step_hit (c : VanityConfig) (wid a ii : Z) (gen : nat -> Keypair) (g : nat) :
  ii < 10000 -> matchesPattern c (publicKey_toBase58 (gen g)) = true ->
  VanityWorker.step gen (workerAt c wid a ii g VanityWorker.Searching)
  = (workerAt c wid a ii (S g) VanityWorker.Succeeded,
     [Msg.successOf (publicKey_toBase58 (gen g)) (secretKey (gen g)) (a + ii + 1)]).
Proof.
  intros Hi Hm. unfold VanityWorker.step. cbn -[Z.add Z.ltb].
  replace (ii <? 10000) with true by (symmetry; apply Z.ltb_lt; lia).
  now rewrite Hm.
Qed.

Lemma beforeCeiling_batches (c : VanityConfig) (k j : nat) :
  beforeCeiling c k -> (1 <= j)%nat -> Z.of_nat j <= Z.of_nat k / 10000 ->
  VanityWorker.ceilingReached c (Z.of_nat j * 10000) = false.
Proof.
  unfold beforeCeiling, VanityWorker.ceilingReached.
  destruct (maxAttempts c) as [m|]; [|reflexivity]. intros [->|H] Hj Hle.
  - reflexivity.
  - apply andb_false_iff. right. rewrite Z.geb_leb. apply Z.leb_gt. lia.
Qed.

(** The run of a worker up to the first match of its random source. *)
Lemma run_to_first_match
  (c : VanityConfig) (wid : Z) (gen : nat -> Keypair) (k : nat) :
  noMatchIn c gen 0 k ->
  matchesPattern c (publicKey_toBase58 (gen k)) = true ->
  beforeCeiling c k ->
  let q := Z.to_nat (Z.of_nat k / 10000) in
  VanityWorker.run gen (k + q + 1) (VanityWorker.new c wid)
  = (workerAt c wid (Z.of_nat q * 10000) (Z.of_nat k mod 10000) (S k)
       VanityWorker.Succeeded,
     repeat (Msg.progressOf 10000) q
     ++ [Msg.successOf (publicKey_toBase58 (gen k)) (secretKey (gen k))
           (Z.of_nat k + 1)]).
Proof.
  intros Hno Hm Hc q.
  assert (Hdiv : Z.of_nat k = 10000 * (Z.of_nat k / 10000) + Z.of_nat k mod 10000)
    by (apply Z.div_mod; lia).
  assert (Hrem : 0 <= Z.of_nat k mod 10000 < 10000) by (apply Z.mod_pos_bound; lia).
  assert (Hq0 : 0 <= Z.of_nat k / 10000) by (apply Z.div_pos; lia).
  assert (HqZ : Z.of_nat q = Z.of_nat k / 10000) by (unfold q; lia).
  set (r := Z.to_nat (Z.of_nat k mod 10000)).
  assert (Hk : k = (q * Z.to_nat 10000 + r)%nat) by (unfold r; lia).
  replace (k + q + 1)%nat with (q * (Z.to_nat 10000 + 1) + (r + 1))%nat by lia.
  rewrite run_add, run_batches;
    [|intros j Hj; apply Hno; lia
     |intros j Hj; apply (beforeCeiling_batches c k); [exact Hc|lia|lia]].
  rewrite run_add, run_misses;
    [|lia|unfold r; lia|intros j Hj; apply Hno; lia].
  cbn [VanityWorker.run]. rewrite step_hit; [|unfold r; lia|now rewrite <- Hk].
  rewrite app_nil_l, app_nil_r. rewrite <- Hk.
  replace (0 + Z.of_nat r) with (Z.of_nat k mod 10000) by (unfold r; lia).
  do 4 f_equal. lia.
Qed.

(** X6: a worker finds the first match of its random source: when the draw
    of index [k] is the first that matches and comes before the ceiling stops
    the worker, after [k + 1] draws and the [k / 10000] batch boundaries
    between them the worker has posted one progress message per boundary and
    then the success message for that draw, with [k + 1] as the attempt
    count; further iterations do nothing. *)
Theorem worker_reports_first_match
  (c : VanityConfig) (wid : Z) (gen : nat -> Keypair) (k : nat) :
  noMatchIn c gen 0 k ->
  matchesPattern c (publicKey_toBase58 (gen k)) = true ->
  beforeCeiling c k ->
  let q := Z.to_nat (Z.of_nat k / 10000) in
  let steps := (k + q + 1)%nat in
  let final :=
    (workerAt c wid (Z.of_nat q * 10000) (Z.of_nat k mod 10000) (S k)
       VanityWorker.Succeeded,
     repeat (Msg.progressOf 10000) q
     ++ [Msg.successOf (publicKey_toBase58 (gen k)) (secretKey (gen k))
           (Z.of_nat k + 1)]) in
  VanityWorker.run gen steps (VanityWorker.new c wid) = final
  /\ forall extra,
       VanityWorker.run gen (steps + extra) (VanityWorker.new c wid) = final.
Proof.
  intros Hno Hm Hc q steps final.
  pose proof (run_to_first_match c wid gen k Hno Hm Hc) as Hrun. cbv zeta in Hrun.
  fold q steps final in Hrun.
  split; [exact Hrun|]. intros extra. rewrite run_add, Hrun.
  unfold final. now rewrite run_stopped, app_nil_r.
Qed.

Lemma worker_reports_first_match_witness :
  VanityWorker.run (secondMatches 0) 2 (VanityWorker.new abConfig 0)
  = (workerAt abConfig 0 0 1 2 VanityWorker.Succeeded,
     [Msg.successOf "abc" [7] 2]).
Proof.
  refine (proj1 (worker_reports_first_match abConfig 0 (secondMatches 0) 1 _ _ _)).
  - intros j Hj. assert (j = O) as -> by lia. reflexivity.
  - reflexivity.
  - exact I.
Defined.

Lemma step_no_ceiling (c : VanityConfig) (gen : nat -> Keypair) (w : VanityWorker.t) :
  noCeiling c -> VanityWorker.config w = c ->
  VanityWorker.status w <> VanityWorker.Exhausted ->
  let w' := fst (VanityWorker.step gen w) in
  VanityWorker.config w' = c
  /\ VanityWorker.status w' <> VanityWorker.Exhausted
  /\ ((forall j, matchesPattern c (publicKey_toBase58 (gen j)) = false) ->
      VanityWorker.status w = VanityWorker.Searching ->
      VanityWorker.status w' = VanityWorker.Searching).
Proof.
  intros Hn Hc Hs.
  assert (Hcr : forall a, VanityWorker.ceilingReached c a = false).
  { intros a. unfold VanityWorker.ceilingReached. now destruct Hn as [-> | ->]. }
  destruct w as [c0 wid a ri ii g st]. cbn in Hc, Hs. subst c0.
  unfold VanityWorker.step. cbn -[Z.add Z.ltb]. destruct st; cbn -[Z.add Z.ltb].
  - destruct (ii <? ri).
    + destruct (matchesPattern c (publicKey_toBase58 (gen g))) eqn:Hm; cbn.
      * split; [reflexivity|]. split; [discriminate|]. intros H. now rewrite H in Hm.
      * auto.
    + cbn -[Z.add]. rewrite Hcr. auto.
  - split; [reflexivity|]. split; discriminate.
  - congruence.
Qed.

(** X7: without an attempt ceiling ([maxAttempts] unset or [0]) a worker is
    never exhausted, and with a random source that never matches it searches
    for ever: no number of iterations ends its loop. *)
Theorem no_ceiling_never_exhausted
  (c : VanityConfig) (wid : Z) (gen : nat -> Keypair) (n : nat) :
  noCeiling c ->
  let w := fst (VanityWorker.run gen n (VanityWorker.new c wid)) in
  VanityWorker.status w <> VanityWorker.Exhausted
  /\ ((forall j, matchesPattern c (publicKey_toBase58 (gen j)) = false) ->
      VanityWorker.status w = VanityWorker.Searching).
Proof.
  intros Hn.
  assert (G : forall w0,
            VanityWorker.config w0 = c ->
            VanityWorker.status w0 <> VanityWorker.Exhausted ->
            let w := fst (VanityWorker.run gen n w0) in
            VanityWorker.status w <> VanityWorker.Exhausted
            /\ ((forall j, matchesPattern c (publicKey_toBase58 (gen j)) = false) ->
                VanityWorker.status w0 = VanityWorker.Searching ->
                VanityWorker.status w = VanityWorker.Searching)).
  { induction n as [|n IH]; intros w0 Hc Hs; [cbn; auto|].
    cbn [VanityWorker.run].
    pose proof (step_no_ceiling c gen w0 Hn Hc Hs) as H. cbv zeta in H.
    destruct (VanityWorker.step gen w0) as [w1 o1]. cbn [fst] in H.
    destruct H as (H1 & H2 & H3).
    pose proof (IH w1 H1 H2) as H. cbv zeta in H.
    destruct (VanityWorker.run gen n w1) as [w2 o2]. cbn [fst] in *.
    destruct H as [H4 H5]. split; [exact H4|]. auto. }
  pose proof (G (VanityWorker.new c wid) eq_refl) as H. cbv zeta in *.
  destruct H as [H1 H2]; [discriminate|]. split; [exact H1|].
  intros Hno. now apply H2.
Qed.

Lemma no_ceiling_never_exhausted_witness :
  VanityWorker.status
    (fst (VanityWorker.run alwaysAbc 5 (VanityWorker.new abConfig 3)))
  <> VanityWorker.Exhausted.
Proof.
  refine (proj1 (no_ceiling_never_exhausted abConfig 3 alwaysAbc 5 _)).
  now left.
Defined.

Lemma step_withWorkerId (gen : nat -> Keypair) (w : VanityWorker.t) (wid : Z) :
  VanityWorker.step gen (withWorkerId w wid)
  = (withWorkerId (fst (VanityWorker.step gen w)) wid, snd (VanityWorker.step gen w)).
Proof.
  destruct w as [c wid0 a ri ii g st].
  unfold VanityWorker.step, withWorkerId. cbn -[Z.add Z.ltb].
  destruct st; [|reflexivity..].
  destruct (ii <? ri); [|reflexivity].
  destruct (matchesPattern _ _); reflexivity.
Qed.

(** X8: the identity of a worker plays no part in its search: two workers
    of the same configuration that draw the same key pairs post the same
    messages and end in the same state, their identity apart. *)
Theorem workerId_irrelevant
  (c : VanityConfig) (wid wid' : Z) (gen : nat -> Keypair) (n : nat) :
  snd (VanityWorker.run gen n (VanityWorker.new c wid'))
  = snd (VanityWorker.run gen n (VanityWorker.new c wid))
  /\ fst (VanityWorker.run gen n (VanityWorker.new c wid'))
     = withWorkerId (fst (VanityWorker.run gen n (VanityWorker.new c wid))) wid'.
Proof.
  change (VanityWorker.new c wid') with (withWorkerId (VanityWorker.new c wid) wid').
  generalize (VanityWorker.new c wid). induction n as [|n IH]; intros w.
  - cbn. auto.
  - cbn [VanityWorker.run]. rewrite step_withWorkerId.
    destruct (VanityWorker.step gen w) as [w1 o1]. cbn [fst snd].
    destruct (IH w1) as [I1 I2].
    destruct (VanityWorker.run gen n (withWorkerId w1 wid')) as [w2 o2].
    destruct (VanityWorker.run gen n w1) as [w3 o3]. cbn [fst snd] in *.
    split; congruence.
Qed.

(** ** The matcher and the validation together *)

Lemma toLowerCase_app (a b : string) :
  Js.toLowerCase (a ++ b) = (Js.toLowerCase a ++ Js.toLowerCase b)%string.
Proof. induction a as [|ch a IH]; cbn; [reflexivity | now rewrite IH]. Qed.

Lemma caseFold_app (c : VanityConfig) (a b : string) :
  caseFold c (a ++ b) = (caseFold c a ++ caseFold c b)%string.
Proof. unfold caseFold. destruct (caseInsensitive c); [apply toLowerCase_app | reflexivity]. Qed.

(** X9: switching [caseInsensitive] on never loses a match: an address that
    matches the patterns as written also matches them without regard to
    case. *)
Theorem caseInsensitive_matches_more (c : VanityConfig) (address : string) :
  matchesPattern (withCase c false) address = true ->
  matchesPattern (withCase c true) address = true.
Proof.
  rewrite !matchesPattern_iff. unfold caseFold. cbn. intros [Hp Hs]. split.
  - intros p E. destruct (Hp p E) as [t ->]. exists (Js.toLowerCase t).
    apply toLowerCase_app.
  - intros q E. destruct (Hs q E) as [t ->]. exists (Js.toLowerCase t).
    apply toLowerCase_app.
Qed.

Lemma caseInsensitive_matches_more_witness :
  matchesPattern (withCase abConfig true) "abc" = true.
Proof. exact (caseInsensitive_matches_more abConfig "abc" eq_refl). Defined.

Lemma allBase58_app (a b : string) :
  allBase58 (a ++ b) = allBase58 a && allBase58 b.
Proof.
  induction a as [|ch a IH]; cbn; [reflexivity|]. now rewrite IH, andb_assoc.
Qed.

Lemma patternOk_text (o : option string) :
  patternOk o -> allBase58 (patternText o) = true.
Proof.
  intros H. destruct o as [s|]; [|reflexivity]. cbn.
  apply allBase58_forall. now apply H.
Qed.

(** X10: the patterns of an accepted configuration can be met: the prefix
    followed by the suffix is a non-empty string of base58 characters that
    matches, with or without [caseInsensitive]. *)
Theorem accepted_pattern_matchable
  (hw : option Z) (c : VanityConfig) (v : Validated) :
  validateConfig hw c = inr v ->
  let address := (patternText (prefix c) ++ patternText (suffix c))%string in
  matchesPattern c address = true
  /\ allBase58 address = true
  /\ address <> EmptyString.
Proof.
  intros Hv address.
  apply validateConfig_inr in Hv as (Ht & Hp & Hs & _).
  split; [|split].
  - apply matchesPattern_iff. unfold address. split.
    + intros p E. rewrite E. cbn [patternText]. rewrite caseFold_app. now eexists.
    + intros q E. rewrite E. cbn [patternText]. rewrite caseFold_app. now eexists.
  - unfold address. rewrite allBase58_app, !patternOk_text by assumption. reflexivity.
  - unfold address.
    destruct (prefix c) as [[|a p]|]; destruct (suffix c) as [[|b q]|]; cbn in *;
      try discriminate; destruct Ht; discriminate.
Qed.

Lemma accepted_pattern_matchable_witness :
  matchesPattern abConfig "ab" = true.
Proof.
  exact (proj1 (accepted_pattern_matchable (Some 4) abConfig
                  {| warnedLongPattern := false |} eq_refl)).
Defined.

(** ** The session, end to end *)

(** A property kept by every action of a session is kept by a schedule. *)
Lemma run_invariant (J : System -> Prop) (gens : nat -> nat -> Keypair) :
  (forall a s, sessionInv s -> J s -> J (sysStep gens a s)) ->
  forall acts s, sessionInv s -> J s -> J (runSys gens acts s).
Proof.
  intros Hstep acts. induction acts as [|a acts IH]; intros s Hs Hj; [exact Hj|].
  apply IH; [now apply sessionInv_step | now apply Hstep].
Qed.

Lemma onProgressDelta_fields (now delta : Z) (g : Generator.t) :
  let g' := Generator.onProgressDelta now delta g in
  Generator.config g' = Generator.config g
  /\ Generator.promise g' = Generator.promise g
  /\ Generator.resolveCalls g' = Generator.resolveCalls g
  /\ Generator.isRunning g' = Generator.isRunning g
  /\ Generator.startTime g' = Generator.startTime g
  /\ Generator.onProgress g' = Generator.onProgress g.
Proof.
  unfold Generator.onProgressDelta. destruct (Generator.isRunning g) eqn:E; cbn; [|auto 10].
  destruct (now - Generator.lastProgressUpdate g >=? 1000); cbn; auto 10.
Qed.

Lemma length_stopWorkers (s : System) : length (pool (stopWorkers s)) = length (pool s).
Proof.
  unfold stopWorkers. cbn [pool]. generalize (pool s).
  induction (Generator.workers (coordinator s)) as [|h hs IH]; intros pl; [reflexivity|].
  cbn [foldl]. now rewrite IH, length_alter.
Qed.

Lemma lookup_stopWorkers (s : System) (w : nat) (p : WorkerProc) :
  pool (stopWorkers s) !! w = Some p ->
  exists p0, pool s !! w = Some p0 /\ script p = script p0 /\ history p = history p0.
Proof.
  unfold stopWorkers. cbn [pool]. rewrite lookup_foldl_terminate.
  destruct (decide (w ∈ Generator.workers (coordinator s))).
  - destruct (pool s !! w) as [p0|]; [|discriminate]. intros [= <-]. eauto.
  - eauto.
Qed.

Lemma procOrigin_same (c : VanityConfig) (gen : nat -> Keypair) (p p0 : WorkerProc) :
  script p = script p0 -> history p = history p0 ->
  procOrigin c gen p0 -> procOrigin c gen p.
Proof. unfold procOrigin. now intros -> ->. Qed.

Lemma sysStep_config (gens : nat -> nat -> Keypair) (a : Action) (s : System) :
  Generator.config (coordinator (sysStep gens a s)) = Generator.config (coordinator s).
Proof.
  destruct a as [w|w now|w]; cbn [sysStep coordinator]; [reflexivity| |].
  - destruct (pool s !! w) as [p|]; [|reflexivity].
    destruct (outbox p) as [|e rest]; [reflexivity|].
    unfold onmessage. cbn [coordinator].
    destruct (Generator.isRunning (coordinator s)); [|reflexivity]. cbn [negb].
    destruct (Msg.type e); cbn [withCoordinator coordinator]; [|reflexivity].
    apply onProgressDelta_fields.
  - destruct (pool s !! w); reflexivity.
Qed.

Lemma runSys_config (gens : nat -> nat -> Keypair) (acts : list Action) (s : System) :
  Generator.config (coordinator (runSys gens acts s)) = Generator.config (coordinator s).
Proof.
  revert s. induction acts as [|a acts IH]; intros s; [reflexivity|].
  cbn [runSys foldl]. fold (runSys gens acts (sysStep gens a s)).
  now rewrite IH, sysStep_config.
Qed.

Lemma origin_step (gens : nat -> nat -> Keypair) (a : Action) (s : System) :
  sessionInv s ->
  originInv gens s /\ resolvedFrom gens s ->
  originInv gens (sysStep gens a s) /\ resolvedFrom gens (sysStep gens a s).
Proof.
  intros [Hp Hc] [Ho Hr]. unfold originInv, resolvedFrom.
  rewrite sysStep_config.
  destruct a as [w0|w0 now|w0]; cbn [sysStep].
  - (* a worker iterates *)
    cbn [pool coordinator]. split.
    + intros w p. rewrite list_lookup_alter.
      destruct (decide (w0 = w)) as [->|]; [|apply Ho].
      destruct (pool s !! w) as [p0|] eqn:Hw; [|discriminate]. intros [= <-].
      apply procOrigin_workerStep; [exact (Forall_lookup_1 _ _ _ _ Hp Hw)|now apply Ho].
    + rewrite length_alter. exact Hr.
  - (* a message is handled *)
    destruct (pool s !! w0) as [p0|] eqn:Hw0; [|split; assumption].
    destruct (outbox p0) as [|e rest] eqn:Hout; [split; assumption|].
    set (p1 := {| script := script p0; terminated := terminated p0;
                  outbox := rest; delivered := delivered p0 ++ [e] |}).
    set (s1 := {| coordinator := coordinator s; pool := <[w0 := p1]> (pool s) |}).
    assert (Hh1 : history p1 = history p0)
      by (unfold history, p1; cbn [delivered outbox]; now rewrite Hout, <- app_assoc).
    assert (Ho1 : forall w p, pool s1 !! w = Some p ->
                    procOrigin (Generator.config (coordinator s)) (gens w) p).
    { intros w p. unfold s1. cbn [pool].
      destruct (decide (w0 = w)) as [->|Hne].
      - rewrite list_lookup_insert_eq by (eapply lookup_lt_Some; eauto).
        intros [= <-]. apply (procOrigin_same _ _ p1 p0); [reflexivity|exact Hh1|].
        now apply Ho.
      - rewrite list_lookup_insert_ne by exact Hne. apply Ho. }
    assert (Hl1 : length (pool s1) = length (pool s))
      by (unfold s1; cbn [pool]; apply length_insert).
    assert (Hc1 : coordinator s1 = coordinator s) by reflexivity.
    unfold onmessage. rewrite !Hc1.
    destruct (Generator.isRunning (coordinator s)) eqn:Hrun; cbn [negb].
    + destruct (Msg.type e) eqn:Hty; cbn [withCoordinator coordinator pool].
      * split; [exact Ho1|]. rewrite Hl1.
        destruct (onProgressDelta_fields now (Msg.attemptsOr0 e) (coordinator s))
          as (_ & -> & _). exact Hr.
      * split.
        -- intros w p Hwp. apply lookup_stopWorkers in Hwp as (q & Hq & Hs & Hh).
           apply (procOrigin_same _ _ p q Hs Hh). now apply Ho1.
        -- rewrite length_stopWorkers, Hl1. unfold resolveWith.
           cbn [Generator.promise stopWorkers coordinator]. rewrite Hc1.
           unfold coordInv in Hc. rewrite Hrun in Hc. destruct Hc as (Hnone & _).
           rewrite Hnone. cbn [Generator.settle]. intros r [= <-].
           cbn [Generator.publicKey Generator.privateKey].
           assert (He : In e (history p0))
             by (unfold history; rewrite Hout; apply in_or_app; right; now left).
           pose proof (Ho w0 p0 Hw0) as (_ & Horig).
           destruct (procInv_message p0 e (Forall_lookup_1 _ _ _ _ Hp Hw0) He)
             as [->|(_ & Hst & _)]; [discriminate|].
           rewrite Hst in Horig. destruct Horig as (j & Hj & Hno & Hm & Hmsg).
           rewrite (Hmsg e He Hty). exists w0, j.
           split; [eapply lookup_lt_Some; eauto|]. auto.
    + split; [exact Ho1|]. rewrite Hl1. exact Hr.
  - (* the host reports an error *)
    destruct (pool s !! w0) as [q0|]; [|split; assumption].
    unfold onerror. cbn [withCoordinator coordinator pool]. split.
    + intros w p Hwp. apply lookup_stopWorkers in Hwp as (q & Hq & Hs & Hh).
      apply (procOrigin_same _ _ p q Hs Hh). now apply Ho.
    + rewrite length_stopWorkers. unfold rejectWith.
      cbn [Generator.promise stopWorkers coordinator].
      destruct (Generator.promise (coordinator s)) as [x|] eqn:Hx;
        cbn [Generator.settle]; [|discriminate].
      intros r Er. apply Hr. now rewrite Hx.
Qed.

Lemma origin_session (gens : nat -> nat -> Keypair) (hw : option Z) (c : VanityConfig)
  (cb : bool) (t0 t1 : Z) :
  originInv gens (session hw c cb t0 t1) /\ resolvedFrom gens (session hw c cb t0 t1).
Proof.
  split.
  - intros w p. unfold session, generate. cbn [pool coordinator Generator.config].
    rewrite list_lookup_fmap.
    destruct (seq 0 _ !! w) as [i|]; [|discriminate]. intros [= <-].
    split; [now destruct cb|]. cbn. intros k Hk. lia.
  - intros r. unfold session, generate. cbn. discriminate.
Qed.

(** X11: whenever [generate()] resolves, the address it returns matches the
    configured patterns and the key it returns is the key of that address:
    both come from one draw of one of the session's workers, the first of
    that worker's draws that matches. *)
Theorem resolved_key_matches
  (gens : nat -> nat -> Keypair) (hw : option Z) (c : VanityConfig) (cb : bool)
  (t0 t1 : Z) (acts : list Action) (r : Generator.SearchResult) :
  let s := runSys gens acts (session hw c cb t0 t1) in
  Generator.promise (coordinator s) = Some (Generator.Resolved r) ->
  exists w j,
    (w < length (pool s))%nat
    /\ Generator.publicKey r = Some (publicKey_toBase58 (gens w j))
    /\ Generator.privateKey r = Some (secretKey (gens w j))
    /\ matchesPattern c (publicKey_toBase58 (gens w j)) = true
    /\ noMatchIn c (gens w) 0 j.
Proof.
  intros s Hr.
  assert (H : originInv gens s /\ resolvedFrom gens s).
  { apply (run_invariant (fun s => originInv gens s /\ resolvedFrom gens s)).
    - intros a s0. apply origin_step.
    - apply sessionInv_session.
    - apply origin_session. }
  destruct H as [_ H]. destruct (H r Hr) as (w & j & Hw & Hpk & Hsk & Hm & Hno).
  unfold s in Hm, Hno. rewrite runSys_config in Hm, Hno.
  exists w, j. split; [exact Hw|]. split; [exact Hpk|]. split; [exact Hsk|].
  split.
  - rewrite <- Hm. now destruct cb.
  - intros k Hk. rewrite <- (Hno k Hk). now destruct cb.
Qed.

Lemma resolved_key_matches_witness :
  exists w j,
    Some "abc"%string = Some (publicKey_toBase58 (secondMatches w j))
    /\ matchesPattern abConfig (publicKey_toBase58 (secondMatches w j)) = true.
Proof.
  destruct (resolved_key_matches secondMatches (Some 2) abConfig false 0 0
              [WorkerStep 0; WorkerStep 0; Deliver 0 50]
              {| Generator.publicKey := Some "abc"%string;
                 Generator.privateKey := Some [7];
                 Generator.attempts := 0; Generator.duration := 50 |} eq_refl)
    as (w & j & _ & Hpk & _ & Hm & _).
  exists w, j. split; [exact Hpk | exact Hm].
Defined.

(** ** Settlement *)

Lemma settled_step (gens : nat -> nat -> Keypair) (a : Action) (s : System) :
  sessionInv s -> settledInv s -> settledInv (sysStep gens a s).
Proof.
  intros [Hp Hc] [H1 H2]. unfold settledInv, coordInv in *. cbv zeta in *.
  destruct a as [w|w now|w]; cbn [sysStep coordinator]; [exact (conj H1 H2)| |].
  - destruct (pool s !! w) as [p|]; [|exact (conj H1 H2)].
    destruct (outbox p) as [|e rest]; [exact (conj H1 H2)|].
    unfold onmessage. cbn [coordinator].
    destruct (Generator.isRunning (coordinator s)) eqn:Hrun; cbn [negb];
      [|split; [intros _; exact (H1 eq_refl)|exact H2]].
    destruct Hc as (Hnone & Hres & _).
    destruct (Msg.type e); cbn [withCoordinator coordinator].
    + destruct (onProgressDelta_running now (Msg.attemptsOr0 e) (coordinator s) Hrun)
        as (_ & -> & -> & _ & -> & _).
      rewrite Hnone, Hres. split; [discriminate|reflexivity].
    + unfold resolveWith. cbn. rewrite Hnone, Hres. cbn. split; [discriminate|reflexivity].
  - destruct (pool s !! w) as [p|]; [|exact (conj H1 H2)].
    unfold onerror, rejectWith. cbn.
    destruct (Generator.promise (coordinator s)) as [x|]; cbn.
    + split; [discriminate|exact H2].
    + split; [discriminate|]. exact H2.
Qed.

(** X12: in a session the promise of [generate()] is pending exactly while
    the coordinator runs; once it has stopped every worker is terminated and
    no handle is kept; [resolve] has been called once when the promise is
    resolved and never when it is pending or rejected. *)
Theorem settled_iff_stopped
  (gens : nat -> nat -> Keypair) (hw : option Z) (c : VanityConfig) (cb : bool)
  (t0 t1 : Z) (acts : list Action) :
  let s := runSys gens acts (session hw c cb t0 t1) in
  let g := coordinator s in
  (Generator.promise g = None <-> Generator.isRunning g = true)
  /\ (Generator.isRunning g = false <-> stopped s)
  /\ ((exists r, Generator.promise g = Some (Generator.Resolved r))
      <-> Generator.resolveCalls g = 1%nat)
  /\ (Generator.resolveCalls g <= 1)%nat.
Proof.
  intros s g.
  assert (Hinv : sessionInv s) by apply sessionInv_run, sessionInv_session.
  assert (Hset : settledInv s).
  { apply (run_invariant settledInv); [apply settled_step|apply sessionInv_session|].
    split; [discriminate|reflexivity]. }
  destruct Hinv as [_ Hc]. destruct Hset as [H1 H2]. unfold coordInv in Hc.
  fold g in Hc, H1, H2.
  destruct (Generator.isRunning g) eqn:Hrun.
  - destruct Hc as (Hnone & Hres & _). rewrite Hnone, Hres.
    split; [tauto|]. split; [|split; [|lia]].
    + split; [discriminate|]. intros (Hs & _). fold g in Hs. congruence.
    + split; [intros [r Hr]; discriminate|discriminate].
  - destruct Hc as (Hwk & Hterm & Hle).
    split; [split; [intros Hn; now destruct (H1 eq_refl)|discriminate]|].
    split; [split; [intros _; exact (conj Hrun (conj Hwk Hterm))|reflexivity]|].
    split; [|exact Hle].
    destruct (Generator.promise g) as [[r|w]|]; rewrite H2.
    + split; [reflexivity|eauto].
    + split; [intros [r [=]]|discriminate].
    + split; [intros [r [=]]|discriminate].
Qed.

(** X13: an error of a worker reported while the session runs rejects
    [generate()] with that error: every worker is terminated, [resolve] is
    not called, and nothing that happens later changes the coordinator, so a
    success message that arrives afterwards is dropped. *)
Theorem worker_error_rejects
  (gens : nat -> nat -> Keypair) (hw : option Z) (c : VanityConfig) (cb : bool)
  (t0 t1 : Z) (acts acts' : list Action) (w : nat) :
  let s := runSys gens acts (session hw c cb t0 t1) in
  Generator.isRunning (coordinator s) = true ->
  (w < length (pool s))%nat ->
  let s' := sysStep gens (WorkerError w) s in
  Generator.promise (coordinator s') = Some (Generator.Rejected w)
  /\ stopped s'
  /\ Generator.resolveCalls (coordinator s') = 0%nat
  /\ Generator.totalAttempts (coordinator s') = Generator.totalAttempts (coordinator s)
  /\ coordinator (runSys gens acts' s') = coordinator s'.
Proof.
  intros s Hrun Hw s'.
  assert (Hinv : sessionInv s) by apply sessionInv_run, sessionInv_session.
  assert (Hinv' : sessionInv s') by now apply sessionInv_step.
  destruct (lookup_lt_is_Some_2 (pool s) w Hw) as [p Hp].
  assert (Hs' : s' = onerror w s) by (unfold s'; cbn [sysStep]; now rewrite Hp).
  destruct Hinv as [_ Hc]. unfold coordInv in Hc. rewrite Hrun in Hc.
  destruct Hc as (Hnone & Hres & _).
  assert (Hprom : Generator.promise (coordinator s') = Some (Generator.Rejected w)).
  { rewrite Hs'. unfold onerror, rejectWith. cbn. now rewrite Hnone. }
  assert (Hst : stopped s').
  { destruct Hinv' as [_ Hc']. unfold coordInv in Hc'.
    assert (Generator.isRunning (coordinator s') = false) as E
      by (rewrite Hs'; reflexivity).
    rewrite E in Hc'. split; [exact E|]. tauto. }
  split; [exact Hprom|]. split; [exact Hst|].
  split; [rewrite Hs'; exact Hres|]. split; [rewrite Hs'; reflexivity|].
  apply (stopped_run gens acts' s' Hst). left. now rewrite Hprom.
Qed.

Lemma worker_error_rejects_witness :
  Generator.promise
    (coordinator
       (sysStep secondMatches (WorkerError 1)
          (runSys secondMatches [WorkerStep 0]
             (session (Some 2) abConfig false 0 0))))
  = Some (Generator.Rejected 1).
Proof.
  refine (proj1 (worker_error_rejects secondMatches (Some 2) abConfig false 0 0
                   [WorkerStep 0] [] 1 _ _)).
  - reflexivity.
  - vm_compute. lia.
Defined.

(** ** The aggregate and the notifications *)

Lemma received_stopWorkers (s : System) :
  received (pool (stopWorkers s)) = received (pool s).
Proof.
  unfold stopWorkers. cbn [pool]. generalize (pool s).
  induction (Generator.workers (coordinator s)) as [|h hs IH]; intros pl; [reflexivity|].
  cbn [foldl]. rewrite IH. now apply received_alter.
Qed.

Lemma received_le_drawn (pl : list WorkerProc) :
  Forall procInv pl -> received pl <= drawn pl.
Proof.
  induction 1 as [|p pl Hp _ IH]; cbn; [lia|].
  fold (received pl). fold (drawn pl). pose proof (procInv_reported p Hp). lia.
Qed.

Lemma totals_step (gens : nat -> nat -> Keypair) (a : Action) (s : System) :
  sessionInv s -> totalsInv s -> totalsInv (sysStep gens a s).
Proof.
  intros [Hp Hc] [[k Hk] Hle]. unfold totalsInv.
  destruct a as [w|w now|w]; cbn [sysStep].
  - cbn [coordinator pool]. rewrite received_alter by apply workerStep_delivered.
    split; [now exists k|exact Hle].
  - destruct (pool s !! w) as [p|] eqn:Hw; [|split; [now exists k|exact Hle]].
    destruct (outbox p) as [|e rest] eqn:Ho; [split; [now exists k|exact Hle]|].
    set (p1 := {| script := script p; terminated := terminated p;
                  outbox := rest; delivered := delivered p ++ [e] |}).
    assert (Hrec : received (<[w := p1]> (pool s))
                   = received (pool s) + sumDeltas [e]).
    { rewrite (received_insert _ _ p p1 Hw). unfold p1. cbn [delivered].
      rewrite sumDeltas_app. lia. }
    assert (He : In e (history p))
      by (unfold history; rewrite Ho; apply in_or_app; right; now left).
    unfold onmessage. cbn [coordinator].
    destruct (Generator.isRunning (coordinator s)) eqn:Hrun; cbn [negb].
    + destruct (procInv_message p e (Forall_lookup_1 _ _ _ _ Hp Hw) He)
        as [->|(Hty & _)].
      * change (Msg.type (Msg.progressOf 10000)) with Msg.progress. cbv iota.
        cbn [withCoordinator coordinator pool].
        destruct (onProgressDelta_running now (Msg.attemptsOr0 (Msg.progressOf 10000))
                    (coordinator s) Hrun) as (-> & _).
        rewrite Hrec. change (sumDeltas [Msg.progressOf 10000]) with 10000.
        change (Msg.attemptsOr0 (Msg.progressOf 10000)) with 10000.
        split; [exists (S k); lia|lia].
      * rewrite Hty. cbn [withCoordinator coordinator pool].
        rewrite received_stopWorkers. cbn [pool]. rewrite Hrec.
        cbn [resolveWith Generator.totalAttempts stopWorkers coordinator].
        split; [now exists k|].
        assert (sumDeltas [e] = 0) as ->; [|lia].
        cbn. unfold Msg.isProgress. rewrite Hty. reflexivity.
    + cbn [coordinator pool]. rewrite Hrec. split; [now exists k|].
      assert (0 <= sumDeltas [e]); [|lia].
      apply sumDeltas_nonneg. intros e' [<-|[]].
      destruct (procInv_message p e (Forall_lookup_1 _ _ _ _ Hp Hw) He)
        as [->|(Hty & _)]; auto.
  - destruct (pool s !! w); [|split; [now exists k|exact Hle]].
    unfold onerror. cbn [withCoordinator coordinator pool].
    rewrite received_stopWorkers.
    cbn [rejectWith Generator.totalAttempts stopWorkers coordinator].
    split; [now exists k|exact Hle].
Qed.

(** X14: at any point of a session [totalAttempts] is a whole number of
    batches of 10000, at most the sum of the progress deltas handled, which
    is at most the number of key pairs the workers have drawn: the aggregate
    never counts an attempt that was not made. *)
Theorem totalAttempts_bounded
  (gens : nat -> nat -> Keypair) (hw : option Z) (c : VanityConfig) (cb : bool)
  (t0 t1 : Z) (acts : list Action) :
  let s := runSys gens acts (session hw c cb t0 t1) in
  (exists k : nat, Generator.totalAttempts (coordinator s) = 10000 * Z.of_nat k)
  /\ Generator.totalAttempts (coordinator s) <= received (pool s)
  /\ received (pool s) <= drawn (pool s).
Proof.
  intros s.
  assert (Hinv : sessionInv s) by apply sessionInv_run, sessionInv_session.
  assert (Htot : totalsInv s).
  { apply (run_invariant totalsInv); [apply totals_step|apply sessionInv_session|].
    pose proof (sessionInv_session hw c cb t0 t1) as [_ Hc]. unfold coordInv in Hc.
    cbn [session generate coordinator Generator.isRunning] in Hc.
    destruct Hc as (_ & _ & _ & Hrec).
    split; [exists O; reflexivity|]. rewrite <- Hrec. reflexivity. }
  destruct Htot as [H1 H2]. split; [exact H1|]. split; [exact H2|].
  apply received_le_drawn, Hinv.
Qed.

Lemma notify_same (t0 t1 : Z) (cb : bool) (g g' : Generator.t) :
  Generator.startTime g' = Generator.startTime g ->
  Generator.onProgress g' = Generator.onProgress g ->
  Generator.totalAttempts g' = Generator.totalAttempts g ->
  Generator.progressCalls g' = Generator.progressCalls g ->
  Generator.lastProgressUpdate g' = Generator.lastProgressUpdate g ->
  notifyInv t0 t1 cb g -> notifyInv t0 t1 cb g'.
Proof. unfold notifyInv. now intros -> -> -> -> ->. Qed.

Lemma notify_delta (t0 t1 : Z) (cb : bool) (now : Z) (g : Generator.t) :
  Generator.isRunning g = true ->
  notifyInv t0 t1 cb g ->
  notifyInv t0 t1 cb (Generator.onProgressDelta now 10000 g).
Proof.
  intros Hrun (Hst & Hcb & Hpos & H). unfold notifyInv, Generator.onProgressDelta.
  rewrite Hrun. cbn [negb].
  destruct (now - Generator.lastProgressUpdate g >=? 1000) eqn:E;
    cbn [Generator.startTime Generator.onProgress Generator.totalAttempts
         Generator.progressCalls Generator.lastProgressUpdate].
  - rewrite Z.geb_leb in E. apply Z.leb_le in E.
    split; [exact Hst|]. split; [exact Hcb|]. split; [lia|].
    rewrite Hcb. destruct cb; [|exact H].
    destruct H as (Hth & Hlast & Hall). rewrite Hst.
    split; [|split].
    + cbn [throttled Generator.p_elapsed Generator.p_attempts].
      split; [|exact Hth].
      destruct (Generator.progressCalls g) as [|m older]; cbn [lastElapsed] in Hlast.
      * lia.
      * apply Forall_cons in Hall as [[_ Hm] _]. split; lia.
    + cbn [lastElapsed Generator.p_elapsed]. reflexivity.
    + constructor; [cbn; lia|].
      eapply Forall_impl; [exact Hall|]. cbn. intros n [? ?]. lia.
  - split; [exact Hst|]. split; [exact Hcb|]. split; [lia|].
    destruct cb; [|exact H]. destruct H as (Hth & Hlast & Hall).
    split; [exact Hth|]. split; [exact Hlast|].
    eapply Forall_impl; [exact Hall|]. cbn. intros n [? ?]. lia.
Qed.

Lemma notify_step (t0 t1 : Z) (cb : bool) (gens : nat -> nat -> Keypair)
  (a : Action) (s : System) :
  sessionInv s ->
  notifyInv t0 t1 cb (coordinator s) ->
  notifyInv t0 t1 cb (coordinator (sysStep gens a s)).
Proof.
  intros [Hp Hc] Hn. destruct a as [w|w now|w]; cbn [sysStep coordinator]; [exact Hn| |].
  - destruct (pool s !! w) as [p|] eqn:Hw; [|exact Hn].
    destruct (outbox p) as [|e rest] eqn:Ho; [exact Hn|].
    assert (He : In e (history p))
      by (unfold history; rewrite Ho; apply in_or_app; right; now left).
    unfold onmessage. cbn [coordinator].
    destruct (Generator.isRunning (coordinator s)) eqn:Hrun; cbn [negb]; [|exact Hn].
    destruct (procInv_message p e (Forall_lookup_1 _ _ _ _ Hp Hw) He)
      as [->|(Hty & _)].
    + change (Msg.type (Msg.progressOf 10000)) with Msg.progress. cbv iota.
      cbn [withCoordinator coordinator].
      change (Msg.attemptsOr0 (Msg.progressOf 10000)) with 10000.
      now apply notify_delta.
    + rewrite Hty. cbn [withCoordinator coordinator].
      now apply (notify_same t0 t1 cb (coordinator s)).
  - destruct (pool s !! w); [|exact Hn].
    unfold onerror. cbn [withCoordinator coordinator].
    now apply (notify_same t0 t1 cb (coordinator s)).
Qed.

(** X15: the progress notifications of a session.  With a callback
    registered before [generate()] (one that returns normally), each
    notification comes at least 1000 ms (by the clock readings) after the
    one before, the first at least 1000 ms after the second clock reading of
    [generate()]; the attempts it reports are at least 10000, at most the
    aggregate, and never fewer than in the notification before.  Without a
    callback nothing is notified. *)
Theorem notifications_throttled
  (gens : nat -> nat -> Keypair) (hw : option Z) (c : VanityConfig) (cb : bool)
  (t0 t1 : Z) (acts : list Action) :
  let g := coordinator (runSys gens acts (session hw c cb t0 t1)) in
  if cb then
    throttled (t1 - t0) (Generator.progressCalls g)
    /\ Forall (fun n => 10000 <= Generator.p_attempts n
                       /\ Generator.p_attempts n <= Generator.totalAttempts g)
         (Generator.progressCalls g)
  else Generator.progressCalls g = [].
Proof.
  intros g.
  assert (H : notifyInv t0 t1 cb g).
  { apply (run_invariant (fun s => notifyInv t0 t1 cb (coordinator s))).
    - intros a s. apply notify_step.
    - apply sessionInv_session.
    - unfold notifyInv, session, generate. destruct cb; cbn.
      + repeat split; try lia. constructor.
      + repeat split; lia. }
  destruct H as (_ & _ & _ & H). destruct cb; [|exact H]. tauto.
Qed.

(** * The other sources: properties *)

(** ** [withCreateMint] *)


(** ** [createProposal] *)

Lemma foldl_min_le (n : Z) (l : list Z) :
  foldl Z.min n l <= n /\ (forall m, In m l -> foldl Z.min n l <= m)
  /\ In (foldl Z.min n l) (n :: l).
Proof.
  revert n. induction l as [|x l IH]; intros n; cbn [foldl].
  - split; [lia|]. split; [intros m []|now left].
  - destruct (IH (Z.min n x)) as (H1 & H2 & H3). split; [lia|]. split.
    + intros m [<-|Hm]; [lia|now apply H2].
    + destruct H3 as [H3|H3]; [|now right; right].
      rewrite <- H3. destruct (Z.min_spec n x) as [[_ ->]|[_ ->]];
        [now left | now right; left].
Qed.

Lemma in_chunkBys {D T : Type} (ds : list (Proposal.InstructionDataWithHoldUpTime D T))
  (n : Z) :
  In n (Proposal.chunkBys ds) <->
  exists x, In x ds /\ Proposal.chunkBy x = Some n /\ n <> 0.
Proof.
  unfold Proposal.chunkBys. rewrite in_flat_map. split.
  - intros (x & Hx & Hn). exists x. split; [exact Hx|].
    destruct (Proposal.chunkBy x) as [m|]; [|destruct Hn].
    destruct (Z.eqb_spec m 0); [destruct Hn|]. destruct Hn as [<-|[]]. auto.
  - intros (x & Hx & E & Hne). exists x. split; [exact Hx|]. rewrite E.
    destruct (Z.eqb_spec n 0); [contradiction|now left].
Qed.

(** X17: the chunk size that [createProposal] uses is never [0]: it is [2]
    when no instruction carries a (non-zero) [chunkBy], otherwise the least
    of the non-zero [chunkBy] values, which one of the instructions
    carries. *)
Theorem lowestChunkBy_spec {D T : Type}
  (ds : list (Proposal.InstructionDataWithHoldUpTime D T)) :
  Proposal.lowestChunkBy ds <> 0
  /\ (forall x n, In x ds -> Proposal.chunkBy x = Some n -> n <> 0 ->
        Proposal.lowestChunkBy ds <= n)
  /\ ((forall x, In x ds ->
         Proposal.chunkBy x = None \/ Proposal.chunkBy x = Some 0) ->
      Proposal.lowestChunkBy ds = 2)
  /\ ((exists x n, In x ds /\ Proposal.chunkBy x = Some n /\ n <> 0) ->
      exists x, In x ds /\ Proposal.chunkBy x = Some (Proposal.lowestChunkBy ds)).
Proof.
  unfold Proposal.lowestChunkBy.
  destruct (Proposal.chunkBys ds) as [|n rest] eqn:E.
  - split; [lia|]. split; [|split; [reflexivity|]].
    + intros x n Hx Hn Hne.
      assert (In n (Proposal.chunkBys ds)) as H by (apply in_chunkBys; eauto).
      rewrite E in H. destruct H.
    + intros (x & n & Hx & Hn & Hne).
      assert (In n (Proposal.chunkBys ds)) as H by (apply in_chunkBys; eauto).
      rewrite E in H. destruct H.
  - destruct (foldl_min_le n rest) as (H1 & H2 & H3).
    assert (Hin : In (foldl Z.min n rest) (Proposal.chunkBys ds)) by now rewrite E.
    apply in_chunkBys in Hin as (x & Hx & Hc & Hne).
    split; [exact Hne|]. split; [|split].
    + intros y m Hy Hm Hnm.
      assert (In m (Proposal.chunkBys ds)) as H by (apply in_chunkBys; eauto).
      rewrite E in H. destruct H as [<-|H]; [exact H1|now apply H2].
    + intros Hall. destruct (Hall x Hx) as [H|H]; congruence.
    + intros _. eauto.
Qed.

Lemma entries_from {A : Type} (k : nat) (x : A) (l : list A) :
  zip (seq k (length (x :: l))) (x :: l) = (k, x) :: zip (seq (S k) (length l)) l.
Proof. reflexivity. Qed.

Lemma insertLoop_from {D T : Type} (l : list (Proposal.InstructionDataWithHoldUpTime D T)) :
  forall (k : nat) (st : Proposal.LoopState D T),
    Forall (fun x => Proposal.hasData x = true) l ->
    let st' := foldl Proposal.loopBody st (zip (seq k (length l)) l) in
    Proposal.prerequisites st'
    = Proposal.prerequisites st ++ flat_map Proposal.prerequisiteInstructions l
    /\ Proposal.prerequisiteSigners st'
       = Proposal.prerequisiteSigners st
         ++ flat_map (fun x => match Proposal.prerequisiteInstructionsSigners x with
                               | Some s => s
                               | None => []
                               end) l
    /\ map Proposal.index (Proposal.insertCalls st')
       = map Proposal.index (Proposal.insertCalls st) ++ seq k (length l)
    /\ map (fun c => Some (Proposal.insertData c)) (Proposal.insertCalls st')
       = map (fun c => Some (Proposal.insertData c)) (Proposal.insertCalls st)
         ++ map Proposal.data l
    /\ map Proposal.holdUp (Proposal.insertCalls st')
       = map Proposal.holdUp (Proposal.insertCalls st)
         ++ map (fun x => Js.orNum (Proposal.holdUpTime x) 0) l.
Proof.
  induction l as [|x l IH]; intros k st Hall.
  - cbn. rewrite !app_nil_r. auto.
  - apply Forall_cons in Hall as [Hx Hl]. rewrite entries_from. cbn [foldl].
    unfold Proposal.hasData in Hx.
    destruct (Proposal.data x) as [d|] eqn:Hd; [|discriminate].
    set (st1 := {| Proposal.prerequisites :=
                     Proposal.prerequisites st ++ Proposal.prerequisiteInstructions x;
                   Proposal.prerequisiteSigners :=
                     Proposal.prerequisiteSigners st
                     ++ match Proposal.prerequisiteInstructionsSigners x with
                        | Some s => s
                        | None => []
                        end;
                   Proposal.insertCalls :=
                     Proposal.insertCalls st
                     ++ [{| Proposal.index := k;
                            Proposal.holdUp := Js.orNum (Proposal.holdUpTime x) 0;
                            Proposal.insertData := d |}] |}).
    assert (Hb : Proposal.loopBody st (k, x) = st1)
      by (unfold Proposal.loopBody; now rewrite Hd).
    rewrite Hb. pose proof (IH (S k) st1 Hl) as H. cbv zeta in H.
    destruct H as (H1 & H2 & H3 & H4 & H5).
    rewrite H1, H2, H3, H4, H5. unfold st1.
    cbn [Proposal.prerequisites Proposal.prerequisiteSigners Proposal.insertCalls
         flat_map map length seq].
    rewrite !map_app, <- !app_assoc. cbn [map app Proposal.index Proposal.holdUp
                                          Proposal.insertData].
    rewrite Hd. auto.
Qed.

(** X18: the loop of [createProposal] makes one insert call per instruction
    that has data, in their order, numbered from 0 without gaps, with that
    instruction's data and its hold-up time (0 when it has none); it gathers
    the prerequisite instructions and signers of those instructions only, so
    what an instruction without data brings is left out. *)
Theorem insertLoop_spec {D T : Type}
  (ds : list (Proposal.InstructionDataWithHoldUpTime D T)) :
  let withData := List.filter Proposal.hasData ds in
  let st := Proposal.insertLoop ds in
  map Proposal.index (Proposal.insertCalls st) = seq 0 (length withData)
  /\ map (fun c => Some (Proposal.insertData c)) (Proposal.insertCalls st)
     = map Proposal.data withData
  /\ map Proposal.holdUp (Proposal.insertCalls st)
     = map (fun x => Js.orNum (Proposal.holdUpTime x) 0) withData
  /\ Proposal.prerequisites st = flat_map Proposal.prerequisiteInstructions withData
  /\ Proposal.prerequisiteSigners st
     = flat_map (fun x => match Proposal.prerequisiteInstructionsSigners x with
                          | Some s => s
                          | None => []
                          end) withData.
Proof.
  intros withData st.
  assert (Hall : Forall (fun x => Proposal.hasData x = true) withData).
  { apply List.Forall_forall. intros x Hx. unfold withData in Hx.
    now apply List.filter_In in Hx as [_ Hx]. }
  pose proof (insertLoop_from withData 0
                {| Proposal.prerequisites := []; Proposal.prerequisiteSigners := [];
                   Proposal.insertCalls := [] |} Hall) as H.
  cbv zeta in H. destruct H as (H1 & H2 & H3 & H4 & H5).
  unfold st, Proposal.insertLoop, Proposal.entries. fold withData. auto.
Qed.

(** X19: whatever signers the instructions carry, and whatever [chunks]
    does, every entry of [signerChunks] is the empty array (the [fill([])]
    overwrites the chunks of signers that were pushed); so in [signersSet]
    every entry after the chunks of the prerequisite signers is empty. *)
Theorem signerChunks_all_empty {D T : Type}
  (chunks : forall A : Type, list A -> Z -> list (list A))
  (prerequisiteSignersChunks : list (list (option Keypair)))
  (insertInstructions : list T)
  (ds : list (Proposal.InstructionDataWithHoldUpTime D T)) :
  let k := Proposal.lowestChunkBy ds in
  Proposal.signerChunks chunks insertInstructions ds
  = repeat [] (length (chunks _ insertInstructions k)
               + length (chunks _ (Proposal.allSigners ds) k))
  /\ Proposal.signersSet chunks prerequisiteSignersChunks insertInstructions ds
     = prerequisiteSignersChunks
       ++ repeat [] (S (length (chunks _ insertInstructions k)
                        + length (chunks _ (Proposal.allSigners ds) k))).
Proof.
  intros k.
  assert (H : Proposal.signerChunks chunks insertInstructions ds
              = repeat [] (length (chunks _ insertInstructions k)
                           + length (chunks _ (Proposal.allSigners ds) k))).
  { unfold Proposal.signerChunks. fold k.
    generalize (chunks _ (Proposal.allSigners ds) k) as cs.
    generalize (length (chunks _ insertInstructions k)) as n.
    intros n cs. rewrite fmap_app, repeat_app. f_equal.
    - induction n as [|n IH]; cbn; [reflexivity | now rewrite <- IH].
    - induction cs as [|c cs IH]; cbn; [reflexivity | now rewrite <- IH]. }
  split; [exact H|]. unfold Proposal.signersSet. rewrite H. f_equal.
  generalize (length (chunks T insertInstructions k)
              + length (chunks Keypair (Proposal.allSigners ds) k))%nat as n.
  intros n. cbn [repeat app]. f_equal.
  induction n as [|n IH]; cbn; [reflexivity | now rewrite IH].
Qed.

(** X22: for instruction data built by the constructor of
    [InstructionDataWithHoldUpTime], [createProposal] finds no signer at all
    (the constructor never sets [signers]), every instruction counts for the
    chunk size with its [chunkBy], or [2] when that is unset or [0], and an
    instruction has data exactly when its serialized text is not empty. *)
Theorem constructed_plan {D T : Type} (decode : string -> D)
  (uis : list (Ui.UiInstruction T * option Z)) :
  let ds := map (fun um => Proposal.construct decode (fst um) (snd um)) uis in
  Proposal.allSigners ds = []
  /\ Proposal.chunkBys ds = map (fun um => Js.orNum (Ui.chunkBy (fst um)) 2) uis
  /\ Forall (fun n => n <> 0) (Proposal.chunkBys ds)
  /\ map Proposal.hasData ds
     = map (fun um => negb (String.eqb (Ui.serializedInstruction (fst um)) "")) uis.
Proof.
  cbv zeta. induction uis as [|[ui m] uis (IH1 & IH2 & IH3 & IH4)].
  - cbn. auto.
  - cbn [map fst snd]. unfold Proposal.allSigners, Proposal.chunkBys in *.
    cbn [flat_map Proposal.construct Proposal.signers Proposal.chunkBy app].
    assert (Hnz : Js.orNum (Ui.chunkBy ui) 2 <> 0).
    { unfold Js.orNum. destruct (Ui.chunkBy ui) as [n|]; [|lia].
      destruct (Z.eqb_spec n 0); lia. }
    destruct (Z.eqb_spec (Js.orNum (Ui.chunkBy ui) 2) 0) as [E|_]; [contradiction|].
    cbn [app]. rewrite IH1, IH2, IH4. split; [reflexivity|]. split; [reflexivity|].
    split; [constructor; [exact Hnz|now rewrite <- IH2]|].
    f_equal. unfold Proposal.hasData, Proposal.construct. cbn [Proposal.data].
    destruct (Ui.serializedInstruction ui); reflexivity.
Qed.

(** ** [getTokenInfoAsync] *)

(** X20: [getTokenInfoAsync] asks the token endpoint at most once, for the
    address itself, and only when the address is neither cached, nor blank,
    nor in the token list; a lookup that brings nothing changes nothing; a
    lookup that brings a record can be repeated and then gives the same
    record without any request, whatever the endpoint would answer; the
    token list and the cache entries of other addresses are never touched. *)
Theorem getTokenInfoAsync_cached {TokenInfo Response : Type}
  (address : TokenInfo -> string) (withoutDecimals : Response -> TokenInfo)
  (fetch fetch' : string -> option Response)
  (sv : TokenPrice.Service TokenInfo) (a : string) :
  let r := TokenPrice.getTokenInfoAsync address withoutDecimals fetch sv a in
  (TokenPrice.requests r = []
   \/ TokenPrice.requests r = [a]
      /\ TokenPrice.lookup a (TokenPrice._unverifiedTokenCache sv) = None
      /\ TokenPrice.blank a = false
      /\ TokenPrice.findToken address sv a = None)
  /\ (TokenPrice.value r = None -> TokenPrice.service r = sv)
  /\ (forall info, TokenPrice.value r = Some info ->
        TokenPrice.getTokenInfoAsync address withoutDecimals fetch'
          (TokenPrice.service r) a
        = {| TokenPrice.value := Some info; TokenPrice.service := TokenPrice.service r;
             TokenPrice.requests := [] |})
  /\ TokenPrice._tokenList (TokenPrice.service r) = TokenPrice._tokenList sv
  /\ (forall b, b <> a ->
        TokenPrice.lookup b (TokenPrice._unverifiedTokenCache (TokenPrice.service r))
        = TokenPrice.lookup b (TokenPrice._unverifiedTokenCache sv)).
Proof.
  intros r. unfold r, TokenPrice.getTokenInfoAsync.
  destruct (TokenPrice.lookup a (TokenPrice._unverifiedTokenCache sv)) as [c|] eqn:Hc.
  - cbn. split; [now left|]. split; [discriminate|]. split; [|auto].
    intros info [= <-]. unfold TokenPrice.getTokenInfoAsync. now rewrite Hc.
  - destruct (TokenPrice.blank a) eqn:Hb.
    + cbn. split; [now left|]. split; [reflexivity|]. split; [discriminate|auto].
    + destruct (TokenPrice.findToken address sv a) as [t|] eqn:Hf.
      * cbn. split; [now left|]. split; [discriminate|]. split; [|auto].
        intros info [= <-]. unfold TokenPrice.getTokenInfoAsync.
        now rewrite ?Hc, ?Hf.
      * destruct (fetch a) as [d|]; cbn.
        -- split; [right; auto|]. split; [discriminate|]. split; [|split; [reflexivity|]].
           ++ intros info [= <-]. unfold TokenPrice.getTokenInfoAsync.
              cbn. now rewrite String.eqb_refl.
           ++ intros b Hne. destruct (String.eqb_spec a b); [congruence|reflexivity].
        -- split; [right; auto|]. split; [reflexivity|]. split; [discriminate|auto].
Qed.

(** ** A search that succeeds *)

Lemma runSys_cat (gens : nat -> nat -> Keypair) (a1 a2 : list Action) (s : System) :
  runSys gens (a1 ++ a2) s = runSys gens a2 (runSys gens a1 s).
Proof. apply foldl_app. Qed.

(** A run of iterations of one worker, in the session. *)
Lemma runSys_workerSteps (gens : nat -> nat -> Keypair) (w n : nat) :
  forall (s : System) (p : WorkerProc),
    pool s !! w = Some p ->
    runSys gens (repeat (WorkerStep w) n) s
    = {| coordinator := coordinator s;
         pool := <[w := Nat.iter n (workerStep (gens w)) p]> (pool s) |}.
Proof.
  induction n as [|n IH]; intros s p Hw.
  - cbn. rewrite list_insert_id by exact Hw. now destruct s.
  - change (runSys gens (repeat (WorkerStep w) (S n)) s)
      with (runSys gens (repeat (WorkerStep w) n) (sysStep gens (WorkerStep w) s)).
    cbn [sysStep].
    assert (Hal : alter (workerStep (gens w)) w (pool s)
                  = <[w := workerStep (gens w) p]> (pool s)).
    { apply list_eq. intros j. rewrite list_lookup_alter.
      destruct (decide (w = j)) as [->|Hne].
      - rewrite Hw, list_lookup_insert_eq by (eapply lookup_lt_Some; eauto).
        reflexivity.
      - now rewrite list_lookup_insert_ne. }
    rewrite Hal.
    rewrite (IH _ (workerStep (gens w) p));
      [|cbn [pool]; apply list_lookup_insert_eq; eapply lookup_lt_Some; eauto].
    cbn [coordinator pool]. rewrite list_insert_insert_eq.
    now rewrite Nat.iter_succ_r.
Qed.

(** Handling [j] progress messages of one worker while the session runs. *)
Lemma runSys_deliver_progress (gens : nat -> nat -> Keypair) (w : nat) (now : Z)
  (j : nat) :
  forall (s : System) (p : WorkerProc) (rest : list Msg.WorkerMessage),
    Generator.isRunning (coordinator s) = true ->
    pool s !! w = Some p ->
    outbox p = repeat (Msg.progressOf 10000) j ++ rest ->
    let s' := runSys gens (repeat (Deliver w now) j) s in
    Generator.isRunning (coordinator s') = true
    /\ Generator.startTime (coordinator s') = Generator.startTime (coordinator s)
    /\ Generator.totalAttempts (coordinator s')
       = Generator.totalAttempts (coordinator s) + 10000 * Z.of_nat j
    /\ exists p', pool s' !! w = Some p' /\ outbox p' = rest.
Proof.
  induction j as [|j IH]; intros s p rest Hrun Hw Ho.
  - cbn. split; [exact Hrun|]. split; [reflexivity|]. split; [lia|]. eauto.
  - change (runSys gens (repeat (Deliver w now) (S j)) s)
      with (runSys gens (repeat (Deliver w now) j) (sysStep gens (Deliver w now) s)).
    cbn [repeat app] in Ho.
    set (p1 := {| script := script p; terminated := terminated p;
                  outbox := repeat (Msg.progressOf 10000) j ++ rest;
                  delivered := delivered p ++ [Msg.progressOf 10000] |}).
    set (s1 := sysStep gens (Deliver w now) s).
    assert (Hs1 : s1 = withCoordinator
                         {| coordinator := coordinator s; pool := <[w := p1]> (pool s) |}
                         (Generator.onProgressDelta now 10000 (coordinator s))).
    { unfold s1. cbn [sysStep]. rewrite Hw, Ho. unfold onmessage.
      cbn [coordinator]. now rewrite Hrun. }
    destruct (onProgressDelta_running now 10000 (coordinator s) Hrun)
      as (G1 & G2 & _ & _ & _ & G6).
    pose proof (IH s1 p1 rest) as H. cbv zeta in H.
    destruct H as (H1 & H2 & H3 & H4).
    + rewrite Hs1. exact G2.
    + rewrite Hs1. cbn [withCoordinator pool].
      apply list_lookup_insert_eq. eapply lookup_lt_Some; eauto.
    + reflexivity.
    + split; [exact H1|]. split; [rewrite H2, Hs1; exact G6|].
      split; [|exact H4]. rewrite H3, Hs1. cbn [withCoordinator coordinator].
      rewrite G1. lia.
Qed.

(** X21: a search can succeed.  When the first draw of worker [w] that
    matches has index [k] and comes before the ceiling, running that worker
    up to its match and then handling its messages resolves [generate()]
    with the address and the key of that draw, with as attempts the 10000 of
    each batch the worker has finished, and with the time elapsed since the
    first clock reading of [generate()]. *)
Theorem search_resolves
  (gens : nat -> nat -> Keypair) (hw : option Z) (c : VanityConfig) (cb : bool)
  (t0 t1 : Z) (w k : nat) (now : Z) :
  let s0 := session hw c cb t0 t1 in
  (w < length (pool s0))%nat ->
  noMatchIn c (gens w) 0 k ->
  matchesPattern c (publicKey_toBase58 (gens w k)) = true ->
  beforeCeiling c k ->
  let q := Z.to_nat (Z.of_nat k / 10000) in
  let schedule :=
    repeat (WorkerStep w) (k + q + 1) ++ repeat (Deliver w now) q ++ [Deliver w now] in
  Generator.promise (coordinator (runSys gens schedule s0))
  = Some (Generator.Resolved
            {| Generator.publicKey := Some (publicKey_toBase58 (gens w k));
               Generator.privateKey := Some (secretKey (gens w k));
               Generator.attempts := 10000 * Z.of_nat q;
               Generator.duration := now - t0 |}).
Proof.
  intros s0 Hw Hno Hm Hc q schedule.
  set (cfg := Generator.config (coordinator s0)).
  assert (Hp0 : pool s0 !! w
                = Some (procOf (VanityWorker.new cfg (Z.of_nat w)) [])).
  { unfold s0, session, generate in *. cbn [pool coordinator Generator.config] in *.
    rewrite length_fmap, length_seq in Hw.
    rewrite list_lookup_fmap, lookup_seq_lt by exact Hw.
    unfold cfg. cbn. now destruct cb. }
  assert (Hcfg : cfg = Generator.config (Generator.construct hw c))
    by (unfold cfg, s0, session, generate; cbn; now destruct cb).
  assert (Hno' : noMatchIn cfg (gens w) 0 k)
    by (intros j Hj; rewrite <- (Hno j Hj); now rewrite Hcfg).
  assert (Hm' : matchesPattern cfg (publicKey_toBase58 (gens w k)) = true)
    by (rewrite <- Hm; now rewrite Hcfg).
  assert (Hc' : beforeCeiling cfg k) by now rewrite Hcfg.
  pose proof (run_to_first_match cfg (Z.of_nat w) (gens w) k Hno' Hm' Hc') as Hrun.
  cbv zeta in Hrun. fold q in Hrun.
  unfold schedule. rewrite !runSys_cat.
  rewrite (runSys_workerSteps gens w (k + q + 1) s0 _ Hp0).
  rewrite procOf_run, Hrun. cbn [fst snd app].
  set (s1 := {| coordinator := coordinator s0; pool := _ |}).
  assert (Hs1 : s1 = runSys gens (repeat (WorkerStep w) (k + q + 1)) s0).
  { rewrite (runSys_workerSteps gens w (k + q + 1) s0 _ Hp0).
    now rewrite procOf_run, Hrun. }
  pose proof (runSys_deliver_progress gens w now q s1 _ _ eq_refl
                (list_lookup_insert_eq _ _ _ (lookup_lt_Some _ _ _ Hp0)) eq_refl) as H.
  cbv zeta in H. destruct H as (H1 & H2 & H3 & p' & Hp' & Hout).
  set (s2 := runSys gens (repeat (Deliver w now) q) s1) in *.
  assert (Hinv2 : sessionInv s2).
  { unfold s2. rewrite Hs1. apply sessionInv_run, sessionInv_run, sessionInv_session. }
  pose proof (deliver_success_running gens s2 w now p' _ [] Hinv2 Hp' Hout eq_refl H1)
    as H.
  cbv zeta in H. destruct H as (Hprom & _).
  cbn [runSys foldl]. rewrite Hprom. cbn [Msg.successOf Msg.data Msg.address Msg.privateKey].
  rewrite H2, H3. now destruct cb.
Qed.

Lemma search_resolves_witness :
  Generator.promise
    (coordinator
       (runSys secondMatches [WorkerStep 0; WorkerStep 0; Deliver 0 50]
          (session (Some 2) abConfig false 0 0)))
  = Some (Generator.Resolved
            {| Generator.publicKey := Some "abc"%string;
               Generator.privateKey := Some [7];
               Generator.attempts := 0; Generator.duration := 50 |}).
Proof.
  refine (search_resolves secondMatches (Some 2) abConfig false 0 0 0 1 50 _ _ _ _).
  - vm_compute. lia.
  - intros j Hj. assert (j = O) as -> by lia. reflexivity.
  - reflexivity.
  - exact I.
Defined.
